(** * Deliverect import pipeline: order de-duplication and item reconciliation

    A shallow embedding of [src/deliverect/01_import_deliverect.py] and of
    the helpers of [src/functions/shared_functions.py].

    Modelling conventions.
    - A data frame is a [list Row]; a column operation is a [map], a boolean
      mask is a [filter], a left merge is a [flat_map].  A [Row] has the
      columns of the item-level frame; the order-level frame uses the
      columns the two feeds share.
    - A Python [str] is a [string] holding its UTF-8 bytes.  A missing cell
      (NaN / None) of a text column is [None].
    - The monetary cells of a [Row] are rationals ([Q]): a cell holds the
      value of a finite binary64 number, and no amount is missing.  The
      pipeline functions compute on them exactly.  The stages named
      [..._with] take the four binary64 operations on amounts (division
      by 100, product, group sum, difference) as an [Arithmetic], with
      whatever rounding they make, and are the pipeline functions at
      [exact_arithmetic].  [Check64] and [balancing_amount64] are lines
      294-311 on binary64 cells, and the examples on them show a rounded
      balancing amount and a NaN record.
    - The pipeline functions give the frame a loader returns; the pandas
      operations that raise on some frames ([.str] on a column read as
      numbers, line 255 on a numeric [ProductPLU]) are parameters of the
      loaders that read the directories.
    - The time-zone conversion of lines 21-24 is an external collaborator: a
      row enters the model with [OrderPlacedDate] and [OrderPlacedTime]
      already derived.
    - Case-insensitive matching and title-casing act on ASCII letters;
      [is_ascii] is the hypothesis of the statements that depend on what
      they do to a text. *)

From Stdlib Require Import String Ascii List Bool Arith ZArith QArith Qabs Qround Lia.
From Stdlib Require Import Permutation Sorted Lqa SpecFloat.
Import ListNotations.

Local Open Scope string_scope.
Local Open Scope list_scope.

(** ** Python string operations used by the pipeline *)

Module PyStr.

Definition is_upper (c : ascii) : bool :=
  let n := nat_of_ascii c in (65 <=? n)%nat && (n <=? 90)%nat.

Definition is_lower (c : ascii) : bool :=
  let n := nat_of_ascii c in (97 <=? n)%nat && (n <=? 122)%nat.

Definition to_lower (c : ascii) : ascii :=
  if is_upper c then ascii_of_nat (nat_of_ascii c + 32) else c.

Definition to_upper (c : ascii) : ascii :=
  if is_lower c then ascii_of_nat (nat_of_ascii c - 32) else c.

Fixpoint lower (s : string) : string :=
  match s with
  | EmptyString => EmptyString
  | String c s' => String (to_lower c) (lower s')
  end.

(** [pat in s] *)
Fixpoint contains (pat s : string) : bool :=
  String.prefix pat s ||
  match s with
  | EmptyString => false
  | String _ s' => contains pat s'
  end.

(** [Series.str.contains(pat, case=False)] on one non-null cell, for a
    lower-case literal [pat]. *)
Definition icontains (pat s : string) : bool := contains pat (lower s).

(** [s.replace(old, new)] for a non-empty [old]: occurrences are found
    left to right and do not overlap.  [skip] counts the bytes of a match
    still to be dropped. *)
Fixpoint replace_from (old new : string) (skip : nat) (s : string) : string :=
  match s with
  | EmptyString => EmptyString
  | String c s' =>
      match skip with
      | S k => replace_from old new k s'
      | O =>
          if String.prefix old s
          then new ++ replace_from old new (String.length old - 1) s'
          else String c (replace_from old new O s')
      end
  end.

Definition replace (old new s : string) : string := replace_from old new 0 s.

(** [s.split(sep)[0]] for a one-byte separator. *)
Fixpoint before_first (sep : ascii) (s : string) : string :=
  match s with
  | EmptyString => EmptyString
  | String c s' => if Ascii.eqb c sep then EmptyString
                   else String c (before_first sep s')
  end.

Definition has_char (sep : ascii) (s : string) : bool :=
  contains (String sep EmptyString) s.

Definition is_space (c : ascii) : bool :=
  let n := nat_of_ascii c in
  ((9 <=? n)%nat && (n <=? 13)%nat) || ((28 <=? n)%nat && (n <=? 32)%nat).

Fixpoint lstrip (s : string) : string :=
  match s with
  | EmptyString => EmptyString
  | String c s' => if is_space c then lstrip s' else s
  end.

Fixpoint take_word (s : string) : string :=
  match s with
  | EmptyString => EmptyString
  | String c s' => if is_space c then EmptyString else String c (take_word s')
  end.

(** [Series.str.split(n=1).str[0]] on one non-null cell: the first
    whitespace-delimited word, missing when the cell holds no word. *)
Definition first_word (s : string) : option string :=
  match lstrip s with
  | EmptyString => None
  | w => Some (take_word w)
  end.

(** [s.title()] on ASCII text: the first letter of every run of letters
    is upper-cased, the rest of the run lower-cased.  A byte outside
    ASCII is kept and ends the run. *)
Fixpoint title_from (in_word : bool) (s : string) : string :=
  match s with
  | EmptyString => EmptyString
  | String c s' =>
      if is_upper c || is_lower c
      then String (if in_word then to_lower c else to_upper c) (title_from true s')
      else String c (title_from false s')
  end.

Definition title (s : string) : string := title_from false s.

(** Decimal rendering with zero padding, as [%0wd]. *)
Definition digit (n : nat) : ascii := ascii_of_nat (48 + n mod 10).

Fixpoint digits_fuel (fuel n : nat) (acc : string) : string :=
  match fuel with
  | O => acc
  | S f =>
      let acc' := String (digit n) acc in
      if (n <? 10)%nat then acc' else digits_fuel f (n / 10) acc'
  end.

Definition decimal (n : nat) : string := digits_fuel (S n) n EmptyString.

Fixpoint zeros (k : nat) : string :=
  match k with O => EmptyString | S k' => String "0" (zeros k') end.

Definition zero_pad (w n : nat) : string :=
  let d := decimal n in zeros (w - String.length d) ++ d.

End PyStr.

(** ** Option-lifted text operations (a missing cell stays missing) *)

Definition str_map (f : string -> string) (x : option string) : option string :=
  match x with Some s => Some (f s) | None => None end.

(** [a + b] on two object columns. *)
Definition str_add (a b : option string) : option string :=
  match a, b with
  | Some x, Some y => Some (x ++ y)%string
  | _, _ => None
  end.

(** Truth value taken by [np.where] for a cell of a boolean-or-missing
    column: a NaN object is truthy. *)
Definition truthy (b : option bool) : bool :=
  match b with Some v => v | None => true end.

Definition str_icontains (pat : string) (x : option string) : option bool :=
  match x with Some s => Some (PyStr.icontains pat s) | None => None end.

Definition ostr_eqb (a b : option string) : bool :=
  match a, b with
  | Some x, Some y => String.eqb x y
  | None, None => true
  | _, _ => false
  end.

(** ** Calendar values *)

Record date := mkDate { year : nat; month : nat; day : nat }.
Record time := mkTime { hour : nat; minute : nat; second : nat; microsecond : nat }.

(** [str(d)] for a [datetime.date]; a missing date renders as ["NaT"]. *)
Definition iso_date (d : date) : string :=
  (PyStr.zero_pad 4 (year d) ++ "-" ++ PyStr.zero_pad 2 (month d) ++ "-"
   ++ PyStr.zero_pad 2 (day d))%string.

Definition date_astype_str (d : option date) : string :=
  match d with Some x => iso_date x | None => "NaT" end.

(** ** Rows *)

Record Row := mkRow {
  PrimaryKey : option string;
  OrderID : option string;
  Location : option string;
  LocWithBrand : option string;
  Brand : option string;
  DeliveryType : option string;
  Channel : option string;
  OrderPlacedDate : option date;
  OrderPlacedTime : option time;
  OrderStatus : option string;
  PaymentType : option string;
  GrossAOV : Q;
  PromotionsOnItems : Q;
  DeliveryCost : Q;
  Tip : Q;
  TotalOrderAmount : Q;
  IsTestOrder : bool;
  ProductPLU : option string;
  ProductName : option string;
  ItemPrice : Q;
  ItemQuantities : Z;
  TotalPrice : Q
}.

Definition DataFrame := list Row.

Definition set_PrimaryKey (v : option string) (r : Row) : Row :=
  mkRow v (OrderID r) (Location r) (LocWithBrand r) (Brand r) (DeliveryType r)
    (Channel r) (OrderPlacedDate r) (OrderPlacedTime r) (OrderStatus r)
    (PaymentType r) (GrossAOV r) (PromotionsOnItems r) (DeliveryCost r) (Tip r)
    (TotalOrderAmount r) (IsTestOrder r) (ProductPLU r) (ProductName r)
    (ItemPrice r) (ItemQuantities r) (TotalPrice r).

Definition set_OrderID (v : option string) (r : Row) : Row :=
  mkRow (PrimaryKey r) v (Location r) (LocWithBrand r) (Brand r) (DeliveryType r)
    (Channel r) (OrderPlacedDate r) (OrderPlacedTime r) (OrderStatus r)
    (PaymentType r) (GrossAOV r) (PromotionsOnItems r) (DeliveryCost r) (Tip r)
    (TotalOrderAmount r) (IsTestOrder r) (ProductPLU r) (ProductName r)
    (ItemPrice r) (ItemQuantities r) (TotalPrice r).

Definition set_Location (v : option string) (r : Row) : Row :=
  mkRow (PrimaryKey r) (OrderID r) v (LocWithBrand r) (Brand r) (DeliveryType r)
    (Channel r) (OrderPlacedDate r) (OrderPlacedTime r) (OrderStatus r)
    (PaymentType r) (GrossAOV r) (PromotionsOnItems r) (DeliveryCost r) (Tip r)
    (TotalOrderAmount r) (IsTestOrder r) (ProductPLU r) (ProductName r)
    (ItemPrice r) (ItemQuantities r) (TotalPrice r).

Definition set_LocWithBrand (v : option string) (r : Row) : Row :=
  mkRow (PrimaryKey r) (OrderID r) (Location r) v (Brand r) (DeliveryType r)
    (Channel r) (OrderPlacedDate r) (OrderPlacedTime r) (OrderStatus r)
    (PaymentType r) (GrossAOV r) (PromotionsOnItems r) (DeliveryCost r) (Tip r)
    (TotalOrderAmount r) (IsTestOrder r) (ProductPLU r) (ProductName r)
    (ItemPrice r) (ItemQuantities r) (TotalPrice r).

Definition set_Brand (v : option string) (r : Row) : Row :=
  mkRow (PrimaryKey r) (OrderID r) (Location r) (LocWithBrand r) v (DeliveryType r)
    (Channel r) (OrderPlacedDate r) (OrderPlacedTime r) (OrderStatus r)
    (PaymentType r) (GrossAOV r) (PromotionsOnItems r) (DeliveryCost r) (Tip r)
    (TotalOrderAmount r) (IsTestOrder r) (ProductPLU r) (ProductName r)
    (ItemPrice r) (ItemQuantities r) (TotalPrice r).

Definition set_Channel (v : option string) (r : Row) : Row :=
  mkRow (PrimaryKey r) (OrderID r) (Location r) (LocWithBrand r) (Brand r)
    (DeliveryType r) v (OrderPlacedDate r) (OrderPlacedTime r) (OrderStatus r)
    (PaymentType r) (GrossAOV r) (PromotionsOnItems r) (DeliveryCost r) (Tip r)
    (TotalOrderAmount r) (IsTestOrder r) (ProductPLU r) (ProductName r)
    (ItemPrice r) (ItemQuantities r) (TotalPrice r).

Definition set_OrderStatus (v : option string) (r : Row) : Row :=
  mkRow (PrimaryKey r) (OrderID r) (Location r) (LocWithBrand r) (Brand r)
    (DeliveryType r) (Channel r) (OrderPlacedDate r) (OrderPlacedTime r) v
    (PaymentType r) (GrossAOV r) (PromotionsOnItems r) (DeliveryCost r) (Tip r)
    (TotalOrderAmount r) (IsTestOrder r) (ProductPLU r) (ProductName r)
    (ItemPrice r) (ItemQuantities r) (TotalPrice r).

Definition set_ProductName (v : option string) (r : Row) : Row :=
  mkRow (PrimaryKey r) (OrderID r) (Location r) (LocWithBrand r) (Brand r)
    (DeliveryType r) (Channel r) (OrderPlacedDate r) (OrderPlacedTime r)
    (OrderStatus r) (PaymentType r) (GrossAOV r) (PromotionsOnItems r)
    (DeliveryCost r) (Tip r) (TotalOrderAmount r) (IsTestOrder r) (ProductPLU r)
    v (ItemPrice r) (ItemQuantities r) (TotalPrice r).

Definition set_ItemPrice (v : Q) (r : Row) : Row :=
  mkRow (PrimaryKey r) (OrderID r) (Location r) (LocWithBrand r) (Brand r)
    (DeliveryType r) (Channel r) (OrderPlacedDate r) (OrderPlacedTime r)
    (OrderStatus r) (PaymentType r) (GrossAOV r) (PromotionsOnItems r)
    (DeliveryCost r) (Tip r) (TotalOrderAmount r) (IsTestOrder r) (ProductPLU r)
    (ProductName r) v (ItemQuantities r) (TotalPrice r).

Definition set_TotalPrice (v : Q) (r : Row) : Row :=
  mkRow (PrimaryKey r) (OrderID r) (Location r) (LocWithBrand r) (Brand r)
    (DeliveryType r) (Channel r) (OrderPlacedDate r) (OrderPlacedTime r)
    (OrderStatus r) (PaymentType r) (GrossAOV r) (PromotionsOnItems r)
    (DeliveryCost r) (Tip r) (TotalOrderAmount r) (IsTestOrder r) (ProductPLU r)
    (ProductName r) (ItemPrice r) (ItemQuantities r) v.

(** ** Orders used by [sort_values]

    Every sort key of the pipeline is compared through a three-way
    comparison; missing values sort last ([na_position='last']). *)

Class StrictCmp {K : Type} (cmp : K -> K -> comparison) : Prop := {
  cmp_eq : forall x y, cmp x y = Eq <-> x = y;
  cmp_opp : forall x y, cmp y x = CompOpp (cmp x y);
  cmp_lt_trans : forall x y z, cmp x y = Lt -> cmp y z = Lt -> cmp x z = Lt
}.

Arguments cmp_eq {K} cmp {_} x y.
Arguments cmp_opp {K} cmp {_} x y.
Arguments cmp_lt_trans {K} cmp {_} x y z _ _.

Definition cmp_leb (c : comparison) : bool :=
  match c with Gt => false | _ => true end.

Definition opt_cmp {K : Type} (cmp : K -> K -> comparison)
  (x y : option K) : comparison :=
  match x, y with
  | Some a, Some b => cmp a b
  | Some _, None => Lt
  | None, Some _ => Gt
  | None, None => Eq
  end.

Definition lex_cmp {K1 K2 : Type} (c1 : K1 -> K1 -> comparison)
  (c2 : K2 -> K2 -> comparison) (x y : K1 * K2) : comparison :=
  match c1 (fst x) (fst y) with
  | Eq => c2 (snd x) (snd y)
  | c => c
  end.

Definition date_tuple (d : date) : nat * (nat * nat) :=
  (year d, (month d, day d)).

Definition time_tuple (t : time) : nat * (nat * (nat * nat)) :=
  (hour t, (minute t, (second t, microsecond t))).

Definition date_cmp : nat * (nat * nat) -> nat * (nat * nat) -> comparison :=
  lex_cmp Nat.compare (lex_cmp Nat.compare Nat.compare).

Definition time_cmp :
  nat * (nat * (nat * nat)) -> nat * (nat * (nat * nat)) -> comparison :=
  lex_cmp Nat.compare (lex_cmp Nat.compare (lex_cmp Nat.compare Nat.compare)).

(** ** A stable sort

    [sort_values] on several columns is a stable (lexsort) sort.  The model
    is the insertion sort that places a row before the rows of the sorted
    tail that compare equal to it, so rows with equal keys keep their input
    order. *)

Section StableSort.
Context {A K : Type} (key : A -> K) (cmp : K -> K -> comparison).

Definition row_leb (x y : A) : bool := cmp_leb (cmp (key x) (key y)).

Fixpoint insert (x : A) (l : list A) : list A :=
  match l with
  | [] => [x]
  | y :: l' => if row_leb x y then x :: l else y :: insert x l'
  end.

Fixpoint stable_sort (l : list A) : list A :=
  match l with
  | [] => []
  | x :: l' => insert x (stable_sort l')
  end.

Definition sorted_by (l : list A) : Prop :=
  StronglySorted (fun x y => row_leb x y = true) l.

(** [drop_duplicates(subset=key, keep='first')] *)
Fixpoint drop_duplicates_by (eqb : K -> K -> bool) (seen : list K)
  (l : list A) : list A :=
  match l with
  | [] => []
  | x :: l' =>
      if existsb (eqb (key x)) seen
      then drop_duplicates_by eqb seen l'
      else x :: drop_duplicates_by eqb (key x :: seen) l'
  end.
End StableSort.

(** ** The external tables and constants *)

(** A row of the canonical-name file: its [Location] and [Cleaned Name]
    cells. *)
Definition NameTable := list (option string * option string).

Definition o_umlaut : string :=
  String (ascii_of_nat 195) (String (ascii_of_nat 182) EmptyString).

Definition u_umlaut : string :=
  String (ascii_of_nat 195) (String (ascii_of_nat 188) EmptyString).

(** [custom_order] of [process_deliverect_remove_duplicates]. *)
Definition custom_order : list (string * nat) :=
  [("Delivered", 0); ("Auto Finalized", 1); ("In Delivery", 2);
   ("Ready For Pickup", 3); ("Prepared", 4); ("Preparing", 5); ("Accepted", 6);
   ("Deliverect Parsed", 7); ("New", 8); ("Scheduled", 9); ("Cancel", 10);
   ("Canceled", 11); ("Failed Resolved", 12); ("Failed", 13);
   ("Delivery Cancelled", 14); ("Manual Retry", 15); ("Failed Cancel", 16)]%nat.

Definition categories : list string := map fst custom_order.

Fixpoint index_of (s : string) (l : list string) : option nat :=
  match l with
  | [] => None
  | x :: l' => if String.eqb s x then Some O
               else option_map S (index_of s l')
  end.

(** The code of a cell in [pd.Categorical(..., categories=custom_order.keys(),
    ordered=True)]: its position among the categories, missing for a value
    that is no category. *)
Definition category_code (s : option string) : option nat :=
  match s with
  | Some x => index_of x categories
  | None => None
  end.

(** The cell itself after the conversion: a value that is no category
    becomes missing. *)
Definition to_categorical (s : option string) : option string :=
  match category_code s with
  | Some _ => s
  | None => None
  end.

(** ** Left merge

    [pd.merge(left, right, how='left')], one left row at a time: one
    output per matching right row, in the order of [right]; a single
    output with missing right-hand cells when nothing matches.  Missing
    keys match each other. *)
Definition merge_left {R B : Type} (matches : R -> bool) (right : list R)
  (hit : R -> B) (miss : B) : list B :=
  match filter matches right with
  | [] => [miss]
  | ms => map hit ms
  end.

Definition notna {T : Type} (x : option T) : bool :=
  match x with Some _ => true | None => false end.

(** ** Sort keys *)

Definition dedup_key (r : Row) : option string * option nat :=
  (PrimaryKey r, category_code (OrderStatus r)).

Definition dedup_cmp : option string * option nat ->
                       option string * option nat -> comparison :=
  lex_cmp (opt_cmp String.compare) (opt_cmp Nat.compare).

Definition FinalKey : Type :=
  option (nat * (nat * nat)) *
  (option (nat * (nat * (nat * nat))) * option string).

Definition final_key (r : Row) : FinalKey :=
  (option_map date_tuple (OrderPlacedDate r),
   (option_map time_tuple (OrderPlacedTime r), PrimaryKey r)).

Definition final_cmp : FinalKey -> FinalKey -> comparison :=
  lex_cmp (opt_cmp date_cmp)
    (lex_cmp (opt_cmp time_cmp) (opt_cmp String.compare)).

(** ** Arithmetic on monetary cells *)

Definition Qltb (x y : Q) : bool :=
  if Qlt_le_dec x y then true else false.

Definition tolerance : Q := 1 # 1000.

Definition Qsum (l : list Q) : Q := fold_left Qplus l 0.

(** A row of [consolidated_df]. *)
Record Consolidated := mkConsolidated {
  cPrimaryKey : string;
  cTotalPrice : Q;
  cGrossAOV : Q
}.

(** ** The pipeline *)

Section Pipeline.
(** The canonical-name file read by [clean_location_names], and the
    [latin-1]/[utf-8] round trip applied to product names; both are
    collaborators of the pipeline. *)
Variable cleaned_names : NameTable.
Variable repair_encoding : string -> string.

Definition normalise_umlauts (s : string) : string :=
  PyStr.replace u_umlaut "u" (PyStr.replace o_umlaut "o" s).

Definition clean_location_names (df : DataFrame) : DataFrame :=
  let df := map (fun r =>
    set_Location (str_map normalise_umlauts (Location r)) r) df in
  flat_map (fun r =>
    merge_left (fun e => ostr_eqb (Location r) (fst e)) cleaned_names
      (fun e => set_Location (snd e) r)
      (set_Location None r)) df.

Definition astype_str (x : option string) : string :=
  match x with Some s => s | None => "nan" end.

(** Line 28: the text before the first comma of a multi-valued brand. *)
Definition primary_brand (x : option string) : option string :=
  match x with
  | Some s => if PyStr.has_char "," s
              then Some (PyStr.before_first "," s) else Some s
  | None => None
  end.

(** Line 32: a missing brand is inferred from the location. *)
Definition infer_brand (r : Row) : option string :=
  match Brand r with
  | None =>
      Some (if truthy (str_icontains "beast" (Location r))
            then "Birria & the Beast" else "Birdie Birdie")
  | Some b => Some b
  end.

(** Line 35: the two-value collapse. *)
Definition collapse_brand (b : option string) : option string :=
  Some (if truthy (str_icontains "beast" b) then "Birria" else "Birdie").

Definition normalise_brand (df : DataFrame) : DataFrame :=
  let df := map (fun r => set_Brand (primary_brand (Brand r)) r) df in
  let df := map (fun r => set_Brand (infer_brand r) r) df in
  map (fun r => set_Brand (collapse_brand (Brand r)) r) df.

Definition first_brand_word (b : option string) : option string :=
  match b with Some s => PyStr.first_word s | None => None end.

Definition build_primary_key (r : Row) : option string :=
  str_add (str_add (str_add (str_add (OrderID r) (Some " - ")) (Location r))
                   (Some " - "))
          (Some (date_astype_str (OrderPlacedDate r))).

Definition process_deliverect_shared_data (df : DataFrame) : DataFrame :=
  let df := map (fun r =>
    set_OrderID (Some ("#" ++ astype_str (OrderID r))%string) r) df in
  let df := normalise_brand df in
  let df := clean_location_names df in
  let df := map (fun r =>
    set_LocWithBrand
      (str_add (str_add (Location r) (Some " - "))
               (first_brand_word (Brand r))) r) df in
  let df := map (fun r =>
    set_Channel
      (str_map (PyStr.replace "TakeAway Com" "Lieferando") (Channel r)) r) df in
  let df := map (fun r =>
    set_OrderStatus
      (str_map (fun s => PyStr.title (PyStr.replace "_" " " s))
               (OrderStatus r)) r) df in
  let df := filter (fun r =>
    negb (ostr_eqb (OrderStatus r) (Some "Duplicate"))) df in
  map (fun r => set_PrimaryKey (build_primary_key r) r) df.

Definition product_name_fixes : list (string * string) :=
  [("Stck", "Stack"); ("Kse", "Cheese"); ("HOT HOT HOT", "Hot");
   (" Hot Hot Hot", "Hot"); ("Mayonnaise, 17ml", "Mayonnaise 17ml");
   ("Mayo, 50ml", "Mayo 50ml"); ("Sauce, 50ml", "Sauce 50ml");
   ("Cola 0,5l", "Cola 0.5l"); ("Salsa, 30ml", "Salsa 30ml");
   ("Italien,", "Italien")].

Definition clean_deliverect_product_name (df : DataFrame) : DataFrame :=
  map (fun r =>
    let name := match ProductName r with Some s => s | None => "" end in
    let name := repair_encoding name in
    set_ProductName
      (Some (fold_left (fun s p => PyStr.replace (fst p) (snd p) s)
                       product_name_fixes name)) r) df.

Definition process_deliverect_remove_duplicates (df : DataFrame) : DataFrame :=
  let df := map (fun r =>
    set_OrderStatus (to_categorical (OrderStatus r)) r) df in
  let df := stable_sort dedup_key dedup_cmp df in
  let df := drop_duplicates_by PrimaryKey ostr_eqb [] df in
  filter (fun r => negb (ostr_eqb (OrderID r) (Some "#nan"))) df.

(** The order-level loader on the stacked rows of the order files.  The
    courier and schedule time columns it derives afterwards, and the
    column selection, touch no column of the model. *)
Definition load_deliverect_order_data (orders : DataFrame) : DataFrame :=
  let df := process_deliverect_shared_data orders in
  let df := clean_deliverect_product_name df in
  process_deliverect_remove_duplicates df.

(** Lines 240-251: the merge with the de-duplicated orders and the
    [TempColumn] filter. *)
Definition merge_with_orders (clean_df : list (option string * option string))
  (df : DataFrame) : list (Row * option string) :=
  flat_map (fun r =>
    merge_left
      (fun e => ostr_eqb (PrimaryKey r) (fst e)
                && ostr_eqb (OrderStatus r) (snd e))
      clean_df
      (fun _ => (r, Some "Orders"))
      (r, None)) df.

Definition filter_stage (order_df df : DataFrame) : DataFrame :=
  let clean_df := map (fun o => (PrimaryKey o, OrderStatus o)) order_df in
  let merged := merge_with_orders clean_df df in
  map fst (filter (fun p => notna (snd p)) merged).

(** Lines 254 and 279.  The two label columns of lines 255-256 are dropped
    again by the column selection of line 270; they matter only when
    line 255 raises, which [merge_lines_raise] stands for. *)
Definition price_stage (df : DataFrame) : DataFrame :=
  let df := map (fun r => set_ItemPrice (ItemPrice r / 100) r) df in
  map (fun r =>
    set_TotalPrice (ItemPrice r * inject_Z (ItemQuantities r)) r) df.

Definition group_of (k : string) (df : DataFrame) : DataFrame :=
  filter (fun r => ostr_eqb (PrimaryKey r) (Some k)) df.

(** The group labels of [groupby('PrimaryKey')]: the distinct non-missing
    keys, ascending. *)
Definition group_keys (df : DataFrame) : list string :=
  let keys := flat_map (fun r =>
    match PrimaryKey r with Some k => [k] | None => [] end) df in
  stable_sort (fun k => k) String.compare (nodup string_dec keys).

Definition first_total_order_amount (series : list Q) : option Q :=
  hd_error series.

(** Lines 290-291. *)
Definition consolidate (df : DataFrame) : list Consolidated :=
  flat_map (fun k =>
    let g := group_of k df in
    match first_total_order_amount (map GrossAOV g) with
    | Some aov => [mkConsolidated k (Qsum (map TotalPrice g)) aov]
    | None => []
    end) (group_keys df).

(** Lines 294-295. *)
Definition Check (row : Consolidated) : bool :=
  Qltb (Qabs (cGrossAOV row - cTotalPrice row)) tolerance.

(** Lines 305-319. *)
Definition new_record (row : Consolidated) (matching_row : Row) : Row :=
  mkRow (Some (cPrimaryKey row))
    (OrderID matching_row) (Location matching_row)
    (LocWithBrand matching_row) (Brand matching_row)
    (DeliveryType matching_row) (Channel matching_row)
    (OrderPlacedDate matching_row) (OrderPlacedTime matching_row)
    (OrderStatus matching_row) (PaymentType matching_row)
    (GrossAOV matching_row) (PromotionsOnItems matching_row)
    (DeliveryCost matching_row) (Tip matching_row)
    (TotalOrderAmount matching_row) (IsTestOrder matching_row)
    (Some "x-xx-xxx-x") (Some "Balancing Item")
    (cGrossAOV row - cTotalPrice row) 1
    (cGrossAOV row - cTotalPrice row).

(** Lines 298-321. *)
Definition new_records (df : DataFrame) : DataFrame :=
  flat_map (fun row =>
    match group_of (cPrimaryKey row) df with
    | matching_row :: _ => [new_record row matching_row]
    | [] => []
    end) (filter (fun row => negb (Check row)) (consolidate df)).

(** Lines 281-324. *)
Definition balance (df : DataFrame) : DataFrame := df ++ new_records df.

(** Lines 326-330. *)
Definition final_sort (df : DataFrame) : DataFrame :=
  stable_sort final_key final_cmp df.

Definition reconcile (df : DataFrame) : DataFrame :=
  final_sort (balance df).

(** The item-level loader on the stacked rows of the order files and of
    the item files. *)
Definition load_deliverect_item_level_detail_data
  (orders items : DataFrame) : DataFrame :=
  let df := process_deliverect_shared_data items in
  let df := clean_deliverect_product_name df in
  let df := filter_stage (load_deliverect_order_data orders) df in
  reconcile (price_stage df).

End Pipeline.

(** ** Vocabulary of the statements *)

(** The label the collapse gives to a text. *)
Definition beast_label (s : string) : option string :=
  Some (if PyStr.icontains "beast" s then "Birria" else "Birdie").

(** The part of a brand cell the collapse looks at: the text before its
    first comma. *)
Definition brand_text (b : string) : string :=
  if PyStr.has_char "," b then PyStr.before_first "," b else b.

(** The location a row is looked up under in the canonical-name file. *)
Definition lookup_location (r : Row) : option string :=
  str_map normalise_umlauts (Location r).


(** The rows of a frame that carry a given key cell; a missing key is a
    key cell like any other here, as it is for [drop_duplicates]. *)
Definition with_key (k : option string) (df : DataFrame) : DataFrame :=
  filter (fun r => ostr_eqb (PrimaryKey r) k) df.

(** A row as the de-duplicator returns it: its status is a cell of the
    categorical column. *)
Definition as_categorical (r : Row) : Row :=
  set_OrderStatus (to_categorical (OrderStatus r)) r.

Definition has_nan_id (r : Row) : bool := ostr_eqb (OrderID r) (Some "#nan").

(** Comparison of two rows by the rank of their status; a status outside
    the table has no rank and comes last. *)
Definition rank_cmp (x y : Row) : comparison :=
  opt_cmp Nat.compare (category_code (OrderStatus x))
                      (category_code (OrderStatus y)).

(** The first of the least rows of a list. *)
Fixpoint first_best {A : Type} (leb : A -> A -> bool) (l : list A) : option A :=
  match l with
  | [] => None
  | x :: l' =>
      Some (match first_best leb l' with
            | None => x
            | Some y => if leb x y then x else y
            end)
  end.

(** An item row has a counterpart when some row of the de-duplicated order
    frame has the same (PrimaryKey, OrderStatus) pair of cells. *)
Definition has_counterpart (order_df : DataFrame) (r : Row) : bool :=
  existsb (fun o => ostr_eqb (PrimaryKey r) (PrimaryKey o)
                    && ostr_eqb (OrderStatus r) (OrderStatus o)) order_df.

(** Lines 254 and 279 on one row. *)
Definition price_row (r : Row) : Row :=
  let r := set_ItemPrice (ItemPrice r / 100) r in
  set_TotalPrice (ItemPrice r * inject_Z (ItemQuantities r)) r.

Definition group_total (k : string) (df : DataFrame) : Q :=
  Qsum (map TotalPrice (group_of k df)).

(** The balancing record of one group, if it needs one. *)
Definition balancing_for (k : string) (df : DataFrame) : DataFrame :=
  match group_of k df with
  | [] => []
  | r0 :: _ =>
      let row := mkConsolidated k (group_total k df) (GrossAOV r0) in
      if Check row then [] else [new_record row r0]
  end.

(** The rows of every group carry one GrossAOV. *)
Definition uniform_aov (df : DataFrame) : Prop :=
  forall k r r',
    In r (group_of k df) -> In r' (group_of k df) -> GrossAOV r = GrossAOV r'.

(** Two rows fall on the same place of the final order. *)
Definition same_slot (x y : Row) : bool :=
  match final_cmp (final_key x) (final_key y) with Eq => true | _ => false end.




(** ** The amounts in binary64

    The four operations the item loader performs on amounts are binary64
    operations: the division of line 254, the product of line 279, the
    group sum of lines 290-291 and the difference of lines 294 and
    310-311.  Read a cell of a [Row] as the exact value of its binary64
    number; an [Arithmetic] gives the value each operation returns on such
    values, with whatever rounding it makes (and, for the sum, in whatever
    order and by whatever scheme pandas adds).  The stages of the item
    loader are stated again over an arbitrary [Arithmetic]; with
    [exact_arithmetic] they are the stages above.  The comparison of line
    295 needs no parameter: no binary64 number lies between 1/1000 and
    the binary64 number written [0.001], so [abs(x) < 0.001] holds of a
    binary64 [x] exactly when its value is below 1/1000. *)
Record Arithmetic := mkArithmetic {
  divide_by_100 : Q -> Q;
  times_quantity : Q -> Z -> Q;
  group_sum : list Q -> Q;
  minus : Q -> Q -> Q
}.

Definition exact_arithmetic : Arithmetic :=
  mkArithmetic (fun x => x / 100) (fun x q => x * inject_Z q) Qsum Qminus.

Section Binary64Stages.
Variable a : Arithmetic.

(** Lines 254 and 279. *)
Definition price_stage_with (df : DataFrame) : DataFrame :=
  let df := map (fun r =>
    set_ItemPrice (divide_by_100 a (ItemPrice r)) r) df in
  map (fun r =>
    set_TotalPrice (times_quantity a (ItemPrice r) (ItemQuantities r)) r) df.

(** Lines 290-291. *)
Definition consolidate_with (df : DataFrame) : list Consolidated :=
  flat_map (fun k =>
    let g := group_of k df in
    match first_total_order_amount (map GrossAOV g) with
    | Some aov => [mkConsolidated k (group_sum a (map TotalPrice g)) aov]
    | None => []
    end) (group_keys df).

(** Lines 294-295. *)
Definition Check_with (row : Consolidated) : bool :=
  Qltb (Qabs (minus a (cGrossAOV row) (cTotalPrice row))) tolerance.

(** Lines 305-319. *)
Definition new_record_with (row : Consolidated) (matching_row : Row) : Row :=
  mkRow (Some (cPrimaryKey row))
    (OrderID matching_row) (Location matching_row)
    (LocWithBrand matching_row) (Brand matching_row)
    (DeliveryType matching_row) (Channel matching_row)
    (OrderPlacedDate matching_row) (OrderPlacedTime matching_row)
    (OrderStatus matching_row) (PaymentType matching_row)
    (GrossAOV matching_row) (PromotionsOnItems matching_row)
    (DeliveryCost matching_row) (Tip matching_row)
    (TotalOrderAmount matching_row) (IsTestOrder matching_row)
    (Some "x-xx-xxx-x") (Some "Balancing Item")
    (minus a (cGrossAOV row) (cTotalPrice row)) 1
    (minus a (cGrossAOV row) (cTotalPrice row)).

(** Lines 298-321. *)
Definition new_records_with (df : DataFrame) : DataFrame :=
  flat_map (fun row =>
    match group_of (cPrimaryKey row) df with
    | matching_row :: _ => [new_record_with row matching_row]
    | [] => []
    end) (filter (fun row => negb (Check_with row)) (consolidate_with df)).

(** Lines 281-330. *)
Definition reconcile_with (df : DataFrame) : DataFrame :=
  final_sort (df ++ new_records_with df).

(** The value pandas computes for the sum of a group. *)
Definition computed_total (k : string) (df : DataFrame) : Q :=
  group_sum a (map TotalPrice (group_of k df)).

(** The balancing record of one group, if it needs one. *)
Definition balancing_for_with (k : string) (df : DataFrame) : DataFrame :=
  match group_of k df with
  | [] => []
  | r0 :: _ =>
      let row := mkConsolidated k (computed_total k df) (GrossAOV r0) in
      if Check_with row then [] else [new_record_with row r0]
  end.

(** Every group of the frame passes the reconciliation check. *)
Definition balanced_with (df : DataFrame) : Prop :=
  forall k r0 rest,
    group_of k df = r0 :: rest ->
    Qabs (minus a (GrossAOV r0) (computed_total k df)) < tolerance.

(** The rounding errors of the two operations behind the check of one
    group: of the group sum, and of the difference between a GrossAOV and
    the computed sum. *)
Definition sum_error (k : string) (df : DataFrame) : Q :=
  Qabs (computed_total k df - group_total k df).

Definition difference_error (gross_aov : Q) (k : string) (df : DataFrame) : Q :=
  Qabs (minus a gross_aov (computed_total k df)
        - (gross_aov - computed_total k df)).

(** The two operations are exact on every group of the frame. *)
Definition exact_on (df : DataFrame) : Prop :=
  forall k r0 rest,
    group_of k df = r0 :: rest ->
    sum_error k df == 0 /\ difference_error (GrossAOV r0) k df == 0.

(** The computed sum of a group does not depend on the order of its
    rows. *)
Definition sum_order_free : Prop :=
  forall l1 l2 : list Q, Permutation l1 l2 -> group_sum a l1 = group_sum a l2.
End Binary64Stages.

(** The frame that enters the balancing stage, and the item-level loader,
    over an [Arithmetic]. *)
Definition survivors_with (a : Arithmetic) (cleaned_names : NameTable)
  (repair_encoding : string -> string) (orders items : DataFrame) : DataFrame :=
  price_stage_with a
    (filter_stage
       (load_deliverect_order_data cleaned_names repair_encoding orders)
       (clean_deliverect_product_name repair_encoding
          (process_deliverect_shared_data cleaned_names items))).

Definition item_loader_with (a : Arithmetic) (cleaned_names : NameTable)
  (repair_encoding : string -> string) (orders items : DataFrame) : DataFrame :=
  reconcile_with a (survivors_with a cleaned_names repair_encoding orders items).

(** Lines 254 and 279 on one row. *)
Definition price_row_with (a : Arithmetic) (r : Row) : Row :=
  let r := set_ItemPrice (divide_by_100 a (ItemPrice r)) r in
  set_TotalPrice (times_quantity a (ItemPrice r) (ItemQuantities r)) r.

(** ** Sample data *)

Definition sample_date : option date := Some (mkDate 2023 1 5).
Definition sample_noon : option time := Some (mkTime 12 0 0 0).

(** A raw row of either feed, before any normalisation. *)
Definition raw_row (oid loc brand status : option string)
  (aov price : Q) (qty : Z) : Row :=
  mkRow None oid loc None brand None None sample_date sample_noon status None
        aov 0 0 0 0 false None None price qty 0.

(** A row as the shared normalisation leaves it. *)
Definition keyed_row (pk oid status : option string) (t : option time)
  (name : option string) (aov price total : Q) (qty : Z) : Row :=
  mkRow pk oid (Some "Berlin") (Some "Berlin - Birdie") (Some "Birdie") None
        None sample_date t status None aov 0 0 0 0 false None name
        price qty total.

Definition sample_names : NameTable :=
  [(Some "Koln", Some "Cologne"); (Some "Berlin Mitte", Some "Berlin")].

Definition no_repair (s : string) : string := s.

(** An order row without order id, as read from a file. *)
Definition raw_order_without_id : Row :=
  raw_row None (Some "Berlin Mitte") None (Some "DELIVERED") 10 0 0.

Definition order_A_new : Row :=
  keyed_row (Some "#7 - Berlin - 2023-01-05") (Some "#7") (Some "New")
            sample_noon None 10 0 0 0.

Definition order_A_delivered : Row :=
  keyed_row (Some "#7 - Berlin - 2023-01-05") (Some "#7") (Some "Delivered")
            sample_noon None 10 0 0 0.

Definition order_B_cancelled : Row :=
  keyed_row (Some "#8 - Berlin - 2023-01-05") (Some "#8") (Some "Cancelled")
            sample_noon None 10 0 0 0.

Definition nan_cancelled : Row :=
  keyed_row (Some "#nan - Berlin - 2023-01-05") (Some "#nan")
            (Some "Cancelled") sample_noon None 10 0 0 0.

Definition nan_delivered : Row :=
  keyed_row (Some "#nan - Berlin - 2023-01-05") (Some "#nan")
            (Some "Delivered") sample_noon None 10 0 0 0.

(** A multi-valued brand cell whose second value names the beast. *)
Definition two_brands : string := "Birdie Birdie,Birria & the Beast".

Definition two_brand_row : Row :=
  raw_row (Some "1") (Some "Berlin Mitte") (Some two_brands)
          (Some "DELIVERED") 10 0 0.

(** A location written with an umlaut, listed in the name file without. *)
Definition koeln : string := ("K" ++ o_umlaut ++ "ln")%string.

Definition koeln_row : Row :=
  raw_row (Some "1") (Some koeln) None (Some "DELIVERED") 10 0 0.

Definition nowhere_row : Row :=
  raw_row (Some "2") (Some "Nowhere") None (Some "NEW") 10 0 0.

(** The scenario of the specification: two item rows of key "A", unit
    prices 500 and 300 minor units, quantities 2 and 1, GrossAOV 10.00. *)
Definition scenario_items : DataFrame :=
  [keyed_row (Some "A") (Some "#1") (Some "Delivered") sample_noon
             (Some "Burger") 10 500 0 2;
   keyed_row (Some "A") (Some "#1") (Some "Delivered") sample_noon
             (Some "Fries") 10 300 0 1].

Definition scenario_frame : DataFrame := price_stage scenario_items.

(** A raw item row and the raw order row of the same order. *)
Definition raw_item (oid status name : option string) (aov price : Q)
  (qty : Z) : Row :=
  mkRow None oid (Some "Berlin Mitte") None None None None sample_date
        sample_noon status None aov 0 0 0 0 false None name price qty 0.

Definition order_1 : Row :=
  raw_row (Some "1") (Some "Berlin Mitte") None (Some "DELIVERED") 10 0 0.

Definition burger : Row :=
  raw_item (Some "1") (Some "DELIVERED") (Some "Burger") 12 500 2.

Definition fries : Row :=
  raw_item (Some "1") (Some "DELIVERED") (Some "Fries") 15 300 1.

Definition cancelled_cola : Row :=
  raw_item (Some "1") (Some "CANCELED") (Some "Cola") 10 250 1.

(** An item row of the same order that reports another GrossAOV and was
    placed an hour earlier. *)
Definition sample_eleven : option time := Some (mkTime 11 0 0 0).

Definition early_fries : Row :=
  mkRow None (Some "1") (Some "Berlin Mitte") None None None None sample_date
        sample_eleven (Some "DELIVERED") None 15 0 0 0 0 false None
        (Some "Fries") 300 1 0.

(** Two item rows of one order whose totals add up to its GrossAOV. *)
Definition wrap : Row :=
  raw_item (Some "1") (Some "DELIVERED") (Some "Wrap") 10 700 1.


(** ** Code that can raise *)

Inductive Raised : Type :=
  | ValueError | KeyError | OverflowError | AttributeError | TypeError.

(** ** [functions/shared_functions.py] *)

(** [s.split(sep)] for a non-empty [sep]: the current part and the parts
    after it. *)
Fixpoint split_from (sep : string) (skip : nat) (s : string)
  : string * list string :=
  match s with
  | EmptyString => (EmptyString, [])
  | String c s' =>
      match skip with
      | S k => split_from sep k s'
      | O =>
          if String.prefix sep s
          then let (p, ps) := split_from sep (String.length sep - 1) s' in
               (EmptyString, p :: ps)
          else let (p, ps) := split_from sep O s' in (String c p, ps)
      end
  end.

Definition split (sep s : string) : list string :=
  let (p, ps) := split_from sep 0 s in p :: ps.

Definition is_digit (c : ascii) : bool :=
  let n := nat_of_ascii c in (48 <=? n)%nat && (n <=? 57)%nat.

(** The digits of [int(s)]: at least one digit, single underscores
    between digits only. *)
Fixpoint int_digits (acc : Z) (after_digit : bool) (s : string) : option Z :=
  match s with
  | EmptyString => if after_digit then Some acc else None
  | String c s' =>
      if is_digit c
      then int_digits (10 * acc + Z.of_nat (nat_of_ascii c - 48)) true s'
      else if Ascii.eqb c "_"
           then (if after_digit then int_digits acc false s' else None)
           else None
  end.

(** White space for [int] on ASCII text: tab, line feed, vertical tab,
    form feed, carriage return and space.  (The separators 28-31, which
    [str.strip] removes, are refused by [int].) *)
Definition is_c_space (c : ascii) : bool :=
  let n := nat_of_ascii c in
  ((9 <=? n)%nat && (n <=? 13)%nat) || (n =? 32)%nat.

Fixpoint lstrip_c (s : string) : string :=
  match s with
  | EmptyString => EmptyString
  | String c s' => if is_c_space c then lstrip_c s' else s
  end.

Fixpoint rstrip_c (s : string) : string :=
  match s with
  | EmptyString => EmptyString
  | String c s' =>
      match rstrip_c s' with
      | EmptyString => if is_c_space c then EmptyString
                       else String c EmptyString
      | r => String c r
      end
  end.

Fixpoint count_digits (s : string) : nat :=
  match s with
  | EmptyString => O
  | String c s' => ((if is_digit c then 1 else 0) + count_digits s')%nat
  end.

(** The limit on conversions between [int] and [str]: a text or number
    of more than 640 digits is refused when it has more digits than
    [sys.get_int_max_str_digits()], which is 4300 unless set otherwise, and
    0 where there is no limit. *)
Definition exceeds_limit (max_str_digits len digits : nat) : bool :=
  (640 <? len)%nat && (0 <? max_str_digits)%nat
  && (max_str_digits <? digits)%nat.

(** [int(s)] for an ASCII text; [None] stands for its [ValueError].
    Leading zeros count as digits for the limit, underscores and the
    sign do not. *)
Definition py_int (max_str_digits : nat) (s : string) : option Z :=
  let parse body :=
    if exceeds_limit max_str_digits (count_digits body) (count_digits body)
    then None else int_digits 0 false body in
  match rstrip_c (lstrip_c s) with
  | String c s' =>
      if Ascii.eqb c "+" then parse s'
      else if Ascii.eqb c "-" then option_map Z.opp (parse s')
      else parse (String c s')
  | EmptyString => None
  end.

(** [str(n)] for an [int]. *)
Definition str_of_Z (n : Z) : string :=
  if (n <? 0)%Z then ("-" ++ PyStr.decimal (Z.to_nat (- n)))%string
  else PyStr.decimal (Z.to_nat n).

(** [f"{n}"] for an [int]; [None] stands for the [ValueError] of the
    limit. *)
Definition format_int (max_str_digits : nat) (n : Z) : option string :=
  let digits := String.length (PyStr.decimal (Z.abs_nat n)) in
  if exceeds_limit max_str_digits (String.length (str_of_Z n)) digits
  then None else Some (str_of_Z n).

(** Both [ValueError]s are caught by the [except] clause; a text that
    does not split in two raises the [ValueError] of the unpacking. *)
Definition convert_to_custom_format (max_str_digits : nat)
  (scientific_notation : string) : string :=
  match split "E+" scientific_notation with
  | [coefficient; exponent] =>
      let coefficient := PyStr.replace "." "" coefficient in
      match py_int max_str_digits exponent with
      | Some e =>
          let new_exponent := (e - 2)%Z in
          match format_int max_str_digits new_exponent with
          | Some t => (coefficient ++ "E" ++ t)%string
          | None => scientific_notation
          end
      | None => scientific_notation
      end
  | _ => scientific_notation
  end.

Fixpoint all_digits (s : string) : bool :=
  match s with
  | EmptyString => true
  | String c s' => is_digit c && all_digits s'
  end.

(** [int(x)] for a number: truncation towards zero. *)
Definition int_of_Q (x : Q) : Z := Z.quot (Qnum x) (Zpos (Qden x)).

(** [format(n, '02d')] *)
Definition format_02d (n : Z) : string :=
  if (n <? 0)%Z then ("-" ++ PyStr.decimal (Z.to_nat (- n)))%string
  else PyStr.zero_pad 2 (Z.to_nat n).

(** Binary64 numbers, with the operations of IEEE 754 as [SpecFloat]
    defines them. *)
Module Binary64.
Definition prec : Z := 53.
Definition emax : Z := 1024.

(** [float(z)] *)
Definition of_Z (z : Z) : spec_float := binary_normalize prec emax z 0 false.

Definition mul : spec_float -> spec_float -> spec_float := SFmul prec emax.
Definition div : spec_float -> spec_float -> spec_float := SFdiv prec emax.
Definition add : spec_float -> spec_float -> spec_float := SFadd prec emax.
Definition sub : spec_float -> spec_float -> spec_float := SFsub prec emax.

Definition is_nan (x : spec_float) : bool :=
  match x with S754_nan => true | _ => false end.

(** [int(x)]: truncation towards zero; an infinity raises
    [OverflowError], a NaN [ValueError]. *)
Definition to_int (x : spec_float) : Raised + Z :=
  match x with
  | S754_zero _ => inr 0%Z
  | S754_finite s m e =>
      let a := if (0 <=? e)%Z then (Zpos m * 2 ^ e)%Z
               else (Zpos m / 2 ^ (- e))%Z in
      inr (if s then (- a)%Z else a)
  | S754_infinity _ => inl OverflowError
  | S754_nan => inl ValueError
  end.
End Binary64.

(** ** The reconciliation check on binary64 cells

    The monetary cells of the frames are binary64 numbers, and a missing
    amount is a NaN.  The rows of the model carry exact amounts; these
    two definitions are lines 294-295 and 310-311 on the cells
    themselves, for the statements that show where the rounding and the
    NaN depart from the exact amounts. *)
Definition tolerance64 : spec_float :=
  Binary64.div (Binary64.of_Z 1) (Binary64.of_Z 1000).

Definition Check64 (gross_aov total_price : spec_float) : bool :=
  SFltb (SFabs (Binary64.sub gross_aov total_price)) tolerance64.

Definition balancing_amount64 (gross_aov total_price : spec_float)
  : spec_float :=
  Binary64.sub gross_aov total_price.

(** [dt.time(h, m, s)] accepts these values only. *)
Definition time_fields_ok (h m s : Z) : bool :=
  ((0 <=? h) && (h <=? 23) && (0 <=? m) && (m <=? 59)
   && (0 <=? s) && (s <=? 59))%Z.

(** An argument of [dt.time] has to fit a C [int]. *)
Definition fits_c_int (n : Z) : bool :=
  ((- 2 ^ 31 <=? n) && (n <=? 2 ^ 31 - 1))%Z.

(** [convert_time_format] on a float; a NaN is the missing value of
    [pd.notnull]. *)
Definition convert_time_format (time_decimal : spec_float) : Raised + string :=
  if Binary64.is_nan time_decimal then inr EmptyString
  else
    match Binary64.to_int
            (Binary64.mul time_decimal (Binary64.of_Z 60)) with
    | inl e => inl e
    | inr total_seconds =>
        let hours := (total_seconds / 3600)%Z in
        let minutes := ((total_seconds mod 3600) / 60)%Z in
        let seconds := (total_seconds mod 60)%Z in
        if negb (fits_c_int hours) then inl OverflowError
        else if time_fields_ok hours minutes seconds
        then inr (format_02d hours ++ ":" ++ format_02d minutes ++ ":"
                  ++ format_02d seconds)%string
        else inl ValueError
    end.

(** [divmod(x, y)] on numbers. *)
Definition divmod (x y : Q) : Q * Q :=
  let q := inject_Z (Qfloor (x / y)) in (q, x - q * y).

(** [format_timedelta] on the value of [td.total_seconds()]. *)
Definition format_timedelta (td : option Q) : string :=
  match td with
  | Some total_seconds =>
      let (hours, remainder) := divmod total_seconds 3600 in
      let (minutes, seconds) := divmod remainder 60 in
      (format_02d (int_of_Q hours) ++ ":" ++ format_02d (int_of_Q minutes)
       ++ ":" ++ format_02d (int_of_Q seconds))%string
  | None => EmptyString
  end.

(** A naive timestamp: the ordinal of its day ([date.toordinal()], day 1
    being Monday 0001-01-01) and its time of day. *)
Record Timestamp := mkTimestamp { day_ordinal : Z; time_of_day : time }.

Definition weekday (t : Timestamp) : Z := ((day_ordinal t + 6) mod 7)%Z.

Definition week_start (date : Timestamp) : Timestamp :=
  let days_since_monday := weekday date in
  mkTimestamp (day_ordinal date - days_since_monday) (time_of_day date).

(** ** File discovery (lines 93-121 and 189-216)

    A directory is the list of its file names, in listing order, each with
    the frame [pd.read_csv] reads from it. *)

Definition Directory := list (string * DataFrame).

Definition endswith (suffix s : string) : bool :=
  let n := String.length s in
  let m := String.length suffix in
  (m <=? n)%nat && String.eqb (String.substring (n - m) m s) suffix.

Definition is_order_file (file_name : string) : bool :=
  endswith ".csv" file_name && PyStr.contains "Orders" file_name.

Definition is_item_file (file_name : string) : bool :=
  endswith ".csv" file_name && PyStr.contains "Order Level Pricing" file_name.

(** The frames of the wanted files, stacked; [None] is the column-less
    [pd.DataFrame()] of the [else] branch. *)
Definition read_and_stack (wanted : string -> bool) (dir : Directory)
  : option DataFrame :=
  match filter (fun f => wanted (fst f)) dir with
  | [] => None
  | files => Some (concat (map snd files))
  end.

(** [df[[...]]]: selecting the columns of the feed from a frame without
    columns raises. *)
Definition select_columns (df : option DataFrame) : Raised + DataFrame :=
  match df with
  | Some rows => inr rows
  | None => inl KeyError
  end.

(** The lines of a loader between the column selection and the return
    run pandas operations that raise on frames the rows of the model do
    not tell apart: [.str] raises [AttributeError] on a column that
    [read_csv] has read as numbers or without any text, line 255 raises
    [TypeError] on a numeric [ProductPLU] column, [pd.to_datetime] raises
    on a text that is no date.  The loaders take as parameters the
    exception, if any, that each stretch of lines raises on a frame. *)
Section Loaders.
Variable cleaned_names : NameTable.
Variable repair_encoding : string -> string.
(** Lines 122-185 on the selected order frame. *)
Variable order_lines_raise : DataFrame -> option Raised.
(** Lines 217-236 on the selected item frame. *)
Variable item_lines_raise : DataFrame -> option Raised.
(** Lines 241-333 on the de-duplicated orders and the item rows. *)
Variable merge_lines_raise : DataFrame -> DataFrame -> option Raised.

(** [load_deliverect_order_data()] from the directory. *)
Definition load_deliverect_order_files (order_dir : Directory)
  : Raised + DataFrame :=
  match select_columns (read_and_stack is_order_file order_dir) with
  | inr df =>
      match order_lines_raise df with
      | Some e => inl e
      | None =>
          inr (load_deliverect_order_data cleaned_names repair_encoding df)
      end
  | inl e => inl e
  end.

(** [load_deliverect_item_level_detail_data()] from the two directories. *)
Definition load_deliverect_item_files (order_dir item_dir : Directory)
  : Raised + DataFrame :=
  match select_columns (read_and_stack is_item_file item_dir) with
  | inr items =>
      match item_lines_raise items with
      | Some e => inl e
      | None =>
          let df := process_deliverect_shared_data cleaned_names items in
          let df := clean_deliverect_product_name repair_encoding df in
          match load_deliverect_order_files order_dir with
          | inr clean_df =>
              match merge_lines_raise clean_df df with
              | Some e => inl e
              | None => inr (reconcile (price_stage (filter_stage clean_df df)))
              end
          | inl e => inl e
          end
      end
  | inl e => inl e
  end.
End Loaders.

(** The entries of the name file under which a row is looked up. *)
Definition entries_for (cleaned_names : NameTable) (r : Row)
  : list (option string * option string) :=
  filter (fun e => ostr_eqb (lookup_location r) (fst e)) cleaned_names.

(** The cleaned name a row gets when the name file lists it once. *)
Definition cleaned_name (cleaned_names : NameTable) (r : Row) : option string :=
  match entries_for cleaned_names r with
  | e :: _ => snd e
  | [] => None
  end.

Definition is_letter (c : ascii) : bool := PyStr.is_upper c || PyStr.is_lower c.

(** [s.isascii()]: every byte of the text is below 128.  On such texts
    [PyStr.lower], [PyStr.title] and the case-insensitive search are the
    methods of [str]; a letter outside ASCII is left to the statements
    that need it as a hypothesis. *)
Fixpoint is_ascii (s : string) : bool :=
  match s with
  | EmptyString => true
  | String c s' => (nat_of_ascii c <? 128)%nat && is_ascii s'
  end.

(** The status normalisation of line 45. *)
Definition normalise_status (s : string) : string :=
  PyStr.title (PyStr.replace "_" " " s).

(** * Properties *)

(** ** The comparisons are strict total orders *)

Section CmpFacts.
Context {K : Type} (cmp : K -> K -> comparison) `{HC : !StrictCmp cmp}.

Lemma cmp_refl (x : K) : cmp x x = Eq.
Proof. apply (cmp_eq cmp); reflexivity. Qed.

Lemma cmp_gt_lt (x y : K) : cmp x y = Gt <-> cmp y x = Lt.
Proof.
  rewrite (cmp_opp cmp x y). destruct (cmp x y); simpl; split; congruence.
Qed.

Lemma cmp_leb_total (x y : K) :
  cmp_leb (cmp x y) = true \/ cmp_leb (cmp y x) = true.
Proof.
  rewrite (cmp_opp cmp x y). destruct (cmp x y); simpl; auto.
Qed.

Lemma cmp_leb_trans (x y z : K) :
  cmp_leb (cmp x y) = true -> cmp_leb (cmp y z) = true ->
  cmp_leb (cmp x z) = true.
Proof.
  intros Hxy Hyz.
  destruct (cmp x y) eqn:Exy; try discriminate.
  - apply (cmp_eq cmp) in Exy. subst. exact Hyz.
  - destruct (cmp y z) eqn:Eyz; try discriminate.
    + apply (cmp_eq cmp) in Eyz. subst. rewrite Exy. reflexivity.
    + rewrite (cmp_lt_trans cmp x y z Exy Eyz). reflexivity.
Qed.

End CmpFacts.

#[export] Instance nat_StrictCmp : StrictCmp Nat.compare.
Proof.
  split.
  - intros x y. apply Nat.compare_eq_iff.
  - intros x y. apply Nat.compare_antisym.
  - intros x y z. rewrite !Nat.compare_lt_iff. lia.
Qed.

Lemma ascii_compare_refl (a : ascii) : Ascii.compare a a = Eq.
Proof. unfold Ascii.compare. apply N.compare_refl. Qed.

Lemma ascii_compare_lt_trans (a b c : ascii) :
  Ascii.compare a b = Lt -> Ascii.compare b c = Lt -> Ascii.compare a c = Lt.
Proof. unfold Ascii.compare. rewrite !N.compare_lt_iff. lia. Qed.

Lemma string_compare_refl (s : string) : String.compare s s = Eq.
Proof.
  induction s as [|a s IH]; simpl; [reflexivity|].
  rewrite ascii_compare_refl. exact IH.
Qed.

Lemma string_compare_lt_trans (x y z : string) :
  String.compare x y = Lt -> String.compare y z = Lt -> String.compare x z = Lt.
Proof.
  revert y z. induction x as [|a x IH]; intros [|b y] [|c z]; simpl;
    try congruence.
  destruct (Ascii.compare a b) eqn:Eab; try discriminate;
    destruct (Ascii.compare b c) eqn:Ebc; try discriminate; intros Hxy Hyz.
  - apply Ascii.compare_eq_iff in Eab, Ebc. subst.
    rewrite ascii_compare_refl. eauto.
  - apply Ascii.compare_eq_iff in Eab. subst. rewrite Ebc. reflexivity.
  - apply Ascii.compare_eq_iff in Ebc. subst. rewrite Eab. reflexivity.
  - rewrite (ascii_compare_lt_trans a b c Eab Ebc). reflexivity.
Qed.

#[export] Instance string_StrictCmp : StrictCmp String.compare.
Proof.
  split.
  - intros x y. split.
    + apply String.compare_eq_iff.
    + intros ->. apply string_compare_refl.
  - intros x y. apply String.compare_antisym.
  - apply string_compare_lt_trans.
Qed.

#[export] Instance opt_StrictCmp {K : Type} (cmp : K -> K -> comparison)
  `{HC : !StrictCmp cmp} : StrictCmp (opt_cmp cmp).
Proof.
  split.
  - intros [x|] [y|]; simpl; try (split; congruence).
    rewrite (cmp_eq cmp x y). split; congruence.
  - intros [x|] [y|]; simpl; try reflexivity. apply (cmp_opp cmp).
  - intros [x|] [y|] [z|]; simpl; try congruence. apply (cmp_lt_trans cmp).
Qed.

#[export] Instance lex_StrictCmp {K1 K2 : Type}
  (c1 : K1 -> K1 -> comparison) (c2 : K2 -> K2 -> comparison)
  `{H1 : !StrictCmp c1} `{H2 : !StrictCmp c2} : StrictCmp (lex_cmp c1 c2).
Proof.
  split.
  - intros [x1 x2] [y1 y2]. unfold lex_cmp. simpl.
    destruct (c1 x1 y1) eqn:E1.
    + apply (cmp_eq c1) in E1. subst. rewrite (cmp_eq c2 x2 y2).
      split; [intros ->; reflexivity | congruence].
    + split; [discriminate|]. intros H. inversion H; subst.
      rewrite (cmp_refl c1) in E1. discriminate.
    + split; [discriminate|]. intros H. inversion H; subst.
      rewrite (cmp_refl c1) in E1. discriminate.
  - intros [x1 x2] [y1 y2]. unfold lex_cmp. simpl.
    rewrite (cmp_opp c1 x1 y1). destruct (c1 x1 y1); simpl; try reflexivity.
    apply (cmp_opp c2).
  - intros [x1 x2] [y1 y2] [z1 z2]. unfold lex_cmp. simpl.
    destruct (c1 x1 y1) eqn:E1; try discriminate;
      destruct (c1 y1 z1) eqn:E2; try discriminate; intros Hxy Hyz.
    + apply (cmp_eq c1) in E1, E2. subst. rewrite (cmp_refl c1).
      eapply (cmp_lt_trans c2); eauto.
    + apply (cmp_eq c1) in E1. subst. rewrite E2. reflexivity.
    + apply (cmp_eq c1) in E2. subst. rewrite E1. reflexivity.
    + rewrite (cmp_lt_trans c1 x1 y1 z1 E1 E2). reflexivity.
Qed.

#[export] Instance dedup_StrictCmp : StrictCmp dedup_cmp.
Proof. unfold dedup_cmp. typeclasses eauto. Qed.

#[export] Instance final_StrictCmp : StrictCmp final_cmp.
Proof. unfold final_cmp, date_cmp, time_cmp. typeclasses eauto. Qed.

(** ** The stable sort: permutation, sortedness, stability *)

Section SortFacts.
Context {A K : Type} (key : A -> K) (cmp : K -> K -> comparison)
        `{HC : !StrictCmp cmp}.

Local Abbreviation leb := (row_leb key cmp).
Local Abbreviation ins := (insert key cmp).
Local Abbreviation sort := (stable_sort key cmp).
Local Abbreviation sorted := (sorted_by key cmp).

Lemma row_leb_trans (x y z : A) :
  leb x y = true -> leb y z = true -> leb x z = true.
Proof. apply (cmp_leb_trans cmp). Qed.

Lemma row_leb_total (x y : A) : leb x y = true \/ leb y x = true.
Proof. apply (cmp_leb_total cmp). Qed.

Lemma row_leb_same_key (x y : A) : key x = key y -> leb x y = true.
Proof.
  intros E. unfold row_leb. rewrite E, (cmp_refl cmp). reflexivity.
Qed.

Lemma insert_perm (x : A) (l : list A) : Permutation (ins x l) (x :: l).
Proof.
  induction l as [|y l IH]; simpl; [reflexivity|].
  destruct (leb x y); [reflexivity|].
  rewrite IH. apply perm_swap.
Qed.

Lemma sort_perm (l : list A) : Permutation (sort l) l.
Proof.
  induction l as [|x l IH]; simpl; [reflexivity|].
  rewrite insert_perm, IH. reflexivity.
Qed.

Lemma sort_In (l : list A) (x : A) : In x (sort l) <-> In x l.
Proof.
  split; apply Permutation_in; [|symmetry]; apply sort_perm.
Qed.

Lemma insert_sorted (x : A) (l : list A) : sorted l -> sorted (ins x l).
Proof.
  induction 1 as [|y l Hs IH Hy]; simpl.
  - repeat constructor.
  - destruct (leb x y) eqn:E.
    + constructor; [constructor; assumption|].
      constructor; [exact E|].
      rewrite Forall_forall in *. intros z Hz.
      eapply row_leb_trans; [exact E | auto].
    + constructor; [exact IH|].
      rewrite Forall_forall in *. intros z Hz.
      apply (Permutation_in _ (insert_perm x l)) in Hz.
      destruct Hz as [<-|Hz]; [|auto].
      destruct (row_leb_total x y) as [H|H]; congruence.
Qed.

Lemma sort_sorted (l : list A) : sorted (sort l).
Proof.
  induction l as [|x l IH]; simpl; [constructor|].
  apply insert_sorted, IH.
Qed.

Lemma insert_le_head (x : A) (l : list A) :
  Forall (fun y => leb x y = true) l -> ins x l = x :: l.
Proof.
  destruct 1 as [|y l Hy _]; simpl; [reflexivity|].
  rewrite Hy. reflexivity.
Qed.

(** Filtering commutes with insertion into a sorted list. *)
Lemma filter_insert (f : A -> bool) (x : A) (l : list A) :
  sorted l ->
  filter f (ins x l) = if f x then ins x (filter f l) else filter f l.
Proof.
  induction 1 as [|y l Hs IH Hy]; simpl.
  - destruct (f x); reflexivity.
  - destruct (leb x y) eqn:E; simpl.
    + destruct (f x) eqn:Fx; [|reflexivity].
      destruct (f y) eqn:Fy; simpl; [rewrite E; reflexivity|].
      symmetry. f_equal. apply insert_le_head.
      rewrite Forall_forall in *. intros z Hz.
      apply filter_In in Hz.
      eapply row_leb_trans; [exact E | apply Hy, Hz].
    + destruct (f y) eqn:Fy; simpl; rewrite IH.
      * destruct (f x); [rewrite E|]; reflexivity.
      * reflexivity.
Qed.

Lemma filter_sort (f : A -> bool) (l : list A) :
  filter f (sort l) = sort (filter f l).
Proof.
  induction l as [|x l IH]; simpl; [reflexivity|].
  rewrite filter_insert by apply sort_sorted.
  destruct (f x); simpl; rewrite IH; reflexivity.
Qed.

(** Sorting a sorted frame changes nothing. *)
Lemma sort_sorted_id (l : list A) : sorted l -> sort l = l.
Proof.
  induction 1 as [|y l Hs IH Hy]; simpl; [reflexivity|].
  rewrite IH. apply insert_le_head, Hy.
Qed.

Lemma sort_idempotent (l : list A) : sort (sort l) = sort l.
Proof. apply sort_sorted_id, sort_sorted. Qed.

Lemma same_key_sorted (l : list A) :
  (forall x y, In x l -> In y l -> key x = key y) -> sorted l.
Proof.
  induction l as [|x l IH]; intros H; constructor.
  - apply IH. intros; apply H; right; assumption.
  - rewrite Forall_forall. intros y Hy.
    apply row_leb_same_key, H; [left; reflexivity | right; exact Hy].
Qed.

(** Stability: rows selected by a test that fixes the key come out in
    their input order. *)
Lemma sort_stable (f : A -> bool) (l : list A) :
  (forall x y, f x = true -> f y = true -> key x = key y) ->
  filter f (sort l) = filter f l.
Proof.
  intros H. rewrite filter_sort. apply sort_sorted_id, same_key_sorted.
  intros x y Hx Hy. apply filter_In in Hx, Hy. apply H; tauto.
Qed.

Lemma hd_insert (x : A) (l : list A) :
  hd_error (ins x l) =
  Some (match l with
        | [] => x
        | y :: _ => if leb x y then x else y
        end).
Proof.
  destruct l as [|y l]; simpl; [reflexivity|].
  destruct (leb x y); reflexivity.
Qed.





End SortFacts.

(** ** Brand normalisation *)

Lemma ostr_eqb_eq (a b : option string) : ostr_eqb a b = true <-> a = b.
Proof.
  destruct a as [x|], b as [y|]; simpl; try (split; congruence).
  rewrite String.eqb_eq. split; congruence.
Qed.

Lemma ostr_eqb_refl (a : option string) : ostr_eqb a a = true.
Proof. apply ostr_eqb_eq. reflexivity. Qed.

Lemma normalise_brand_map (df : DataFrame) :
  normalise_brand df =
  map (fun r =>
         set_Brand
           (collapse_brand
              (infer_brand (set_Brand (primary_brand (Brand r)) r))) r) df.
Proof.
  unfold normalise_brand. rewrite !map_map. apply map_ext.
  intros r. reflexivity.
Qed.

Lemma collapse_two_values (b : option string) :
  collapse_brand b = Some "Birria" \/ collapse_brand b = Some "Birdie".
Proof.
  unfold collapse_brand. destruct (truthy _); auto.
Qed.

Lemma brand_of_text (r : Row) (b : string) :
  Brand r = Some b ->
  collapse_brand (infer_brand (set_Brand (primary_brand (Brand r)) r))
  = beast_label (brand_text b).
Proof.
  intros E. rewrite E. unfold primary_brand, brand_text, infer_brand.
  destruct (PyStr.has_char "," b); reflexivity.
Qed.

Lemma brand_of_location (r : Row) (l : string) :
  Brand r = None -> Location r = Some l ->
  collapse_brand (infer_brand (set_Brand (primary_brand (Brand r)) r))
  = beast_label l.
Proof.
  intros E El. rewrite E. unfold infer_brand, collapse_brand, beast_label.
  simpl. rewrite El. simpl.
  destruct (PyStr.icontains "beast" l); reflexivity.
Qed.

(** A missing brand on a row whose location is missing too resolves to
    the first label: the missing test result counts as true. *)
Remark brand_of_nothing (r : Row) :
  Brand r = None -> Location r = None ->
  collapse_brand (infer_brand (set_Brand (primary_brand (Brand r)) r))
  = Some "Birria".
Proof.
  intros E El. rewrite E. unfold infer_brand. simpl. rewrite El. reflexivity.
Qed.

(** ** The shared normalisation works row by row *)

Lemma merge_left_In {R B : Type} (m : R -> bool) (right : list R)
  (hit : R -> B) (miss : B) (b : B) :
  In b (merge_left m right hit miss) ->
  (b = miss /\ filter m right = []) \/
  (exists e, In e right /\ m e = true /\ b = hit e).
Proof.
  unfold merge_left. destruct (filter m right) as [|e0 ms] eqn:E.
  - intros [<-|[]]. left. split; reflexivity.
  - intros Hin. right. apply in_map_iff in Hin.
    destruct Hin as [e [<- He]]. exists e.
    assert (Hf : In e (filter m right)) by (rewrite E; exact He).
    apply filter_In in Hf. tauto.
Qed.

Lemma filter_none {R : Type} (m : R -> bool) (l : list R) :
  (forall e, In e l -> m e = false) -> filter m l = [].
Proof.
  induction l as [|x l IH]; intros H; simpl; [reflexivity|].
  rewrite (H x (or_introl eq_refl)). apply IH. intros; apply H; right; assumption.
Qed.

Section SharedData.
Variable cleaned_names : NameTable.

Local Abbreviation shared := (process_deliverect_shared_data cleaned_names).




Lemma clean_location_names_In (df : DataFrame) (r' : Row) :
  In r' (clean_location_names cleaned_names df) ->
  exists r v, In r df /\ r' = set_Location v r.
Proof.
  unfold clean_location_names. intros H.
  apply in_flat_map in H. destruct H as [r1 [H1 H]].
  apply in_map_iff in H1. destruct H1 as [r [<- Hr]].
  apply merge_left_In in H.
  destruct H as [[-> _]|[e [_ [_ ->]]]];
    [exists r, None | exists r, (snd e)]; (split; [exact Hr | reflexivity]).
Qed.

Lemma shared_data_brand (df : DataFrame) (r' : Row) :
  In r' (shared df) ->
  exists r, In r df /\
    Brand r' = collapse_brand
                 (infer_brand (set_Brand (primary_brand (Brand r)) r)).
Proof.
  unfold process_deliverect_shared_data. intros H.
  apply in_map_iff in H. destruct H as [r9 [<- H]].
  apply filter_In in H. destruct H as [H _].
  apply in_map_iff in H. destruct H as [r8 [<- H]].
  apply in_map_iff in H. destruct H as [r7 [<- H]].
  apply in_map_iff in H. destruct H as [r6 [<- H]].
  apply clean_location_names_In in H. destruct H as [r5 [v [H ->]]].
  rewrite normalise_brand_map in H.
  apply in_map_iff in H. destruct H as [r1 [<- H]].
  apply in_map_iff in H. destruct H as [r [<- H]].
  exists r. split; [exact H|]. reflexivity.
Qed.


End SharedData.

(** ** [drop_duplicates] keeps the first row of every key *)

Section DropDuplicates.
Context {A K : Type} (key : A -> K) (eqb : K -> K -> bool).
Hypothesis eqb_eq : forall a b, eqb a b = true <-> a = b.

Local Abbreviation dd := (drop_duplicates_by key eqb).

Lemma existsb_eqb (k : K) (seen : list K) :
  existsb (eqb k) seen = true <-> In k seen.
Proof.
  rewrite existsb_exists. split.
  - intros [x [Hx E]]. apply eqb_eq in E. subst. exact Hx.
  - intros H. exists k. split; [exact H | apply eqb_eq; reflexivity].
Qed.

Lemma drop_duplicates_In (seen : list K) (l : list A) (x : A) :
  In x (dd seen l) -> In x l /\ ~ In (key x) seen.
Proof.
  revert seen. induction l as [|y l IH]; intros seen; simpl; [tauto|].
  destruct (existsb (eqb (key y)) seen) eqn:E.
  - intros H. apply IH in H. tauto.
  - intros [<-|H].
    + split; [left; reflexivity|].
      intros Hin. apply existsb_eqb in Hin. congruence.
    + apply IH in H. simpl in H. tauto.
Qed.

Lemma drop_duplicates_NoDup (seen : list K) (l : list A) :
  NoDup (map key (dd seen l)).
Proof.
  revert seen. induction l as [|y l IH]; intros seen; simpl; [constructor|].
  destruct (existsb (eqb (key y)) seen); [apply IH|].
  simpl. constructor; [|apply IH].
  intros Hin. apply in_map_iff in Hin. destruct Hin as [z [Ez Hz]].
  apply drop_duplicates_In in Hz. destruct Hz as [_ Hz].
  apply Hz. left. symmetry. exact Ez.
Qed.

Lemma drop_duplicates_first (seen : list K) (l : list A) (k : K) :
  filter (fun x => eqb (key x) k) (dd seen l) =
  if existsb (eqb k) seen then []
  else firstn 1 (filter (fun x => eqb (key x) k) l).
Proof.
  revert seen. induction l as [|y l IH]; intros seen; simpl.
  - destruct (existsb (eqb k) seen); reflexivity.
  - destruct (existsb (eqb (key y)) seen) eqn:Ey.
    + rewrite IH. destruct (existsb (eqb k) seen) eqn:Ek; [reflexivity|].
      destruct (eqb (key y) k) eqn:E; [|reflexivity].
      apply eqb_eq in E. subst. congruence.
    + simpl. destruct (eqb (key y) k) eqn:E.
      * apply eqb_eq in E. subst. rewrite Ey, IH. simpl.
        assert (Hk : eqb (key y) (key y) = true) by (apply eqb_eq; reflexivity).
        rewrite Hk. reflexivity.
      * rewrite IH. simpl.
        assert (Hk : eqb k (key y) = false).
        { destruct (eqb k (key y)) eqn:E'; [|reflexivity].
          apply eqb_eq in E'. subst.
          assert (eqb (key y) (key y) = true) by (apply eqb_eq; reflexivity).
          congruence. }
        rewrite Hk. reflexivity.
Qed.
End DropDuplicates.

Lemma NoDup_map_filter {T U : Type} (keep : T -> bool) (col : T -> U) :
  forall rows : list T,
    NoDup (map col rows) -> NoDup (map col (filter keep rows)).
Proof.
  intros rows. induction rows as [|x l IH]; simpl; intros H; [constructor|].
  inversion H as [|? ? Hnin H']; subst.
  destruct (keep x); simpl; [|apply IH, H'].
  constructor; [|apply IH, H'].
  intros Hin. apply Hnin. apply in_map_iff in Hin.
  destruct Hin as [z [Ez Hz]]. apply filter_In in Hz.
  apply in_map_iff. exists z. tauto.
Qed.

Lemma firstn_1_hd {A : Type} (l : list A) :
  firstn 1 l = match hd_error l with Some x => [x] | None => [] end.
Proof. destruct l; reflexivity. Qed.

(** ** The head of a sorted frame is the first of its least rows *)

Section FirstBest.
Context {A K : Type} (key : A -> K) (cmp : K -> K -> comparison)
        `{HC : !StrictCmp cmp}.

Local Abbreviation leb := (row_leb key cmp).

Lemma hd_sort (l : list A) :
  hd_error (stable_sort key cmp l) = first_best leb l.
Proof.
  induction l as [|x l IH]; simpl; [reflexivity|].
  rewrite hd_insert, <- IH.
  destruct (stable_sort key cmp l); reflexivity.
Qed.

Lemma first_best_In (l : list A) (w : A) :
  first_best leb l = Some w -> In w l.
Proof.
  revert w. induction l as [|x l IH]; simpl; intros w H; [discriminate|].
  injection H as <-.
  destruct (first_best leb l) as [y|]; [|left; reflexivity].
  destruct (leb x y); [left; reflexivity | right; apply IH; reflexivity].
Qed.

(** The first of the least rows, found from its position. *)
Lemma first_best_at (l1 l2 : list A) (w : A) :
  (forall y, In y l1 -> leb y w = false) ->
  (forall y, In y l2 -> leb w y = true) ->
  first_best leb (l1 ++ w :: l2) = Some w.
Proof.
  intros H1 H2. induction l1 as [|a l1 IH]; simpl.
  - destruct (first_best leb l2) as [y|] eqn:E; [|reflexivity].
    rewrite (H2 y (first_best_In _ _ E)). reflexivity.
  - rewrite IH by (intros; apply H1; right; assumption).
    rewrite (H1 a (or_introl eq_refl)). reflexivity.
Qed.

(** Every non-empty list has such a row. *)
Lemma first_best_split (l : list A) :
  l <> [] ->
  exists l1 w l2, l = l1 ++ w :: l2 /\
    (forall y, In y l1 -> leb y w = false) /\
    (forall y, In y l2 -> leb w y = true).
Proof.
  induction l as [|x l IH]; [congruence|]. intros _.
  destruct l as [|x' l'].
  - exists [], x, []. repeat split; intros y [].
  - destruct IH as [l1 [w [l2 [E [H1 H2]]]]]; [discriminate|].
    rewrite E. destruct (leb x w) eqn:Exw.
    + exists [], x, (l1 ++ w :: l2). split; [reflexivity|].
      split; [intros y []|].
      intros y Hy. apply in_app_or in Hy.
      destruct Hy as [Hy|[<-|Hy]]; [|exact Exw|].
      * specialize (H1 y Hy).
        destruct (row_leb_total key cmp y w) as [T|T]; [congruence|].
        eapply (row_leb_trans key cmp); eassumption.
      * eapply (row_leb_trans key cmp); [exact Exw | auto].
    + exists (x :: l1), w, l2. split; [reflexivity|]. split; [|exact H2].
      intros y [<-|Hy]; auto.
Qed.
End FirstBest.

(** ** Order de-duplication *)

Lemma filter_swap {A : Type} (f g : A -> bool) (l : list A) :
  filter f (filter g l) = filter g (filter f l).
Proof.
  induction l as [|x l IH]; simpl; [reflexivity|].
  destruct (f x) eqn:Ef, (g x) eqn:Eg; simpl; rewrite ?Ef, ?Eg, IH; reflexivity.
Qed.

Lemma filter_split {A : Type} (f : A -> bool) (l a b : list A) (w : A) :
  filter f l = a ++ w :: b ->
  exists l1 l2, l = l1 ++ w :: l2 /\ filter f l1 = a /\ filter f l2 = b
                /\ f w = true.
Proof.
  revert a. induction l as [|x l IH]; intros a; simpl.
  - destruct a; discriminate.
  - destruct (f x) eqn:E.
    + destruct a as [|x' a]; simpl; intros H; injection H as -> H.
      * exists [], l. simpl. auto.
      * destruct (IH a H) as [l1 [l2 [-> [H1 [H2 Hw]]]]].
        exists (x' :: l1), l2. simpl. rewrite E, H1. auto.
    + intros H. destruct (IH a H) as [l1 [l2 [-> [H1 [H2 Hw]]]]].
      exists (x :: l1), l2. simpl. rewrite E. auto.
Qed.

Lemma category_code_categorical (s : option string) :
  category_code (to_categorical s) = category_code s.
Proof.
  unfold to_categorical. destruct (category_code s) eqn:E; [exact E|reflexivity].
Qed.

Lemma with_key_map_categorical (k : option string) (df : DataFrame) :
  with_key k (map as_categorical df) = map as_categorical (with_key k df).
Proof.
  unfold with_key. induction df as [|r df IH]; simpl; [reflexivity|].
  destruct (ostr_eqb (PrimaryKey r) k); simpl; rewrite IH; reflexivity.
Qed.

(** What the de-duplicator leaves of the rows of one key: the head of
    the sorted group, unless its order id is ["#nan"]. *)
Lemma dedup_group (k : option string) (df : DataFrame) :
  with_key k (process_deliverect_remove_duplicates df) =
  filter (fun r => negb (has_nan_id r))
    (firstn 1 (stable_sort dedup_key dedup_cmp
                 (map as_categorical (with_key k df)))).
Proof.
  unfold process_deliverect_remove_duplicates, with_key at 1.
  rewrite filter_swap. f_equal.
  rewrite (drop_duplicates_first PrimaryKey ostr_eqb ostr_eqb_eq).
  cbn [existsb].
  rewrite (filter_sort dedup_key dedup_cmp).
  do 2 f_equal. apply with_key_map_categorical.
Qed.

Lemma dedup_In (df : DataFrame) (r : Row) :
  In r (process_deliverect_remove_duplicates df) ->
  has_nan_id r = false /\ exists r0, In r0 df /\ r = as_categorical r0.
Proof.
  unfold process_deliverect_remove_duplicates. intros H.
  apply filter_In in H. destruct H as [H Hn].
  apply (drop_duplicates_In PrimaryKey ostr_eqb ostr_eqb_eq) in H.
  destruct H as [H _].
  apply -> (sort_In dedup_key dedup_cmp) in H.
  apply in_map_iff in H. destruct H as [r0 [<- H0]].
  split; [apply negb_true_iff, Hn | eauto].
Qed.

Lemma dedup_NoDup (df : DataFrame) :
  NoDup (map PrimaryKey (process_deliverect_remove_duplicates df)).
Proof.
  unfold process_deliverect_remove_duplicates.
  apply (NoDup_map_filter _ PrimaryKey).
  apply (drop_duplicates_NoDup PrimaryKey ostr_eqb ostr_eqb_eq).
Qed.

Lemma dedup_at_most_one (k : option string) (df : DataFrame) :
  (length (with_key k (process_deliverect_remove_duplicates df)) <= 1)%nat.
Proof.
  rewrite dedup_group.
  etransitivity; [apply filter_length_le|].
  rewrite length_firstn. apply Nat.le_min_l.
Qed.

Lemma row_leb_dedup_same_key (x y : Row) :
  PrimaryKey x = PrimaryKey y ->
  row_leb dedup_key dedup_cmp x y = cmp_leb (rank_cmp x y).
Proof.
  intros E. unfold row_leb, dedup_key, dedup_cmp, lex_cmp, rank_cmp. simpl.
  rewrite E, (cmp_refl (opt_cmp String.compare)). reflexivity.
Qed.

Lemma rank_cmp_opp (x y : Row) : rank_cmp y x = CompOpp (rank_cmp x y).
Proof. unfold rank_cmp. apply (cmp_opp (opt_cmp Nat.compare)). Qed.

Lemma rank_cmp_categorical_l (x y : Row) :
  rank_cmp (as_categorical x) y = rank_cmp x y.
Proof.
  unfold rank_cmp, as_categorical. simpl.
  rewrite category_code_categorical. reflexivity.
Qed.

(** The row kept for a key, from its position in the input: it is the
    first row of its key whose status has the least rank. *)
Lemma dedup_selects (l1 l2 : DataFrame) (r : Row) :
  (forall y, In y l1 -> PrimaryKey y = PrimaryKey r -> rank_cmp r y = Lt) ->
  (forall y, In y l2 -> PrimaryKey y = PrimaryKey r -> rank_cmp r y <> Gt) ->
  with_key (PrimaryKey r) (process_deliverect_remove_duplicates (l1 ++ r :: l2))
  = if has_nan_id r then [] else [as_categorical r].
Proof.
  intros H1 H2. rewrite dedup_group, firstn_1_hd, (hd_sort dedup_key dedup_cmp).
  unfold with_key. rewrite filter_app. simpl.
  rewrite ostr_eqb_refl, map_app. simpl.
  rewrite (first_best_at dedup_key dedup_cmp).
  - simpl. unfold has_nan_id at 1, as_categorical at 1. simpl.
    fold (has_nan_id r). destruct (has_nan_id r); reflexivity.
  - intros y Hy. apply in_map_iff in Hy. destruct Hy as [y0 [<- Hy]].
    apply filter_In in Hy. destruct Hy as [Hy Ek]. apply ostr_eqb_eq in Ek.
    rewrite row_leb_dedup_same_key by exact Ek.
    rewrite rank_cmp_categorical_l, rank_cmp_opp, rank_cmp_categorical_l.
    rewrite (H1 y0 Hy Ek). reflexivity.
  - intros y Hy. apply in_map_iff in Hy. destruct Hy as [y0 [<- Hy]].
    apply filter_In in Hy. destruct Hy as [Hy Ek]. apply ostr_eqb_eq in Ek.
    rewrite row_leb_dedup_same_key by (symmetry; exact Ek).
    rewrite rank_cmp_categorical_l, rank_cmp_opp, rank_cmp_categorical_l.
    rewrite <- rank_cmp_opp.
    specialize (H2 y0 Hy Ek).
    destruct (rank_cmp r y0); simpl; congruence.
Qed.

Lemma dedup_best_exists (df : DataFrame) (k : option string) :
  In k (map PrimaryKey df) ->
  exists l1 r l2, df = l1 ++ r :: l2 /\ PrimaryKey r = k /\
    (forall y, In y l1 -> PrimaryKey y = k -> rank_cmp r y = Lt) /\
    (forall y, In y l2 -> PrimaryKey y = k -> rank_cmp r y <> Gt).
Proof.
  intros Hk. apply in_map_iff in Hk. destruct Hk as [x [Ex Hx]].
  assert (Hne : with_key k df <> []).
  { intros E. assert (Hin : In x (with_key k df)).
    { apply filter_In. split; [exact Hx | apply ostr_eqb_eq, Ex]. }
    rewrite E in Hin. exact Hin. }
  destruct (first_best_split dedup_key dedup_cmp _ Hne)
    as [a [w [b [E [Ha Hb]]]]].
  destruct (filter_split _ _ _ _ _ E) as [l1 [l2 [-> [E1 [E2 Hw]]]]].
  apply ostr_eqb_eq in Hw.
  exists l1, w, l2. repeat split; try assumption.
  - intros y Hy Ey.
    assert (Hin : In y a).
    { rewrite <- E1. apply filter_In. split; [exact Hy | apply ostr_eqb_eq, Ey]. }
    specialize (Ha y Hin).
    rewrite row_leb_dedup_same_key in Ha by congruence.
    rewrite rank_cmp_opp. destruct (rank_cmp y w); simpl in *; congruence.
  - intros y Hy Ey.
    assert (Hin : In y b).
    { rewrite <- E2. apply filter_In. split; [exact Hy | apply ostr_eqb_eq, Ey]. }
    specialize (Hb y Hin).
    rewrite row_leb_dedup_same_key in Hb by congruence.
    destruct (rank_cmp w y); simpl in *; congruence.
Qed.

Lemma with_key_all (k : option string) (df : DataFrame) :
  (forall r, In r df -> PrimaryKey r = k) -> with_key k df = df.
Proof.
  intros H. unfold with_key. apply forallb_filter_id.
  apply forallb_forall. intros r Hr. apply ostr_eqb_eq, H, Hr.
Qed.

Lemma index_of_None (s : string) (l : list string) :
  index_of s l = None <-> ~ In s l.
Proof.
  induction l as [|c cs IH]; simpl; [tauto|].
  destruct (String.eqb s c) eqn:Eq.
  - apply String.eqb_eq in Eq. subst. split; [discriminate | tauto].
  - apply String.eqb_neq in Eq.
    destruct (index_of s cs); simpl.
    + split; [discriminate|]. intros H. exfalso. apply H. right.
      destruct (in_dec string_dec s cs) as [Hi|Hn]; [exact Hi|].
      apply IH in Hn. discriminate.
    + split; [|reflexivity]. intros _ [E|H]; [congruence|].
      apply IH in H; auto.
Qed.

Lemma as_categorical_listed (r : Row) (s : string) :
  OrderStatus r = Some s -> In s categories -> as_categorical r = r.
Proof.
  intros E Hs.
  assert (Hc : to_categorical (Some s) = Some s).
  { unfold to_categorical.
    destruct (category_code (Some s)) eqn:Ec; [reflexivity|].
    exfalso. unfold category_code in Ec. apply index_of_None in Ec. tauto. }
  unfold as_categorical. rewrite E, Hc, <- E.
  destruct r. reflexivity.
Qed.

(** C2 (as amended). The de-duplicated frame has no two rows with the same
    PrimaryKey; of the rows of one input key at most one survives; exactly
    one survives when no row of that key has the order id ["#nan"], and
    none survives when all of them have it. *)
Theorem dedup_key_unique (df : DataFrame) :
  let out := process_deliverect_remove_duplicates df in
  NoDup (map PrimaryKey out) /\
  (forall k, (length (with_key k out) <= 1)%nat) /\
  (forall k, In k (map PrimaryKey df) ->
     (forall r, In r df -> PrimaryKey r = k -> has_nan_id r = false) ->
     length (with_key k out) = 1%nat) /\
  (forall k,
     (forall r, In r df -> PrimaryKey r = k -> has_nan_id r = true) ->
     with_key k out = []).
Proof.
  cbv zeta. split; [apply dedup_NoDup|].
  split; [intros k; apply dedup_at_most_one|].
  split.
  - intros k Hk Hnan.
    destruct (dedup_best_exists df k Hk) as [l1 [r [l2 [-> [<- [H1 H2]]]]]].
    rewrite (dedup_selects l1 l2 r H1 H2).
    rewrite Hnan; [reflexivity| |reflexivity].
    apply in_or_app. right. left. reflexivity.
  - intros k Hnan.
    destruct (with_key k (process_deliverect_remove_duplicates df))
      as [|w ws] eqn:E; [reflexivity|].
    exfalso.
    assert (Hw : In w (with_key k (process_deliverect_remove_duplicates df)))
      by (rewrite E; left; reflexivity).
    apply filter_In in Hw. destruct Hw as [Hw Ek]. apply ostr_eqb_eq in Ek.
    apply dedup_In in Hw. destruct Hw as [Hn [r0 [H0 ->]]].
    specialize (Hnan r0 H0 Ek).
    unfold has_nan_id, as_categorical in *. simpl in Hn. congruence.
Qed.

Lemma dedup_key_unique_witness :
  length (with_key (PrimaryKey order_A_new)
            (process_deliverect_remove_duplicates
               [order_A_new; order_B_cancelled; order_A_delivered])) = 1%nat.
Proof.
  apply (proj1 (proj2 (proj2
           (dedup_key_unique
              [order_A_new; order_B_cancelled; order_A_delivered])))).
  - vm_compute. tauto.
  - intros r [<-|[<-|[<-|[]]]] _; reflexivity.
Defined.

(** C2, the input on which it fails: an order row read without order id
    is normalised to a row with a PrimaryKey of its own, and no row of
    that key survives the de-duplication. *)
Lemma dedup_exactly_one_fails :
  let df := process_deliverect_shared_data sample_names [raw_order_without_id] in
  let k := Some "#nan - Berlin - 2023-01-05" in
  In k (map PrimaryKey df) /\
  length (with_key k (process_deliverect_remove_duplicates df)) <> 1%nat.
Proof.
  vm_compute. split; [left; reflexivity | discriminate].
Qed.

(** C4 (as amended). For every PrimaryKey of the input there is a row [r]
    of that key, the first one in input order among those whose status has
    the least rank, such that the de-duplicated frame holds of that key
    exactly [r] (with its status as a categorical cell), or nothing when
    the order id of [r] is ["#nan"].  The ranks are those of the table of
    17 statuses, a status outside the table coming after every status of
    the table; of two rows of one key with statuses "Cancelled" and
    "Delivered" and a usable order id, the "Delivered" row is the one
    kept. *)
Theorem dedup_keeps_best_status :
  (forall df k, In k (map PrimaryKey df) ->
     exists l1 r l2,
       df = l1 ++ r :: l2 /\ PrimaryKey r = k /\
       (forall y, In y l1 -> PrimaryKey y = k -> rank_cmp r y = Lt) /\
       (forall y, In y l2 -> PrimaryKey y = k -> rank_cmp r y <> Gt) /\
       with_key k (process_deliverect_remove_duplicates df)
       = if has_nan_id r then [] else [as_categorical r]) /\
  length custom_order = 17%nat /\
  (forall s n, In (s, n) custom_order -> category_code (Some s) = Some n) /\
  (forall s t, In s categories -> ~ In t categories ->
     opt_cmp Nat.compare (category_code (Some s)) (category_code (Some t)) = Lt) /\
  (forall a b,
     PrimaryKey a = PrimaryKey b ->
     OrderStatus a = Some "Cancelled" -> OrderStatus b = Some "Delivered" ->
     has_nan_id b = false ->
     process_deliverect_remove_duplicates [a; b] = [b] /\
     process_deliverect_remove_duplicates [b; a] = [b]).
Proof.
  split; [|split; [reflexivity|split; [|split]]].
  - intros df k Hk.
    destruct (dedup_best_exists df k Hk) as [l1 [r [l2 [E [Ek [H1 H2]]]]]].
    exists l1, r, l2. subst df k. repeat split; try assumption.
    apply dedup_selects; assumption.
  - intros s n Hin. unfold custom_order in Hin. simpl in Hin.
    repeat (destruct Hin as [Hin|Hin];
            [injection Hin as <- <-; reflexivity|]).
    destruct Hin.
  - intros s t Hs Ht. unfold category_code.
    apply index_of_None in Ht. rewrite Ht.
    destruct (index_of s categories) eqn:E; [reflexivity|].
    apply index_of_None in E. tauto.
  - intros a b Ek Ea Eb Hb.
    assert (Hba : rank_cmp b a = Lt).
    { unfold rank_cmp. rewrite Ea, Eb. reflexivity. }
    assert (Hcat : as_categorical b = b).
    { apply (as_categorical_listed b "Delivered" Eb). left. reflexivity. }
    assert (Hall : forall df, (forall x, In x df -> PrimaryKey x = PrimaryKey b) ->
               with_key (PrimaryKey b) (process_deliverect_remove_duplicates df)
               = process_deliverect_remove_duplicates df).
    { intros df Hdf. apply with_key_all. intros r Hr.
      apply dedup_In in Hr. destruct Hr as [_ [r0 [H0 ->]]].
      apply (Hdf r0 H0). }
    split.
    + rewrite <- Hall by (intros x [<-|[<-|[]]]; auto).
      change [a; b] with ([a] ++ b :: []).
      rewrite (dedup_selects [a] [] b), Hb, Hcat; [reflexivity| |].
      * intros y [<-|[]] _. exact Hba.
      * intros y [].
    + rewrite <- Hall by (intros x [<-|[<-|[]]]; auto).
      change [b; a] with ([] ++ b :: [a]).
      rewrite (dedup_selects [] [a] b), Hb, Hcat; [reflexivity| |].
      * intros y [].
      * intros y [<-|[]] _. rewrite Hba. discriminate.
Qed.

Lemma dedup_keeps_best_status_witness :
  exists l1 r l2,
    [order_A_new; order_B_cancelled; order_A_delivered] = l1 ++ r :: l2 /\
    PrimaryKey r = PrimaryKey order_A_new /\
    (forall y, In y l1 -> PrimaryKey y = PrimaryKey order_A_new ->
       rank_cmp r y = Lt) /\
    (forall y, In y l2 -> PrimaryKey y = PrimaryKey order_A_new ->
       rank_cmp r y <> Gt) /\
    with_key (PrimaryKey order_A_new)
      (process_deliverect_remove_duplicates
         [order_A_new; order_B_cancelled; order_A_delivered])
    = if has_nan_id r then [] else [as_categorical r].
Proof.
  apply (proj1 dedup_keeps_best_status
           [order_A_new; order_B_cancelled; order_A_delivered]).
  vm_compute. tauto.
Defined.

(** C4, the input on which it fails: two rows of one key with statuses
    "Cancelled" and "Delivered" whose order id is ["#nan"]; neither is
    retained. *)
Lemma dedup_best_status_fails :
  PrimaryKey nan_cancelled = PrimaryKey nan_delivered /\
  ~ In nan_delivered
      (process_deliverect_remove_duplicates [nan_cancelled; nan_delivered]) /\
  process_deliverect_remove_duplicates [nan_cancelled; nan_delivered] = [].
Proof.
  split; [reflexivity|].
  assert (E : process_deliverect_remove_duplicates
                [nan_cancelled; nan_delivered] = []) by (vm_compute; reflexivity).
  rewrite E. split; [intros [] | reflexivity].
Qed.

(** C8 (as amended). After brand normalisation the Brand cell of every row
    is one of the two labels "Birria" and "Birdie", and no other cell has
    changed.  The label is the result of the case-insensitive test for
    "beast" on the text of the brand cell before its first comma; for a
    row without brand it is the result of the same test on its location.
    The same two values are the only brands in the frame returned by the
    shared normalisation. *)
Theorem brand_collapse (cleaned_names : NameTable) (df : DataFrame) :
  Forall2
    (fun r r' =>
       r' = set_Brand (Brand r') r /\
       (Brand r' = Some "Birria" \/ Brand r' = Some "Birdie") /\
       (forall b, Brand r = Some b -> Brand r' = beast_label (brand_text b)) /\
       (forall l, Brand r = None -> Location r = Some l ->
                  Brand r' = beast_label l))
    df (normalise_brand df) /\
  (forall r', In r' (process_deliverect_shared_data cleaned_names df) ->
     Brand r' = Some "Birria" \/ Brand r' = Some "Birdie").
Proof.
  split.
  - rewrite normalise_brand_map.
    induction df as [|r df IH]; simpl; constructor; [|exact IH].
    split; [reflexivity|]. simpl.
    split; [apply collapse_two_values|].
    split; [intros b Hb; apply brand_of_text, Hb|].
    intros l Hb Hl. apply brand_of_location; assumption.
  - intros r' H. apply shared_data_brand in H. destruct H as [r [_ ->]].
    apply collapse_two_values.
Qed.

(** C8, the input on which it fails: a brand cell that contains "beast"
    after its first comma gets the label of the cells that do not contain
    it. *)
Lemma brand_collapse_whole_value_fails :
  PyStr.icontains "beast" two_brands = true /\
  map Brand (normalise_brand [two_brand_row]) = [Some "Birdie"] /\
  map Brand (normalise_brand [two_brand_row]) <> [beast_label two_brands].
Proof.
  vm_compute. repeat split; discriminate.
Qed.




(** ** Sums of monetary cells *)

Lemma fold_left_Qplus (l : list Q) (a : Q) :
  fold_left Qplus l a == a + fold_left Qplus l 0.
Proof.
  revert a. induction l as [|x l IH]; intros a; simpl.
  - ring.
  - rewrite (IH (a + x)), (IH (0 + x)). ring.
Qed.

Lemma Qsum_cons (x : Q) (l : list Q) : Qsum (x :: l) == x + Qsum l.
Proof.
  unfold Qsum. simpl. rewrite fold_left_Qplus. ring.
Qed.

Lemma Qsum_app (l1 l2 : list Q) : Qsum (l1 ++ l2) == Qsum l1 + Qsum l2.
Proof.
  induction l1 as [|x l1 IH]; simpl.
  - unfold Qsum at 2. simpl. ring.
  - rewrite !Qsum_cons, IH. ring.
Qed.

Lemma Qsum_perm (l1 l2 : list Q) : Permutation l1 l2 -> Qsum l1 == Qsum l2.
Proof.
  induction 1 as [|x l1 l2 _ IH|x y l|l1 l2 l3 _ IH1 _ IH2].
  - reflexivity.
  - rewrite !Qsum_cons, IH. reflexivity.
  - rewrite !Qsum_cons. ring.
  - rewrite IH1. exact IH2.
Qed.

Lemma Qltb_lt (x y : Q) : Qltb x y = true <-> x < y.
Proof.
  unfold Qltb. destruct (Qlt_le_dec x y) as [H|H].
  - tauto.
  - split; [discriminate|]. intros H'. exfalso. exact (Qle_not_lt _ _ H H').
Qed.

(** ** The merge with the de-duplicated orders is a semi-join *)

Lemma existsb_filter_nil {R : Type} (m : R -> bool) (l : list R) :
  existsb m l = negb (match filter m l with [] => true | _ => false end).
Proof.
  induction l as [|x l IH]; simpl; [reflexivity|].
  destruct (m x); simpl; [reflexivity | exact IH].
Qed.

Lemma filter_pair_unique (order_df : DataFrame) (r : Row) :
  NoDup (map PrimaryKey order_df) ->
  (length (filter (fun e : option string * option string =>
                     ostr_eqb (PrimaryKey r) (fst e)
                     && ostr_eqb (OrderStatus r) (snd e))
             (map (fun o => (PrimaryKey o, OrderStatus o)) order_df)) <= 1)%nat.
Proof.
  induction order_df as [|o l IH]; simpl; intros HN; [lia|].
  inversion HN as [|? ? Hnin HN']; subst.
  destruct (ostr_eqb (PrimaryKey r) (PrimaryKey o)) eqn:E; simpl;
    [|apply IH, HN'].
  apply ostr_eqb_eq in E.
  assert (Hnone : filter (fun e : option string * option string =>
                     ostr_eqb (PrimaryKey r) (fst e)
                     && ostr_eqb (OrderStatus r) (snd e))
             (map (fun o => (PrimaryKey o, OrderStatus o)) l) = []).
  { apply filter_none. intros e He. apply in_map_iff in He.
    destruct He as [o' [<- Ho']]. simpl.
    destruct (ostr_eqb (PrimaryKey r) (PrimaryKey o')) eqn:E'; [|reflexivity].
    apply ostr_eqb_eq in E'. exfalso. apply Hnin.
    rewrite <- E, E'. apply in_map, Ho'. }
  rewrite Hnone. destruct (ostr_eqb (OrderStatus r) (OrderStatus o)); simpl; lia.
Qed.

Lemma has_counterpart_map (order_df : DataFrame) (r : Row) :
  has_counterpart order_df r =
  existsb (fun e : option string * option string =>
             ostr_eqb (PrimaryKey r) (fst e) && ostr_eqb (OrderStatus r) (snd e))
          (map (fun o => (PrimaryKey o, OrderStatus o)) order_df).
Proof.
  unfold has_counterpart. induction order_df as [|o l IH]; simpl;
    [reflexivity|]. rewrite IH. reflexivity.
Qed.

(** On an order frame with unique keys the merge followed by the
    [TempColumn] filter keeps exactly the item rows with a counterpart,
    each once and unchanged. *)
Lemma filter_stage_semijoin (order_df df : DataFrame) :
  NoDup (map PrimaryKey order_df) ->
  filter_stage order_df df = filter (has_counterpart order_df) df.
Proof.
  intros HN. unfold filter_stage, merge_with_orders.
  induction df as [|r df IH]; simpl; [reflexivity|].
  rewrite filter_app, map_app, IH. clear IH.
  rewrite has_counterpart_map, existsb_filter_nil.
  pose proof (filter_pair_unique order_df r HN) as Hlen.
  unfold merge_left.
  destruct (filter _ (map (fun o => (PrimaryKey o, OrderStatus o)) order_df))
    as [|e [|e' ms]]; simpl in *; try reflexivity.
  lia.
Qed.

(** ** Aggregation and the balancing records *)

Lemma group_of_In (k : string) (df : DataFrame) (r : Row) :
  In r (group_of k df) <-> In r df /\ PrimaryKey r = Some k.
Proof.
  unfold group_of. rewrite filter_In, ostr_eqb_eq. tauto.
Qed.

Lemma group_keys_In (df : DataFrame) (k : string) :
  In k (group_keys df) <-> In (Some k) (map PrimaryKey df).
Proof.
  unfold group_keys.
  rewrite (sort_In (fun s : string => s) String.compare), nodup_In, in_flat_map.
  rewrite in_map_iff. split.
  - intros [r [Hr Hk]]. exists r. split; [|exact Hr].
    destruct (PrimaryKey r) as [k'|]; simpl in Hk; [|tauto].
    destruct Hk as [->|[]]. reflexivity.
  - intros [r [Ek Hr]]. exists r. split; [exact Hr|].
    rewrite Ek. left. reflexivity.
Qed.

Lemma group_keys_NoDup (df : DataFrame) : NoDup (group_keys df).
Proof.
  unfold group_keys.
  eapply Permutation_NoDup;
    [apply Permutation_sym, (sort_perm (fun s : string => s) String.compare)|].
  apply NoDup_nodup.
Qed.

Lemma group_of_nonempty (df : DataFrame) (k : string) :
  In (Some k) (map PrimaryKey df) -> group_of k df <> [].
Proof.
  intros H E. apply in_map_iff in H. destruct H as [r [Ek Hr]].
  assert (Hin : In r (group_of k df)) by (apply group_of_In; tauto).
  rewrite E in Hin. exact Hin.
Qed.

Lemma group_of_empty (df : DataFrame) (k : string) :
  ~ In (Some k) (map PrimaryKey df) -> group_of k df = [].
Proof.
  intros H. unfold group_of. apply filter_none. intros r Hr.
  destruct (ostr_eqb (PrimaryKey r) (Some k)) eqn:E; [|reflexivity].
  apply ostr_eqb_eq in E. exfalso. apply H. rewrite <- E. apply in_map, Hr.
Qed.

(** The new records, group by group. *)
Lemma new_records_by_group (df : DataFrame) :
  new_records df = flat_map (fun k => balancing_for k df) (group_keys df).
Proof.
  unfold new_records, consolidate.
  induction (group_keys df) as [|k ks IH]; simpl; [reflexivity|].
  rewrite filter_app, flat_map_app, IH. f_equal.
  unfold balancing_for, group_total.
  destruct (group_of k df) as [|r0 rest] eqn:E; simpl; [reflexivity|].
  destruct (Check _) eqn:EC; simpl; [reflexivity|].
  rewrite E. reflexivity.
Qed.

Lemma balancing_for_key (k : string) (df : DataFrame) (b : Row) :
  In b (balancing_for k df) -> PrimaryKey b = Some k.
Proof.
  unfold balancing_for. destruct (group_of k df) as [|r0 rest]; [intros []|].
  destruct (Check _); [intros []|]. intros [<-|[]]. reflexivity.
Qed.

Lemma group_of_flat_map (f : string -> DataFrame) (keys : list string)
  (k : string) :
  NoDup keys ->
  (forall k' b, In b (f k') -> PrimaryKey b = Some k') ->
  group_of k (flat_map f keys) = if in_dec string_dec k keys then f k else [].
Proof.
  intros HN Hf. induction keys as [|k' ks IH]; simpl; [reflexivity|].
  inversion HN as [|? ? Hnin HN']; subst.
  unfold group_of in *. rewrite filter_app, (IH HN'). clear IH.
  destruct (string_dec k' k) as [->|Hne].
  - destruct (in_dec string_dec k ks) as [Hin|_]; [contradiction|].
    rewrite app_nil_r. apply forallb_filter_id, forallb_forall.
    intros b Hb. apply ostr_eqb_eq, (Hf k b Hb).
  - rewrite (filter_none _ (f k')).
    + simpl. destruct (in_dec string_dec k ks); reflexivity.
    + intros b Hb. destruct (ostr_eqb (PrimaryKey b) (Some k)) eqn:E;
        [|reflexivity].
      apply ostr_eqb_eq in E. rewrite (Hf k' b Hb) in E. congruence.
Qed.

(** The new records of one group. *)
Lemma group_of_new_records (k : string) (df : DataFrame) :
  group_of k (new_records df) = balancing_for k df.
Proof.
  rewrite new_records_by_group.
  rewrite group_of_flat_map;
    [|apply group_keys_NoDup | intros k' b; apply balancing_for_key].
  destruct (in_dec string_dec k (group_keys df)) as [_|Hn]; [reflexivity|].
  unfold balancing_for. rewrite group_of_empty; [reflexivity|].
  intros H. apply Hn, group_keys_In, H.
Qed.

Lemma new_records_In (df : DataFrame) (b : Row) :
  In b (new_records df) ->
  exists k, PrimaryKey b = Some k /\ In b (balancing_for k df).
Proof.
  rewrite new_records_by_group, in_flat_map.
  intros [k [_ Hb]]. exists k. split; [|exact Hb].
  apply (balancing_for_key k df b Hb).
Qed.

(** A row without PrimaryKey belongs to no group: no balancing record is
    ever made for such rows. *)
Remark new_records_have_key (df : DataFrame) (b : Row) :
  In b (new_records df) -> PrimaryKey b <> None.
Proof.
  intros H. apply new_records_In in H. destruct H as [k [E _]]. congruence.
Qed.

Lemma reconcile_In (df : DataFrame) (r : Row) :
  In r (reconcile df) <-> In r df \/ In r (new_records df).
Proof.
  unfold reconcile, final_sort, balance.
  rewrite (sort_In final_key final_cmp), in_app_iff. tauto.
Qed.

(** ** The balancing stage in binary64 arithmetic *)

Lemma Qabs_zero (x : Q) : Qabs x == 0 -> x == 0.
Proof.
  intros H. assert (Hle : Qabs x <= 0) by (rewrite H; apply Qle_refl).
  apply Qabs_Qle_condition in Hle. destruct Hle as [H1 H2].
  apply Qle_antisym; [exact H2|].
  setoid_replace 0 with (- 0) by reflexivity. exact H1.
Qed.

Lemma Qabs_bounds (x : Q) : - Qabs x <= x /\ x <= Qabs x.
Proof. apply Qabs_Qle_condition, Qle_refl. Qed.

Section Binary64Facts.
Variable a : Arithmetic.

Lemma Check_with_spec (row : Consolidated) :
  Check_with a row = true <->
  Qabs (minus a (cGrossAOV row) (cTotalPrice row)) < tolerance.
Proof. apply Qltb_lt. Qed.

Lemma new_records_with_by_group (df : DataFrame) :
  new_records_with a df =
  flat_map (fun k => balancing_for_with a k df) (group_keys df).
Proof.
  unfold new_records_with, consolidate_with.
  induction (group_keys df) as [|k ks IH]; simpl; [reflexivity|].
  rewrite filter_app, flat_map_app, IH. f_equal.
  unfold balancing_for_with, computed_total.
  destruct (group_of k df) as [|r0 rest] eqn:E; simpl; [reflexivity|].
  destruct (Check_with a _) eqn:EC; simpl; [reflexivity|].
  rewrite E. reflexivity.
Qed.

Lemma balancing_for_with_key (k : string) (df : DataFrame) (b : Row) :
  In b (balancing_for_with a k df) -> PrimaryKey b = Some k.
Proof.
  unfold balancing_for_with.
  destruct (group_of k df) as [|r0 rest]; [intros []|].
  destruct (Check_with a _); [intros []|]. intros [<-|[]]. reflexivity.
Qed.

Lemma group_of_new_records_with (k : string) (df : DataFrame) :
  group_of k (new_records_with a df) = balancing_for_with a k df.
Proof.
  rewrite new_records_with_by_group.
  rewrite group_of_flat_map;
    [|apply group_keys_NoDup | intros k' b; apply balancing_for_with_key].
  destruct (in_dec string_dec k (group_keys df)) as [_|Hn]; [reflexivity|].
  unfold balancing_for_with. rewrite group_of_empty; [reflexivity|].
  intros H. apply Hn, group_keys_In, H.
Qed.

Lemma group_of_reconcile_with (k : string) (df : DataFrame) :
  group_of k (reconcile_with a df) =
  stable_sort final_key final_cmp (group_of k df ++ balancing_for_with a k df).
Proof.
  unfold reconcile_with, final_sort, group_of at 1.
  rewrite (filter_sort final_key final_cmp), filter_app.
  fold (group_of k df). fold (group_of k (new_records_with a df)).
  rewrite group_of_new_records_with. reflexivity.
Qed.

Lemma reconcile_with_key_in_input (df : DataFrame) (k : string) :
  In (Some k) (map PrimaryKey (reconcile_with a df)) ->
  In (Some k) (map PrimaryKey df).
Proof.
  intros H. apply in_map_iff in H. destruct H as [r [Ek Hr]].
  assert (Hg : In r (group_of k (reconcile_with a df)))
    by (apply group_of_In; split; assumption).
  rewrite group_of_reconcile_with in Hg.
  apply -> (sort_In final_key final_cmp) in Hg.
  destruct (group_of k df) as [|r0 rest] eqn:E.
  - unfold balancing_for_with in Hg. rewrite E in Hg. destruct Hg.
  - assert (H0 : In r0 (group_of k df)) by (rewrite E; left; reflexivity).
    apply group_of_In in H0. destruct H0 as [H0 E0].
    rewrite <- E0. apply in_map, H0.
Qed.

(** The two cases of the reconciliation check on one group. *)
Lemma balancing_for_with_cases (k : string) (df : DataFrame) (r0 : Row)
  (rest : list Row) :
  group_of k df = r0 :: rest ->
  (Qabs (minus a (GrossAOV r0) (computed_total a k df)) < tolerance /\
   balancing_for_with a k df = []) \/
  (~ Qabs (minus a (GrossAOV r0) (computed_total a k df)) < tolerance /\
   balancing_for_with a k df =
   [new_record_with a
      (mkConsolidated k (computed_total a k df) (GrossAOV r0)) r0]).
Proof.
  intros E. unfold balancing_for_with. rewrite E. cbv zeta.
  pose proof (Check_with_spec
                (mkConsolidated k (computed_total a k df) (GrossAOV r0)))
    as HC. cbn [cGrossAOV cTotalPrice] in HC.
  destruct (Check_with a
              (mkConsolidated k (computed_total a k df) (GrossAOV r0))).
  - left. split; [apply HC; reflexivity | reflexivity].
  - right. split; [|reflexivity]. intros H. apply HC in H. discriminate.
Qed.

Lemma group_total_reconcile_with (k : string) (df : DataFrame) :
  group_total k (reconcile_with a df) ==
  group_total k df + Qsum (map TotalPrice (balancing_for_with a k df)).
Proof.
  unfold group_total. rewrite group_of_reconcile_with.
  rewrite <- Qsum_app, <- map_app.
  apply Qsum_perm, Permutation_map, (sort_perm final_key final_cmp).
Qed.

(** After reconciliation the total of a group is as far from the
    GrossAOV of its first row as the tolerance and the two rounding
    errors allow. *)
Lemma group_total_bound (k : string) (df : DataFrame) (r0 : Row)
  (rest : list Row) :
  group_of k df = r0 :: rest ->
  Qabs (GrossAOV r0 - group_total k (reconcile_with a df))
  < tolerance + sum_error a k df + difference_error a (GrossAOV r0) k df.
Proof.
  intros E. rewrite group_total_reconcile_with.
  unfold sum_error, difference_error.
  set (g := GrossAOV r0). set (s := computed_total a k df).
  set (t := group_total k df).
  destruct (Qabs_bounds (s - t)) as [S1 S2].
  destruct (Qabs_bounds (minus a g s - (g - s))) as [D1 D2].
  assert (Htol : 0 < tolerance) by reflexivity.
  destruct (balancing_for_with_cases k df r0 rest E) as [[Hlt ->]|[_ ->]].
  - change (Qsum (map TotalPrice [])) with 0.
    fold g s in Hlt. apply Qabs_Qlt_condition in Hlt. destruct Hlt as [L1 L2].
    apply Qabs_Qlt_condition. split; lra.
  - unfold Qsum.
    cbn [map fold_left TotalPrice new_record_with cGrossAOV cTotalPrice].
    fold g s. apply Qabs_Qlt_condition. split; lra.
Qed.

Lemma exact_group_total (k : string) (df : DataFrame) (r0 : Row)
  (rest : list Row) :
  group_of k df = r0 :: rest ->
  sum_error a k df == 0 -> difference_error a (GrossAOV r0) k df == 0 ->
  Qabs (GrossAOV r0 - group_total k (reconcile_with a df)) < tolerance.
Proof.
  intros E H1 H2. pose proof (group_total_bound k df r0 rest E) as H.
  rewrite H1, H2 in H.
  setoid_replace (tolerance + 0 + 0) with tolerance in H by ring. exact H.
Qed.

(** The rows of the reconciled group carry the GrossAOV of the first
    row when the rows of the group do. *)
Lemma uniform_group_with (k : string) (df : DataFrame) (r0 : Row)
  (rest : list Row) :
  group_of k df = r0 :: rest ->
  (forall r, In r (group_of k df) -> GrossAOV r = GrossAOV r0) ->
  forall r, In r (group_of k (reconcile_with a df)) -> GrossAOV r = GrossAOV r0.
Proof.
  intros E Hu r Hr. rewrite group_of_reconcile_with in Hr.
  apply -> (sort_In final_key final_cmp) in Hr.
  apply in_app_or in Hr. destruct Hr as [Hr|Hr]; [apply Hu, Hr|].
  destruct (balancing_for_with_cases k df r0 rest E) as [[_ Eb]|[_ Eb]];
    rewrite Eb in Hr; [destruct Hr|].
  destruct Hr as [<-|[]]. reflexivity.
Qed.

Lemma balanced_with_no_new_records (df : DataFrame) :
  balanced_with a df -> new_records_with a df = [].
Proof.
  intros Hb. rewrite new_records_with_by_group.
  induction (group_keys df) as [|k ks IH]; simpl; [reflexivity|].
  rewrite IH, app_nil_r.
  destruct (group_of k df) as [|r0 rest] eqn:E.
  - unfold balancing_for_with. rewrite E. reflexivity.
  - destruct (balancing_for_with_cases k df r0 rest E) as [[_ Eb]|[Hn _]];
      [exact Eb|].
    exfalso. apply Hn, (Hb k r0 rest E).
Qed.

Lemma no_new_records_balanced_with (df : DataFrame) :
  new_records_with a df = [] -> balanced_with a df.
Proof.
  intros Hn k r0 rest E.
  destruct (balancing_for_with_cases k df r0 rest E) as [[Hlt _]|[_ Eb]];
    [exact Hlt|].
  exfalso.
  assert (Hb : group_of k (new_records_with a df) <> []).
  { rewrite group_of_new_records_with, Eb. discriminate. }
  apply Hb. rewrite Hn. reflexivity.
Qed.
End Binary64Facts.

(** With exact operations the stages are those of the exact amounts. *)
Lemma exact_stages :
  (forall df, price_stage_with exact_arithmetic df = price_stage df) /\
  (forall df, new_records_with exact_arithmetic df = new_records df) /\
  (forall df, reconcile_with exact_arithmetic df = reconcile df) /\
  (forall cleaned_names repair_encoding orders items,
     item_loader_with exact_arithmetic cleaned_names repair_encoding
       orders items
     = load_deliverect_item_level_detail_data cleaned_names repair_encoding
         orders items) /\
  (forall df, exact_on exact_arithmetic df).
Proof.
  repeat split; try reflexivity.
  - unfold sum_error, computed_total, group_total. cbn [group_sum exact_arithmetic].
    setoid_replace (Qsum (map TotalPrice (group_of k df))
                    - Qsum (map TotalPrice (group_of k df))) with 0 by ring.
    reflexivity.
  - unfold difference_error. cbn [minus exact_arithmetic].
    set (x := (GrossAOV r0 - computed_total exact_arithmetic k df)%Q).
    setoid_replace (x - x) with 0 by ring. reflexivity.
Qed.

(** C1 (as amended).  Amounts are present and finite, in binary64 or
    exact.  For every PrimaryKey of the reconciled frame, the rows of
    that key are those of the input and the new records of the key: none
    when the check passed, exactly one otherwise, with ItemPrice and
    TotalPrice equal to the computed difference between the GrossAOV and
    the computed sum, the name "Balancing Item", the PLU "x-xx-xxx-x" and
    quantity 1.  The GrossAOV of the check is the one of the first row of
    the group in the frame that enters the stage.  The sum of TotalPrice
    over the output rows of the key differs from it by less than 0.001
    plus the rounding errors of the computed sum and of the computed
    difference: by less than 0.001 when the two operations are exact on
    the group.  When the rows of the group carry one GrossAOV, every
    output row of the key carries it. *)
Theorem conservation (a : Arithmetic) (df : DataFrame) (k : string) :
  In (Some k) (map PrimaryKey (reconcile_with a df)) ->
  exists r0 rest,
    group_of k df = r0 :: rest /\
    Permutation (group_of k (reconcile_with a df))
                (group_of k df ++ group_of k (new_records_with a df)) /\
    (Qabs (minus a (GrossAOV r0) (computed_total a k df)) < tolerance ->
     group_of k (new_records_with a df) = []) /\
    (~ Qabs (minus a (GrossAOV r0) (computed_total a k df)) < tolerance ->
     exists b,
       group_of k (new_records_with a df) = [b] /\
       PrimaryKey b = Some k /\
       ItemPrice b = minus a (GrossAOV r0) (computed_total a k df) /\
       TotalPrice b = minus a (GrossAOV r0) (computed_total a k df) /\
       ProductName b = Some "Balancing Item" /\
       ProductPLU b = Some "x-xx-xxx-x" /\
       ItemQuantities b = 1%Z /\
       GrossAOV b = GrossAOV r0) /\
    Qabs (GrossAOV r0 - group_total k (reconcile_with a df))
    < tolerance + sum_error a k df + difference_error a (GrossAOV r0) k df /\
    (sum_error a k df == 0 ->
     difference_error a (GrossAOV r0) k df == 0 ->
     Qabs (GrossAOV r0 - group_total k (reconcile_with a df)) < tolerance) /\
    ((forall r, In r (group_of k df) -> GrossAOV r = GrossAOV r0) ->
     forall r, In r (group_of k (reconcile_with a df)) ->
       GrossAOV r = GrossAOV r0).
Proof.
  intros Hin. apply reconcile_with_key_in_input in Hin.
  pose proof (group_of_nonempty df k Hin) as Hne.
  destruct (group_of k df) as [|r0 rest] eqn:E; [congruence|]. clear Hne.
  exists r0, rest. split; [reflexivity|].
  split.
  { rewrite group_of_reconcile_with, group_of_new_records_with, E.
    apply (sort_perm final_key final_cmp). }
  assert (Hrest :
    Qabs (GrossAOV r0 - group_total k (reconcile_with a df))
    < tolerance + sum_error a k df + difference_error a (GrossAOV r0) k df /\
    (sum_error a k df == 0 ->
     difference_error a (GrossAOV r0) k df == 0 ->
     Qabs (GrossAOV r0 - group_total k (reconcile_with a df)) < tolerance) /\
    ((forall r, In r (r0 :: rest) -> GrossAOV r = GrossAOV r0) ->
     forall r, In r (group_of k (reconcile_with a df)) ->
       GrossAOV r = GrossAOV r0)).
  { split; [apply (group_total_bound a k df r0 rest E)|].
    split; [apply (exact_group_total a k df r0 rest E)|].
    intros Hu. apply (uniform_group_with a k df r0 rest E).
    rewrite E. exact Hu. }
  rewrite group_of_new_records_with.
  destruct (balancing_for_with_cases a k df r0 rest E) as [[Hlt ->]|[Hn ->]].
  - split; [reflexivity|]. split; [intros H; contradiction | exact Hrest].
  - split; [intros H; contradiction|]. split; [|exact Hrest]. intros _.
    eexists. split; [reflexivity|]. cbn. repeat split; reflexivity.
Qed.

Lemma conservation_witness :
  exists r0 rest,
    group_of "A" scenario_frame = r0 :: rest /\
    Qabs (GrossAOV r0
          - group_total "A" (reconcile_with exact_arithmetic scenario_frame))
    < tolerance /\
    exists b,
      group_of "A" (new_records_with exact_arithmetic scenario_frame) = [b] /\
      ProductName b = Some "Balancing Item".
Proof.
  destruct (conservation exact_arithmetic scenario_frame "A")
    as (r0 & rest & E & _ & _ & Hb & _ & Hx & _).
  { vm_compute. left. reflexivity. }
  exists r0, rest. split; [exact E|].
  destruct (proj2 (proj2 (proj2 (proj2 exact_stages))) scenario_frame
              "A" r0 rest E) as [X1 X2].
  split; [exact (Hx X1 X2)|].
  destruct Hb as (b & Eb & _ & _ & _ & Hname & _).
  { vm_compute in E. injection E as <- _. intros H. vm_compute in H.
    discriminate H. }
  exists b. split; assumption.
Defined.

(** C1, the input on which it fails: the two item rows of one order
    report the GrossAOV 12 and 15, and the row reporting 15 was placed an
    hour before the other, which is stacked first.  The check takes the
    12 of the first stacked row and the balancing record brings the
    total of the key to 12; in the output the key's rows carry 15, 12 and
    12, its first row carries 15, and the total is 3 away from it. *)
Lemma conservation_fails_on_output :
  let output :=
    load_deliverect_item_level_detail_data sample_names no_repair
      [order_1] [burger; early_fries] in
  let k := "#1 - Berlin - 2023-01-05" in
  map (fun r => (PrimaryKey r, ProductName r, GrossAOV r)) output
  = [(Some k, Some "Fries", 15); (Some k, Some "Burger", 12);
     (Some k, Some "Balancing Item", 12)] /\
  group_total k output == 12 /\
  exists r0 rest,
    group_of k output = r0 :: rest /\
    GrossAOV r0 = 15 /\
    ~ Qabs (GrossAOV r0 - group_total k output) < tolerance.
Proof.
  cbv zeta. split; [vm_compute; reflexivity|].
  split; [vm_compute; reflexivity|].
  do 2 eexists. split; [vm_compute; reflexivity|].
  split; [reflexivity|]. intros H. vm_compute in H. discriminate.
Qed.

(** C5 (as amended). On the scenario the two items get the totals
    5.00 x 2 = 10.00 and 3.00 x 1 = 3.00, the aggregated TotalPrice of key
    "A" is 13.00 against a GrossAOV of 10.00, the check fails, and exactly
    one balancing record is appended, with price and total -3.00. *)
Theorem scenario_balancing :
  exists i1 i2 row b,
    scenario_frame = [i1; i2] /\
    ItemPrice i1 == 5 /\ TotalPrice i1 == 10 /\
    ItemPrice i2 == 3 /\ TotalPrice i2 == 3 /\
    consolidate scenario_frame = [row] /\
    cPrimaryKey row = "A" /\ cTotalPrice row == 13 /\ cGrossAOV row == 10 /\
    Check row = false /\
    new_records scenario_frame = [b] /\
    PrimaryKey b = Some "A" /\
    ProductName b = Some "Balancing Item" /\
    ItemPrice b == -3 /\ TotalPrice b == -3 /\
    Permutation (reconcile scenario_frame) [i1; i2; b].
Proof.
  do 4 eexists.
  split; [vm_compute; reflexivity|].
  do 4 (split; [vm_compute; reflexivity|]).
  split; [vm_compute; reflexivity|].
  split; [reflexivity|].
  do 2 (split; [vm_compute; reflexivity|]).
  split; [vm_compute; reflexivity|].
  split; [vm_compute; reflexivity|].
  split; [reflexivity|]. split; [reflexivity|].
  do 2 (split; [vm_compute; reflexivity|]).
  unfold reconcile, final_sort, balance.
  etransitivity; [apply (sort_perm final_key final_cmp)|].
  vm_compute. reflexivity.
Qed.

(** C5, as stated, fails on its own scenario: the aggregated TotalPrice is
    not 8.00 and the balancing record does not carry 2.00. *)
Lemma scenario_sum_is_not_eight :
  exists row b,
    consolidate scenario_frame = [row] /\
    new_records scenario_frame = [b] /\
    ~ cTotalPrice row == 8 /\
    ~ cGrossAOV row - cTotalPrice row == 2 /\
    ~ ItemPrice b == 2 /\ ~ TotalPrice b == 2.
Proof.
  do 2 eexists.
  split; [vm_compute; reflexivity|].
  split; [vm_compute; reflexivity|].
  repeat split; intros H; vm_compute in H; discriminate.
Qed.

(** ** Balancing a balanced frame *)

(** C7 (as amended).  Amounts are present and finite, in binary64 or
    exact.  The balancing stage creates no record exactly for a frame
    all of whose groups pass the check (the computed difference between
    the GrossAOV of the group's first row and the computed sum is below
    the tolerance); such a frame is returned unchanged up to the final
    sort.  The stage's own output is such a frame, and running the stage
    on it returns it as it is, when the rows of each group carry one
    GrossAOV and the sum and the difference are exact on the groups of
    the frame and of the output. *)
Theorem balancing_idempotent (a : Arithmetic) (df : DataFrame) :
  (new_records_with a df = [] <-> balanced_with a df) /\
  (balanced_with a df ->
   new_records_with a df = [] /\
   df ++ new_records_with a df = df /\
   reconcile_with a df = final_sort df) /\
  (uniform_aov df -> exact_on a df -> exact_on a (reconcile_with a df) ->
   balanced_with a (reconcile_with a df) /\
   new_records_with a (reconcile_with a df) = [] /\
   reconcile_with a (reconcile_with a df) = reconcile_with a df).
Proof.
  split; [|split].
  - split; [apply no_new_records_balanced_with
           | apply balanced_with_no_new_records].
  - intros Hb. pose proof (balanced_with_no_new_records a df Hb) as E.
    unfold reconcile_with. rewrite E, app_nil_r. auto.
  - intros Hu Hx Hx'.
    assert (Hb : balanced_with a (reconcile_with a df)).
    { intros k r1 rest1 E1.
      assert (Hin1 : In r1 (group_of k (reconcile_with a df)))
        by (rewrite E1; left; reflexivity).
      pose proof Hin1 as Hin. rewrite group_of_reconcile_with in Hin.
      apply -> (sort_In final_key final_cmp) in Hin.
      destruct (group_of k df) as [|r0 rest] eqn:E.
      { unfold balancing_for_with in Hin. rewrite E in Hin. destruct Hin. }
      assert (Haov : GrossAOV r1 = GrossAOV r0).
      { apply (uniform_group_with a k df r0 rest E); [|exact Hin1].
        intros r Hr. apply (Hu k); [exact Hr | rewrite E; left; reflexivity]. }
      destruct (Hx k r0 rest E) as [X1 X2].
      destruct (Hx' k r1 rest1 E1) as [Y1 Y2].
      pose proof (exact_group_total a k df r0 rest E X1 X2) as Hlaw.
      apply Qabs_zero in Y1, Y2. rewrite Haov in Y2 |- *.
      setoid_replace (minus a (GrossAOV r0)
                        (computed_total a k (reconcile_with a df)))
        with (GrossAOV r0 - group_total k (reconcile_with a df)); [exact Hlaw|].
      lra. }
    split; [exact Hb|].
    pose proof (balanced_with_no_new_records a _ Hb) as En.
    split; [exact En|].
    unfold reconcile_with at 1. rewrite En, app_nil_r.
    unfold reconcile_with, final_sort.
    apply (sort_idempotent final_key final_cmp).
Qed.

Lemma balancing_idempotent_witness :
  new_records_with exact_arithmetic
    (reconcile_with exact_arithmetic scenario_frame) = [] /\
  reconcile_with exact_arithmetic (reconcile_with exact_arithmetic scenario_frame)
  = reconcile_with exact_arithmetic scenario_frame.
Proof.
  destruct (balancing_idempotent exact_arithmetic scenario_frame)
    as (_ & _ & H).
  destruct H as (_ & H1 & H2).
  - intros k r r' Hr Hr'.
    apply group_of_In in Hr, Hr'. destruct Hr as [Hr _], Hr' as [Hr' _].
    destruct Hr as [<-|[<-|[]]]; destruct Hr' as [<-|[<-|[]]]; reflexivity.
  - apply exact_stages.
  - apply exact_stages.
  - split; assumption.
Defined.

(** C7, the input on which it fails: on the stage's own output for the
    two item rows that report the GrossAOV 12 and 15, a second run takes
    the 15 of the row the final sort has put first, finds the total of 12
    out of balance and appends a second balancing record. *)
Lemma second_run_adds_a_record :
  let output :=
    load_deliverect_item_level_detail_data sample_names no_repair
      [order_1] [burger; early_fries] in
  map ProductName output
  = [Some "Fries"; Some "Burger"; Some "Balancing Item"] /\
  map (fun r => (ProductName r, GrossAOV r)) (new_records output)
  = [(Some "Balancing Item", 15)] /\
  map ProductName (reconcile output)
  = [Some "Fries"; Some "Balancing Item"; Some "Burger";
     Some "Balancing Item"] /\
  reconcile output <> final_sort output.
Proof.
  cbv zeta. split; [vm_compute; reflexivity|].
  split; [vm_compute; reflexivity|].
  split; [vm_compute; reflexivity|].
  intros H. apply (f_equal (@length Row)) in H. vm_compute in H.
  discriminate.
Qed.

(** ** Where binary64 cells depart from exact amounts *)

(** With a GrossAOV of 2^53 + 2 and one item of 1.0, the balancing amount
    2^53 + 1 is rounded to 2^53; the total of the item and the balancing
    record is 2^53 again, 2 away from the GrossAOV, and the check fails on
    the balanced group as it did before. *)
Example rounding_breaks_conservation :
  let gross_aov := Binary64.of_Z (2 ^ 53 + 2) in
  let item := Binary64.of_Z 1 in
  let balancing := balancing_amount64 gross_aov item in
  Check64 gross_aov item = false /\
  balancing = Binary64.of_Z (2 ^ 53) /\
  Binary64.add item balancing = Binary64.of_Z (2 ^ 53) /\
  Binary64.sub gross_aov (Binary64.add item balancing) = Binary64.of_Z 2 /\
  Check64 gross_aov (Binary64.add item balancing) = false.
Proof. vm_compute. repeat split; reflexivity. Qed.

(** A missing GrossAOV fails the check whatever the total is, and the
    balancing record gets a missing price and total. *)
Example missing_amount_gives_nan_record (total_price : spec_float) :
  Check64 S754_nan total_price = false /\
  balancing_amount64 S754_nan total_price = S754_nan.
Proof. destruct total_price; split; reflexivity. Qed.

(** When adding the balancing amount to the total gives the GrossAOV
    back, a finite one, the check passes on the balanced group. *)
Remark exact_balancing_passes (sign : bool) (m : positive) (e : Z)
  (total_price : spec_float) :
  let gross_aov := S754_finite sign m e in
  Binary64.add total_price (balancing_amount64 gross_aov total_price)
  = gross_aov ->
  Check64 gross_aov
    (Binary64.add total_price (balancing_amount64 gross_aov total_price))
  = true.
Proof.
  cbv zeta. intros ->. unfold Check64, Binary64.sub, SFsub.
  rewrite Z.min_id. unfold shl_align. rewrite Z.sub_diag. cbn [fst].
  reflexivity.
Qed.

(** ** The item loader *)

Lemma price_stage_map (df : DataFrame) : price_stage df = map price_row df.
Proof. unfold price_stage. rewrite map_map. reflexivity. Qed.

Lemma has_counterpart_ext (order_df : DataFrame) (r r' : Row) :
  PrimaryKey r = PrimaryKey r' -> OrderStatus r = OrderStatus r' ->
  has_counterpart order_df r = has_counterpart order_df r'.
Proof. unfold has_counterpart. intros -> ->. reflexivity. Qed.

Lemma new_records_origin (df : DataFrame) (b : Row) :
  In b (new_records df) ->
  exists m, In m df /\
    PrimaryKey b = PrimaryKey m /\ OrderStatus b = OrderStatus m /\
    GrossAOV b = GrossAOV m /\ PromotionsOnItems b = PromotionsOnItems m /\
    DeliveryCost b = DeliveryCost m /\ Tip b = Tip m /\
    TotalOrderAmount b = TotalOrderAmount m.
Proof.
  intros H. apply new_records_In in H. destruct H as [k [Ek Hb]].
  unfold balancing_for in Hb.
  destruct (group_of k df) as [|m rest] eqn:E; [destruct Hb|].
  assert (Hm : In m (group_of k df)) by (rewrite E; left; reflexivity).
  apply group_of_In in Hm. destruct Hm as [Hm Em].
  cbv zeta in Hb. destruct (Check _); [destruct Hb|].
  destruct Hb as [<-|[]]. exists m. cbn. rewrite Em. tauto.
Qed.

Section ItemLoader.
Variable cleaned_names : NameTable.
Variable repair_encoding : string -> string.
Variable orders : DataFrame.
Variable items : DataFrame.

Local Abbreviation order_df :=
  (load_deliverect_order_data cleaned_names repair_encoding orders).
Local Abbreviation item_df :=
  (clean_deliverect_product_name repair_encoding
     (process_deliverect_shared_data cleaned_names items)).
Local Abbreviation output :=
  (load_deliverect_item_level_detail_data cleaned_names repair_encoding
     orders items).

Lemma order_df_NoDup : NoDup (map PrimaryKey order_df).
Proof. apply dedup_NoDup. Qed.

Lemma output_unfold :
  output = reconcile (map price_row (filter (has_counterpart order_df) item_df)).
Proof.
  unfold load_deliverect_item_level_detail_data.
  rewrite price_stage_map, (filter_stage_semijoin _ _ order_df_NoDup).
  reflexivity.
Qed.

(** Every row of the output descends from an item row with a
    counterpart and has its key, status and order-level amounts. *)
Lemma output_origin (r : Row) :
  In r output ->
  exists r0, In r0 item_df /\ has_counterpart order_df r0 = true /\
    PrimaryKey r = PrimaryKey r0 /\ OrderStatus r = OrderStatus r0 /\
    GrossAOV r = GrossAOV r0 /\ PromotionsOnItems r = PromotionsOnItems r0 /\
    DeliveryCost r = DeliveryCost r0 /\ Tip r = Tip r0 /\
    TotalOrderAmount r = TotalOrderAmount r0.
Proof.
  rewrite output_unfold. intros H. apply reconcile_In in H.
  assert (Hrow : forall m,
    In m (map price_row (filter (has_counterpart order_df) item_df)) ->
    exists r0, In r0 item_df /\ has_counterpart order_df r0 = true /\
      m = price_row r0).
  { intros m Hm. apply in_map_iff in Hm. destruct Hm as [r0 [<- H0]].
    apply filter_In in H0. exists r0. tauto. }
  destruct H as [H|H].
  - destruct (Hrow r H) as [r0 [H0 [Hc ->]]]. exists r0. cbn. tauto.
  - apply new_records_origin in H.
    destruct H as [m [Hm [E1 [E2 [E3 [E4 [E5 [E6 E7]]]]]]]].
    destruct (Hrow m Hm) as [r0 [H0 [Hc ->]]]. exists r0.
    rewrite E1, E2, E3, E4, E5, E6, E7. cbn. tauto.
Qed.

Lemma output_has_counterpart (r : Row) :
  In r output -> has_counterpart order_df r = true.
Proof.
  intros H. apply output_origin in H.
  destruct H as [r0 [_ [Hc [E1 [E2 _]]]]].
  rewrite (has_counterpart_ext order_df r r0 E1 E2). exact Hc.
Qed.
End ItemLoader.

(** C3. The merge with the de-duplicated orders followed by the
    [TempColumn] filter keeps exactly the item rows whose
    (PrimaryKey, OrderStatus) pair is the pair of a row of the
    de-duplicated order frame, each once and unchanged; every row of the
    reconciled output has such a pair; and an item row whose pair has no
    counterpart shares its pair with no row of the output, whatever other
    rows of its key the output holds. *)
Theorem semi_join (cleaned_names : NameTable)
  (repair_encoding : string -> string) (orders items : DataFrame) :
  let order_df :=
    load_deliverect_order_data cleaned_names repair_encoding orders in
  let item_df :=
    clean_deliverect_product_name repair_encoding
      (process_deliverect_shared_data cleaned_names items) in
  let output :=
    load_deliverect_item_level_detail_data cleaned_names repair_encoding
      orders items in
  filter_stage order_df item_df = filter (has_counterpart order_df) item_df /\
  (forall r, In r output ->
     exists o, In o order_df /\ PrimaryKey r = PrimaryKey o /\
               OrderStatus r = OrderStatus o) /\
  (forall r, In r item_df -> has_counterpart order_df r = false ->
     forall r', In r' output ->
       ~ (PrimaryKey r' = PrimaryKey r /\ OrderStatus r' = OrderStatus r)).
Proof.
  cbv zeta. split; [apply filter_stage_semijoin, order_df_NoDup|]. split.
  - intros r Hr. apply output_has_counterpart in Hr.
    unfold has_counterpart in Hr. apply existsb_exists in Hr.
    destruct Hr as [o [Ho Hm]]. apply andb_true_iff in Hm.
    destruct Hm as [H1 H2]. apply ostr_eqb_eq in H1, H2. eauto.
  - intros r Hr Hc r' Hr' [E1 E2].
    apply output_has_counterpart in Hr'.
    rewrite (has_counterpart_ext _ r' r E1 E2) in Hr'. congruence.
Qed.

(** An item row of a status that did not survive is dropped while the
    rows of the same key and the surviving status stay. *)
Example semi_join_same_key :
  map ProductName
    (load_deliverect_item_level_detail_data sample_names no_repair
       [order_1] [burger; cancelled_cola; fries])
  = [Some "Burger"; Some "Fries"; Some "Balancing Item"] /\
  map PrimaryKey
    (process_deliverect_shared_data sample_names [burger; cancelled_cola; fries])
  = [Some "#1 - Berlin - 2023-01-05"; Some "#1 - Berlin - 2023-01-05";
     Some "#1 - Berlin - 2023-01-05"].
Proof. vm_compute. split; reflexivity. Qed.

Lemma price_stage_with_map (a : Arithmetic) (df : DataFrame) :
  price_stage_with a df = map (price_row_with a) df.
Proof. unfold price_stage_with. rewrite map_map. reflexivity. Qed.

Lemma survivors_with_rows (a : Arithmetic) (cleaned_names : NameTable)
  (repair_encoding : string -> string) (orders items : DataFrame) :
  survivors_with a cleaned_names repair_encoding orders items =
  map (price_row_with a)
    (filter
       (has_counterpart
          (load_deliverect_order_data cleaned_names repair_encoding orders))
       (clean_deliverect_product_name repair_encoding
          (process_deliverect_shared_data cleaned_names items))).
Proof.
  unfold survivors_with.
  rewrite price_stage_with_map,
          (filter_stage_semijoin _ _ (order_df_NoDup _ _ _)).
  reflexivity.
Qed.

Lemma consolidate_with_In (a : Arithmetic) (df : DataFrame)
  (row : Consolidated) :
  In row (consolidate_with a df) ->
  exists r0 rest,
    group_of (cPrimaryKey row) df = r0 :: rest /\
    cGrossAOV row = GrossAOV r0 /\
    cTotalPrice row = computed_total a (cPrimaryKey row) df.
Proof.
  unfold consolidate_with. rewrite in_flat_map. intros [k [_ Hrow]].
  destruct (group_of k df) as [|r0 rest] eqn:E; simpl in Hrow; [tauto|].
  destruct Hrow as [<-|[]]. simpl. exists r0, rest.
  split; [exact E|]. split; [reflexivity|].
  unfold computed_total. rewrite E. reflexivity.
Qed.

(** A balancing record is the record made from the first row of its
    group. *)
Lemma new_records_with_first_row (a : Arithmetic) (df : DataFrame) (b : Row) :
  In b (new_records_with a df) ->
  exists k r0 rest,
    group_of k df = r0 :: rest /\
    b = new_record_with a
          (mkConsolidated k (computed_total a k df) (GrossAOV r0)) r0.
Proof.
  rewrite new_records_with_by_group, in_flat_map. intros [k [_ Hb]].
  unfold balancing_for_with in Hb.
  destruct (group_of k df) as [|r0 rest] eqn:E; [destruct Hb|].
  cbv zeta in Hb. destruct (Check_with a _); [destruct Hb|].
  destruct Hb as [<-|[]]. exists k, r0, rest. split; [exact E | reflexivity].
Qed.

Lemma item_loader_with_has_counterpart (a : Arithmetic)
  (cleaned_names : NameTable) (repair_encoding : string -> string)
  (orders items : DataFrame) (r : Row) :
  In r (item_loader_with a cleaned_names repair_encoding orders items) ->
  has_counterpart
    (load_deliverect_order_data cleaned_names repair_encoding orders) r = true.
Proof.
  unfold item_loader_with, reconcile_with, final_sort.
  rewrite (sort_In final_key final_cmp), in_app_iff, survivors_with_rows.
  set (order_df :=
         load_deliverect_order_data cleaned_names repair_encoding orders).
  set (item_df :=
         clean_deliverect_product_name repair_encoding
           (process_deliverect_shared_data cleaned_names items)).
  assert (Hrow : forall m,
    In m (map (price_row_with a) (filter (has_counterpart order_df) item_df)) ->
    has_counterpart order_df m = true).
  { intros m Hm. apply in_map_iff in Hm. destruct Hm as [r0 [<- H0]].
    apply filter_In in H0. destruct H0 as [_ H0].
    rewrite <- H0. apply has_counterpart_ext; reflexivity. }
  intros [H|H]; [apply Hrow, H|].
  apply new_records_with_first_row in H.
  destruct H as (k & r0 & rest & E & ->).
  assert (H0 : In r0 (group_of k
                 (map (price_row_with a)
                    (filter (has_counterpart order_df) item_df))))
    by (rewrite E; left; reflexivity).
  apply group_of_In in H0. destruct H0 as [H0 Ek].
  rewrite <- (Hrow r0 H0). apply has_counterpart_ext; cbn.
  - symmetry. exact Ek.
  - reflexivity.
Qed.

(** C6 (as amended).  Amounts are present and finite, in binary64 or
    exact.  The output is the final sort of the surviving item rows
    followed by their balancing records, and the surviving rows are, in
    stacking order, the item rows with a counterpart, each with its own
    cells: only ItemPrice (divided by 100) and TotalPrice (price times
    quantity) are recomputed, so the GrossAOV and the other order-level
    amounts on a surviving row are those of its own item-level input row.
    The merge reads nothing of the de-duplicated orders but their
    (PrimaryKey, OrderStatus) pairs: order files that lead to the same
    pairs lead to the same output, whatever amounts they carry.  The
    PrimaryKey of an output row has exactly one row in the de-duplicated
    order frame.  The aggregation takes the GrossAOV of the first row of
    each group, and a balancing record is made from that first row and
    copies its order-level cells, whether or not the other rows of the
    group agree with it. *)
Theorem aov_from_item_rows (a : Arithmetic) (cleaned_names : NameTable)
  (repair_encoding : string -> string) (orders items : DataFrame) :
  let order_df :=
    load_deliverect_order_data cleaned_names repair_encoding orders in
  let item_df :=
    clean_deliverect_product_name repair_encoding
      (process_deliverect_shared_data cleaned_names items) in
  let output :=
    item_loader_with a cleaned_names repair_encoding orders items in
  let survivors :=
    map (price_row_with a) (filter (has_counterpart order_df) item_df) in
  output = final_sort (survivors ++ new_records_with a survivors) /\
  (forall r,
     price_row_with a r =
     set_TotalPrice
       (times_quantity a (divide_by_100 a (ItemPrice r)) (ItemQuantities r))
       (set_ItemPrice (divide_by_100 a (ItemPrice r)) r) /\
     PrimaryKey (price_row_with a r) = PrimaryKey r /\
     GrossAOV (price_row_with a r) = GrossAOV r /\
     PromotionsOnItems (price_row_with a r) = PromotionsOnItems r /\
     DeliveryCost (price_row_with a r) = DeliveryCost r /\
     Tip (price_row_with a r) = Tip r /\
     TotalOrderAmount (price_row_with a r) = TotalOrderAmount r) /\
  (forall orders',
     map (fun o => (PrimaryKey o, OrderStatus o))
       (load_deliverect_order_data cleaned_names repair_encoding orders')
     = map (fun o => (PrimaryKey o, OrderStatus o)) order_df ->
     item_loader_with a cleaned_names repair_encoding orders' items = output) /\
  (forall r, In r output ->
     length (with_key (PrimaryKey r) order_df) = 1%nat) /\
  (forall df row, In row (consolidate_with a df) ->
     exists r0 rest, group_of (cPrimaryKey row) df = r0 :: rest /\
                     cGrossAOV row = GrossAOV r0) /\
  (forall df b, In b (new_records_with a df) ->
     exists k r0 rest,
       group_of k df = r0 :: rest /\
       b = new_record_with a
             (mkConsolidated k (computed_total a k df) (GrossAOV r0)) r0 /\
       GrossAOV b = GrossAOV r0 /\
       PromotionsOnItems b = PromotionsOnItems r0 /\
       DeliveryCost b = DeliveryCost r0 /\ Tip b = Tip r0 /\
       TotalOrderAmount b = TotalOrderAmount r0) /\
  item_loader_with exact_arithmetic cleaned_names repair_encoding orders items
  = load_deliverect_item_level_detail_data cleaned_names repair_encoding
      orders items.
Proof.
  cbv zeta. split; [|split; [|split; [|split; [|split; [|split]]]]].
  - unfold item_loader_with, reconcile_with.
    rewrite survivors_with_rows. reflexivity.
  - intros r. repeat split; reflexivity.
  - intros orders' E. unfold item_loader_with, survivors_with, filter_stage.
    rewrite E. reflexivity.
  - intros r Hr. apply item_loader_with_has_counterpart in Hr.
    unfold has_counterpart in Hr. apply existsb_exists in Hr.
    destruct Hr as [o [Ho Hm]]. apply andb_true_iff in Hm.
    destruct Hm as [H1 _]. apply ostr_eqb_eq in H1.
    pose proof (dedup_at_most_one (PrimaryKey r)
                  (clean_deliverect_product_name repair_encoding
                     (process_deliverect_shared_data cleaned_names orders)))
      as Hle.
    fold (load_deliverect_order_data cleaned_names repair_encoding orders) in Hle.
    assert (Hin : In o (with_key (PrimaryKey r)
                     (load_deliverect_order_data cleaned_names repair_encoding
                        orders))).
    { apply filter_In. split; [exact Ho|]. apply ostr_eqb_eq. congruence. }
    destruct (with_key (PrimaryKey r)
                (load_deliverect_order_data cleaned_names repair_encoding orders))
      as [|x [|y l]]; simpl in *; [tauto | reflexivity | lia].
  - intros df row Hrow. apply consolidate_with_In in Hrow.
    destruct Hrow as (r0 & rest & E & Hrow & _). exists r0, rest.
    split; [exact E | exact Hrow].
  - intros df b Hb. apply new_records_with_first_row in Hb.
    destruct Hb as (k & r0 & rest & E & ->). exists k, r0, rest.
    repeat split; try reflexivity. exact E.
  - reflexivity.
Qed.

(** C6, the input on which it fails: the order file reports a GrossAOV of
    10 for the order, its two item rows report 12 and 15; the output rows
    keep 12 and 15, and the balancing record takes the 12 of the first
    row. *)
Lemma aov_not_copied_from_order :
  map (fun o => (PrimaryKey o, GrossAOV o))
    (load_deliverect_order_data sample_names no_repair [order_1])
  = [(Some "#1 - Berlin - 2023-01-05", 10)] /\
  map (fun r => (PrimaryKey r, ProductName r, GrossAOV r))
    (load_deliverect_item_level_detail_data sample_names no_repair
       [order_1] [burger; fries])
  = [(Some "#1 - Berlin - 2023-01-05", Some "Burger", 12);
     (Some "#1 - Berlin - 2023-01-05", Some "Fries", 15);
     (Some "#1 - Berlin - 2023-01-05", Some "Balancing Item", 12)] /\
  ~ 12 == 10 /\ ~ 15 == 10 /\ ~ 12 == 15.
Proof.
  split; [vm_compute; reflexivity|].
  split; [vm_compute; reflexivity|].
  repeat split; intros H; vm_compute in H; discriminate.
Qed.

(** ** The final order *)

Lemma same_slot_key (r x y : Row) :
  same_slot r x = true -> same_slot r y = true -> final_key x = final_key y.
Proof.
  unfold same_slot. intros Hx Hy.
  destruct (final_cmp (final_key r) (final_key x)) eqn:Ex; try discriminate.
  destruct (final_cmp (final_key r) (final_key y)) eqn:Ey; try discriminate.
  apply (cmp_eq final_cmp) in Ex, Ey. congruence.
Qed.

Lemma same_slot_iff (x y : Row) :
  same_slot x y = true <-> final_key x = final_key y.
Proof.
  unfold same_slot. rewrite <- (cmp_eq final_cmp).
  destruct (final_cmp (final_key x) (final_key y)); split; congruence.
Qed.

(** Two sorted frames that hold, place by place, the same rows in the
    same order are equal. *)
Section SortClasses.
Context {A K : Type} (key : A -> K) (cmp : K -> K -> comparison)
        `{HC : !StrictCmp cmp}.
Variable place : A -> A -> bool.
Hypothesis place_key : forall r x, place r x = true <-> key r = key x.



End SortClasses.


(** Sums of exact amounts do not depend on the order of the terms, as
    fractions and not only as numbers. *)
Lemma Qplus_comm_eq (x y : Q) : (x + y)%Q = (y + x)%Q.
Proof.
  destruct x as [a b], y as [c d]. unfold Qplus. cbn [Qnum Qden].
  f_equal; [ring | apply Pos.mul_comm].
Qed.

Lemma Qplus_assoc_eq (x y z : Q) : (x + (y + z))%Q = (x + y + z)%Q.
Proof.
  destruct x as [a b], y as [c d], z as [e f]. unfold Qplus. cbn [Qnum Qden].
  f_equal; [rewrite !Pos2Z.inj_mul; ring | apply Pos.mul_assoc].
Qed.

Lemma Qplus_0_l_eq (x : Q) : (0 + x)%Q = x.
Proof.
  destruct x as [a b]. unfold Qplus. cbn [Qnum Qden].
  f_equal; first [ring | reflexivity].
Qed.

Lemma Qplus_0_r_eq (x : Q) : (x + 0)%Q = x.
Proof. rewrite Qplus_comm_eq. apply Qplus_0_l_eq. Qed.

Lemma fold_left_Qplus_eq (l : list Q) (a : Q) :
  fold_left Qplus l a = (a + fold_left Qplus l 0)%Q.
Proof.
  revert a. induction l as [|x l IH]; intros a; cbn [fold_left].
  - symmetry. apply Qplus_0_r_eq.
  - rewrite (IH (a + x)%Q), (IH (0 + x)%Q), Qplus_0_l_eq.
    symmetry. apply Qplus_assoc_eq.
Qed.

Lemma Qsum_perm_eq (l1 l2 : list Q) : Permutation l1 l2 -> Qsum l1 = Qsum l2.
Proof.
  unfold Qsum.
  induction 1 as [|x l1 l2 _ IH|x y l|l1 l2 l3 _ IH1 _ IH2]; cbn [fold_left].
  - reflexivity.
  - rewrite (fold_left_Qplus_eq l1), (fold_left_Qplus_eq l2), IH. reflexivity.
  - rewrite (fold_left_Qplus_eq l (0 + y + x)%Q),
            (fold_left_Qplus_eq l (0 + x + y)%Q).
    f_equal. rewrite <- !Qplus_assoc_eq. f_equal. apply Qplus_comm_eq.
  - congruence.
Qed.

(** ** The stacking order of the item rows *)





(** The exact sum does not depend on the order of its terms. *)
Remark exact_sum_order_free : sum_order_free exact_arithmetic.
Proof. intros l1 l2. apply Qsum_perm_eq. Qed.



(** ** The stacking order of the order rows *)










(** The stacking order also decides which row a balancing record is
    made from: the two item rows that report the GrossAOV 12 and 15 get a
    balancing record of -1 that carries 12 in one order, and one of 2 that
    carries 15 in the other. *)
Example stacking_order_changes_balancing :
  map (fun r => (ProductName r, GrossAOV r))
    (load_deliverect_item_level_detail_data sample_names no_repair
       [order_1] [burger; fries])
  = [(Some "Burger", 12); (Some "Fries", 15); (Some "Balancing Item", 12)] /\
  map (fun r => (ProductName r, GrossAOV r))
    (load_deliverect_item_level_detail_data sample_names no_repair
       [order_1] [fries; burger])
  = [(Some "Fries", 15); (Some "Burger", 12); (Some "Balancing Item", 15)] /\
  Forall2 (fun r x => TotalPrice r == x)
    (new_records_with exact_arithmetic
       (survivors_with exact_arithmetic sample_names no_repair
          [order_1] [burger; fries]))
    [-1] /\
  Forall2 (fun r x => TotalPrice r == x)
    (new_records_with exact_arithmetic
       (survivors_with exact_arithmetic sample_names no_repair
          [order_1] [fries; burger]))
    [2].
Proof.
  split; [vm_compute; reflexivity|].
  split; [vm_compute; reflexivity|].
  split; vm_compute; repeat constructor.
Qed.

(** * Further properties of the code *)

(** ** [clean_location_names]: one row per entry of the name file *)

Lemma entries_for_unique (cleaned_names : NameTable) (r : Row) :
  NoDup (map fst cleaned_names) ->
  (length (entries_for cleaned_names r) <= 1)%nat.
Proof.
  unfold entries_for. generalize (lookup_location r) as loc. intros loc.
  induction cleaned_names as [|e t IH]; simpl; intros HN; [lia|].
  inversion HN as [|? ? Hnin HN']; subst.
  destruct (ostr_eqb loc (fst e)) eqn:E; [|apply IH, HN'].
  apply ostr_eqb_eq in E. subst loc.
  rewrite filter_none; [simpl; lia|].
  intros e' He'. destruct (ostr_eqb (fst e) (fst e')) eqn:E'; [|reflexivity].
  apply ostr_eqb_eq in E'. exfalso. apply Hnin. rewrite E'. apply in_map, He'.
Qed.

Lemma clean_location_names_cons (cleaned_names : NameTable) (r : Row)
  (df : DataFrame) :
  clean_location_names cleaned_names (r :: df) =
  match entries_for cleaned_names r with
  | [] => [set_Location None r]
  | es => map (fun e => set_Location (snd e) r) es
  end ++ clean_location_names cleaned_names df.
Proof.
  unfold clean_location_names, merge_left, entries_for, lookup_location.
  simpl. destruct (filter _ cleaned_names); reflexivity.
Qed.

(** X1. Location cleaning returns, for every row and in the order of the
    frame, one row per entry the name file has for the row's location, and
    one row when it has none; only the Location cell differs from the input
    row.  With a name file that lists no location twice the frame keeps its
    length and its order; a location listed twice doubles its rows. *)
Theorem clean_location_names_rows (cleaned_names : NameTable) (df : DataFrame) :
  length (clean_location_names cleaned_names df) =
  list_sum (map (fun r => Nat.max 1 (length (entries_for cleaned_names r))) df) /\
  (forall r', In r' (clean_location_names cleaned_names df) ->
     exists r, In r df /\ r' = set_Location (Location r') r) /\
  (NoDup (map fst cleaned_names) ->
   clean_location_names cleaned_names df =
   map (fun r => set_Location (cleaned_name cleaned_names r) r) df).
Proof.
  split; [|split].
  - induction df as [|r df IH]; [reflexivity|].
    rewrite clean_location_names_cons, length_app, IH.
    cbn [map list_sum].
    destruct (entries_for cleaned_names r) as [|e es]; [reflexivity|].
    cbn [length Nat.max]. rewrite length_map. reflexivity.
  - intros r' H. apply clean_location_names_In in H.
    destruct H as [r [v [Hr ->]]]. exists r. split; [exact Hr | reflexivity].
  - intros HN. induction df as [|r df IH]; [reflexivity|].
    rewrite clean_location_names_cons, IH. simpl. f_equal.
    unfold cleaned_name.
    pose proof (entries_for_unique cleaned_names r HN) as Hle.
    destruct (entries_for cleaned_names r) as [|e [|e' es]];
      simpl in *; try reflexivity; lia.
Qed.

Lemma clean_location_names_rows_witness :
  clean_location_names sample_names [koeln_row; nowhere_row] =
  map (fun r => set_Location (cleaned_name sample_names r) r)
      [koeln_row; nowhere_row].
Proof.
  apply (proj2 (proj2 (clean_location_names_rows sample_names
                         [koeln_row; nowhere_row]))).
  vm_compute. repeat constructor; simpl; intuition discriminate.
Defined.

(** ** What the shared normalisation guarantees *)

Lemma append_assoc (a b c : string) :
  ((a ++ b) ++ c = a ++ (b ++ c))%string.
Proof.
  induction a as [|x a IH]; simpl; [reflexivity|]. rewrite IH. reflexivity.
Qed.

Lemma first_word_of_label (b : option string) :
  first_brand_word (collapse_brand b) = collapse_brand b.
Proof.
  unfold collapse_brand. destruct (truthy _); reflexivity.
Qed.

Lemma shared_row_cells (cleaned_names : NameTable) (df : DataFrame)
  (r' : Row) :
  In r' (process_deliverect_shared_data cleaned_names df) ->
  exists r v brand,
    In r df /\
    negb (ostr_eqb (str_map normalise_status (OrderStatus r))
            (Some "Duplicate")) = true /\
    OrderID r' = Some ("#" ++ astype_str (OrderID r))%string /\
    OrderPlacedDate r' = OrderPlacedDate r /\
    OrderStatus r' = str_map normalise_status (OrderStatus r) /\
    Location r' = v /\
    Brand r' = collapse_brand brand /\
    PrimaryKey r' =
    str_add (str_add (str_add (str_add (OrderID r') (Some " - ")) v)
                     (Some " - "))
            (Some (date_astype_str (OrderPlacedDate r))) /\
    LocWithBrand r' =
    str_add (str_add v (Some " - ")) (first_brand_word (collapse_brand brand)).
Proof.
  unfold process_deliverect_shared_data. intros H.
  apply in_map_iff in H. destruct H as [r9 [<- H]].
  apply filter_In in H. destruct H as [H Hdup].
  apply in_map_iff in H. destruct H as [r8 [<- H]].
  apply in_map_iff in H. destruct H as [r7 [<- H]].
  apply in_map_iff in H. destruct H as [r6 [<- H]].
  apply clean_location_names_In in H. destruct H as [r5 [v [H ->]]].
  rewrite normalise_brand_map in H.
  apply in_map_iff in H. destruct H as [r1 [<- H]].
  apply in_map_iff in H. destruct H as [r [<- H]].
  exists r, v. eexists.
  split; [exact H|]. split; [exact Hdup|].
  repeat split; reflexivity.
Qed.

(** X2. Every row returned by the shared normalisation comes from an input
    row; its OrderID is that row's id after a "#" (the text "nan" for a
    missing id) and is never missing; its status is never "Duplicate"; its
    PrimaryKey and its LocWithBrand are missing exactly when its Location
    is, and otherwise are the order id, the location and the ISO date
    joined by " - ", and the location and the brand joined by " - ". *)
Theorem shared_data_invariants (cleaned_names : NameTable) (df : DataFrame)
  (r' : Row) :
  In r' (process_deliverect_shared_data cleaned_names df) ->
  (exists r, In r df /\
     OrderID r' = Some ("#" ++ astype_str (OrderID r))%string /\
     OrderPlacedDate r' = OrderPlacedDate r /\
     OrderStatus r' = str_map normalise_status (OrderStatus r)) /\
  OrderStatus r' <> Some "Duplicate" /\
  (PrimaryKey r' = None <-> Location r' = None) /\
  (LocWithBrand r' = None <-> Location r' = None) /\
  (forall loc, Location r' = Some loc ->
     exists id b,
       OrderID r' = Some id /\ Brand r' = Some b /\
       PrimaryKey r' =
       Some (id ++ " - " ++ loc ++ " - "
             ++ date_astype_str (OrderPlacedDate r'))%string /\
       LocWithBrand r' = Some (loc ++ " - " ++ b)%string).
Proof.
  intros H. apply shared_row_cells in H.
  destruct H as [r [v [brand [Hr [Hdup [Eid [Ed [Es [El [Eb [Ek Ew]]]]]]]]]]].
  split; [exists r; tauto|].
  split.
  { rewrite Es. intros E. rewrite E in Hdup. discriminate. }
  rewrite Ek, Ew, El, Eid, Eb, Ed, first_word_of_label.
  assert (Hbrand : exists b, collapse_brand brand = Some b)
    by (unfold collapse_brand; eauto).
  destruct Hbrand as [b Hb]. rewrite Hb.
  destruct v as [loc|]; cbn [str_add].
  - split; [split; discriminate|]. split; [split; discriminate|].
    intros loc' E. injection E as <-.
    eexists. exists b.
    split; [reflexivity|]. split; [reflexivity|].
    split; rewrite !append_assoc; reflexivity.
  - split; [tauto|]. split; [tauto|]. intros loc E. discriminate.
Qed.

Lemma shared_data_invariants_witness :
  OrderStatus
    (hd koeln_row (process_deliverect_shared_data sample_names [koeln_row]))
  <> Some "Duplicate".
Proof.
  apply (shared_data_invariants sample_names [koeln_row]
           (hd koeln_row
              (process_deliverect_shared_data sample_names [koeln_row]))).
  vm_compute. left. reflexivity.
Defined.

(** ** Status normalisation *)

Ltac each_char c := destruct c as [[] [] [] [] [] [] [] []]; reflexivity.

Lemma is_letter_to_lower (c : ascii) :
  is_letter (PyStr.to_lower c) = is_letter c.
Proof. each_char c. Qed.

Lemma is_letter_to_upper (c : ascii) :
  is_letter (PyStr.to_upper c) = is_letter c.
Proof. each_char c. Qed.

Lemma to_lower_to_lower (c : ascii) :
  PyStr.to_lower (PyStr.to_lower c) = PyStr.to_lower c.
Proof. each_char c. Qed.

Lemma to_upper_to_upper (c : ascii) :
  PyStr.to_upper (PyStr.to_upper c) = PyStr.to_upper c.
Proof. each_char c. Qed.

Lemma to_upper_to_lower (c : ascii) :
  PyStr.to_upper (PyStr.to_lower c) = PyStr.to_upper c.
Proof. each_char c. Qed.

Lemma underscore_to_lower (c : ascii) :
  Ascii.eqb (PyStr.to_lower c) "_" = Ascii.eqb c "_".
Proof. each_char c. Qed.

Lemma underscore_to_upper (c : ascii) :
  Ascii.eqb (PyStr.to_upper c) "_" = Ascii.eqb c "_".
Proof. each_char c. Qed.

Lemma underscore_no_letter (c : ascii) :
  Ascii.eqb c "_" = true -> is_letter c = false.
Proof. intros E. apply Ascii.eqb_eq in E. subst. reflexivity. Qed.

Lemma to_lower_no_letter (c : ascii) :
  is_letter c = false -> PyStr.to_lower c = c.
Proof.
  destruct c as [[] [] [] [] [] [] [] []]; intros E;
    first [reflexivity | discriminate E].
Qed.

(** Replacing a one-character text works character by character. *)
Lemma replace_char_cons (a b c : ascii) (s : string) :
  PyStr.replace (String a EmptyString) (String b EmptyString) (String c s) =
  String (if Ascii.eqb c a then b else c)
         (PyStr.replace (String a EmptyString) (String b EmptyString) s).
Proof.
  unfold PyStr.replace. cbn [PyStr.replace_from String.prefix String.length].
  destruct (ascii_dec a c) as [->|Hne].
  - rewrite Ascii.eqb_refl. destruct s; reflexivity.
  - assert (E : Ascii.eqb c a = false)
      by (apply Ascii.eqb_neq; congruence).
    rewrite E. reflexivity.
Qed.

Lemma title_from_lower (in_word : bool) (s : string) :
  PyStr.title_from in_word (PyStr.lower s) = PyStr.title_from in_word s.
Proof.
  revert in_word. induction s as [|c s IH]; intros in_word; [reflexivity|].
  cbn [PyStr.lower PyStr.title_from].
  fold (is_letter (PyStr.to_lower c)). fold (is_letter c).
  rewrite is_letter_to_lower, to_lower_to_lower, to_upper_to_lower, !IH.
  destruct (is_letter c) eqn:E; [reflexivity|].
  rewrite (to_lower_no_letter c E). reflexivity.
Qed.

Lemma title_from_idempotent (in_word : bool) (s : string) :
  PyStr.title_from in_word (PyStr.title_from in_word s)
  = PyStr.title_from in_word s.
Proof.
  revert in_word. induction s as [|c s IH]; intros in_word; [reflexivity|].
  cbn [PyStr.title_from]. fold (is_letter c).
  destruct (is_letter c) eqn:E; cbn [PyStr.title_from].
  - fold (is_letter (if in_word then PyStr.to_lower c else PyStr.to_upper c)).
    destruct in_word;
      rewrite ?is_letter_to_lower, ?is_letter_to_upper, E,
              ?to_lower_to_lower, ?to_upper_to_upper, IH; reflexivity.
  - fold (is_letter c). rewrite E, IH. reflexivity.
Qed.

Lemma replace_underscore_title (in_word : bool) (s : string) :
  PyStr.replace "_" " " (PyStr.title_from in_word s)
  = PyStr.title_from in_word (PyStr.replace "_" " " s).
Proof.
  revert in_word. induction s as [|c s IH]; intros in_word; [reflexivity|].
  rewrite replace_char_cons. cbn [PyStr.title_from]. fold (is_letter c).
  destruct (Ascii.eqb c "_") eqn:Eu.
  - rewrite (underscore_no_letter c Eu), replace_char_cons, Eu, IH.
    reflexivity.
  - fold (is_letter c). destruct (is_letter c) eqn:E.
    + rewrite replace_char_cons, IH.
      destruct in_word; rewrite ?underscore_to_lower, ?underscore_to_upper, Eu;
        reflexivity.
    + rewrite replace_char_cons, Eu, IH. reflexivity.
Qed.

Lemma replace_underscore_idempotent (s : string) :
  PyStr.replace "_" " " (PyStr.replace "_" " " s) = PyStr.replace "_" " " s.
Proof.
  induction s as [|c s IH]; [reflexivity|].
  rewrite !replace_char_cons, IH.
  destruct (Ascii.eqb c "_") eqn:E; [reflexivity|]. rewrite E. reflexivity.
Qed.

Lemma categories_normal : Forall (fun c => PyStr.title c = c) categories.
Proof. repeat constructor. Qed.

Lemma is_ascii_lower (s : string) : is_ascii (PyStr.lower s) = is_ascii s.
Proof.
  induction s as [|c s IH]; [reflexivity|].
  cbn [PyStr.lower is_ascii]. rewrite IH. f_equal.
  destruct c as [[] [] [] [] [] [] [] []]; reflexivity.
Qed.

Lemma is_ascii_replace_underscore (s : string) :
  is_ascii (PyStr.replace "_" " " s) = is_ascii s.
Proof.
  induction s as [|c s IH]; [reflexivity|].
  rewrite replace_char_cons. cbn [is_ascii]. rewrite IH. f_equal.
  destruct (Ascii.eqb c "_") eqn:E; [|reflexivity].
  apply Ascii.eqb_eq in E. subst c. reflexivity.
Qed.

Lemma is_ascii_title_from (in_word : bool) (s : string) :
  is_ascii (PyStr.title_from in_word s) = is_ascii s.
Proof.
  revert in_word. induction s as [|c s IH]; intros in_word; [reflexivity|].
  cbn [PyStr.title_from]. fold (is_letter c).
  destruct (is_letter c); cbn [is_ascii]; rewrite IH; [|reflexivity].
  f_equal. destruct in_word; each_char c.
Qed.

Lemma categories_ascii : Forall (fun c => is_ascii c = true) categories.
Proof. repeat constructor. Qed.

(** A text that spells an ASCII text, letter case and underscores
    apart, is ASCII itself. *)
Lemma spelling_is_ascii (c s : string) :
  is_ascii c = true ->
  PyStr.lower (PyStr.replace "_" " " s) = PyStr.lower c ->
  is_ascii s = true.
Proof.
  intros Hc E.
  rewrite <- is_ascii_replace_underscore, <- is_ascii_lower, E, is_ascii_lower.
  exact Hc.
Qed.

(** X3. On ASCII text the status normalisation (underscores to spaces,
    then title case) is idempotent and does not depend on the letter
    case of the raw status.  A raw status that spells an entry of the
    precedence table in any letter case, with underscores or spaces, is
    ASCII and is normalised to that entry, and one that spells
    "duplicate" to the sentinel "Duplicate" that the next line drops.
    Nothing is stated of a status with a letter outside ASCII, where
    [str.title] follows the Unicode case tables. *)
Theorem normalise_status_canonical :
  (forall s, is_ascii s = true ->
     is_ascii (normalise_status s) = true /\
     normalise_status (normalise_status s) = normalise_status s) /\
  (forall s, is_ascii s = true ->
     normalise_status (PyStr.lower s) = normalise_status s) /\
  (forall c s, In c categories ->
     PyStr.lower (PyStr.replace "_" " " s) = PyStr.lower c ->
     is_ascii s = true /\ normalise_status s = c) /\
  (forall s, PyStr.lower (PyStr.replace "_" " " s) = "duplicate" ->
     is_ascii s = true /\ normalise_status s = "Duplicate").
Proof.
  assert (Hlow : forall s, PyStr.title (PyStr.lower s) = PyStr.title s)
    by (intros s; apply title_from_lower).
  split; [|split; [|split]].
  - intros s Hs. split.
    + unfold normalise_status, PyStr.title.
      rewrite is_ascii_title_from, is_ascii_replace_underscore. exact Hs.
    + unfold normalise_status, PyStr.title.
      rewrite replace_underscore_title, replace_underscore_idempotent.
      apply title_from_idempotent.
  - intros s _. unfold normalise_status.
    rewrite <- (Hlow (PyStr.replace "_" " " (PyStr.lower s))).
    rewrite <- (Hlow (PyStr.replace "_" " " s)). f_equal.
    induction s as [|c s IH]; [reflexivity|].
    cbn [PyStr.lower]. rewrite !replace_char_cons. cbn [PyStr.lower].
    rewrite IH, underscore_to_lower.
    destruct (Ascii.eqb c "_"); [reflexivity|].
    rewrite to_lower_to_lower. reflexivity.
  - intros c s Hc E. split.
    + pose proof categories_ascii as Ha. rewrite Forall_forall in Ha.
      apply (spelling_is_ascii c s (Ha c Hc) E).
    + unfold normalise_status. rewrite <- Hlow, E, Hlow.
      pose proof categories_normal as Hn. rewrite Forall_forall in Hn.
      apply Hn, Hc.
  - intros s E. split.
    + apply (spelling_is_ascii "duplicate" s eq_refl E).
    + unfold normalise_status. rewrite <- Hlow, E. reflexivity.
Qed.

Lemma normalise_status_canonical_witness :
  (is_ascii "READY_FOR_pickup" = true /\
   normalise_status "READY_FOR_pickup" = "Ready For Pickup") /\
  normalise_status (normalise_status "out_for DELIVERY")
  = normalise_status "out_for DELIVERY".
Proof.
  split.
  - apply (proj1 (proj2 (proj2 normalise_status_canonical))).
    + vm_compute. tauto.
    + reflexivity.
  - apply (proj1 normalise_status_canonical). reflexivity.
Defined.

(** ** De-duplicating twice *)

Lemma filter_keeps_sorted {A K : Type} (key : A -> K)
  (cmp : K -> K -> comparison) (keep : A -> bool) (l : list A) :
  sorted_by key cmp l -> sorted_by key cmp (filter keep l).
Proof.
  induction 1 as [|y l Hs IH Hy]; simpl; [constructor|].
  destruct (keep y); [|exact IH].
  constructor; [exact IH|].
  rewrite Forall_forall in *. intros z Hz.
  apply filter_In in Hz. apply Hy, Hz.
Qed.

Section DropDuplicatesMore.
Context {A K : Type} (key : A -> K) (eqb : K -> K -> bool).
Hypothesis eqb_eq : forall a b, eqb a b = true <-> a = b.

Lemma drop_duplicates_keeps_sorted {K' : Type} (key' : A -> K')
  (cmp : K' -> K' -> comparison) (seen : list K) (l : list A) :
  sorted_by key' cmp l ->
  sorted_by key' cmp (drop_duplicates_by key eqb seen l).
Proof.
  intros Hs. revert seen.
  induction Hs as [|y l Hs IH Hy]; intros seen; simpl; [constructor|].
  destruct (existsb (eqb (key y)) seen); [apply IH|].
  constructor; [apply IH|].
  rewrite Forall_forall in *. intros z Hz.
  apply (drop_duplicates_In key eqb eqb_eq) in Hz. apply Hy, Hz.
Qed.

(** A frame without duplicate keys is left as it is. *)
Lemma drop_duplicates_nodup (seen : list K) (l : list A) :
  NoDup (map key l) ->
  (forall x, In x l -> ~ In (key x) seen) ->
  drop_duplicates_by key eqb seen l = l.
Proof.
  revert seen. induction l as [|y l IH]; intros seen HN Hs; [reflexivity|].
  simpl in *. inversion HN as [|? ? Hnin HN']; subst.
  destruct (existsb (eqb (key y)) seen) eqn:E.
  - apply (existsb_eqb eqb eqb_eq) in E. exfalso. apply (Hs y); auto.
  - f_equal. apply IH; [exact HN'|].
    intros x Hx [Hk|Hk]; [|apply (Hs x); auto].
    apply Hnin. rewrite Hk. apply in_map, Hx.
Qed.
End DropDuplicatesMore.

Lemma to_categorical_idempotent (s : option string) :
  to_categorical (to_categorical s) = to_categorical s.
Proof.
  unfold to_categorical at 1. rewrite category_code_categorical.
  unfold to_categorical. destruct (category_code s); reflexivity.
Qed.

Lemma as_categorical_idempotent (r : Row) :
  as_categorical (as_categorical r) = as_categorical r.
Proof.
  unfold as_categorical. cbn [OrderStatus set_OrderStatus].
  rewrite to_categorical_idempotent. reflexivity.
Qed.

Lemma dedup_sorted (df : DataFrame) :
  sorted_by dedup_key dedup_cmp (process_deliverect_remove_duplicates df).
Proof.
  unfold process_deliverect_remove_duplicates.
  apply filter_keeps_sorted.
  apply (drop_duplicates_keeps_sorted PrimaryKey ostr_eqb ostr_eqb_eq).
  apply (sort_sorted dedup_key dedup_cmp).
Qed.

Lemma dedup_status_listed (df : DataFrame) (r : Row) (s : string) :
  In r (process_deliverect_remove_duplicates df) ->
  OrderStatus r = Some s -> In s categories.
Proof.
  intros Hr Es. apply dedup_In in Hr. destruct Hr as [_ [r0 [_ ->]]].
  unfold as_categorical in Es. cbn [OrderStatus set_OrderStatus] in Es.
  unfold to_categorical in Es.
  destruct (category_code (OrderStatus r0)) eqn:Ec; [|discriminate].
  rewrite Es in Ec. unfold category_code in Ec.
  destruct (in_dec string_dec s categories) as [Hi|Hn]; [exact Hi|].
  apply index_of_None in Hn. congruence.
Qed.

(** X4. The de-duplicator returns its rows sorted by PrimaryKey (a missing
    key last), with the status of every row in the precedence table or
    missing; and de-duplicating its output again returns it unchanged. *)
Theorem dedup_idempotent (df : DataFrame) :
  let out := process_deliverect_remove_duplicates df in
  sorted_by dedup_key dedup_cmp out /\
  StronglySorted
    (fun a b => cmp_leb (opt_cmp String.compare a b) = true)
    (map PrimaryKey out) /\
  (forall r s, In r out -> OrderStatus r = Some s -> In s categories) /\
  process_deliverect_remove_duplicates out = out.
Proof.
  cbv zeta. pose proof (dedup_sorted df) as Hs.
  split; [exact Hs|]. split; [|split].
  - clear - Hs. induction Hs as [|y l _ IH Hy]; simpl; constructor; [exact IH|].
    rewrite Forall_forall in *. intros k Hk.
    apply in_map_iff in Hk. destruct Hk as [z [<- Hz]].
    specialize (Hy z Hz). unfold row_leb, dedup_key, dedup_cmp, lex_cmp in Hy.
    simpl in Hy.
    destruct (opt_cmp String.compare (PrimaryKey y) (PrimaryKey z));
      [reflexivity | reflexivity | discriminate].
  - intros r s. apply dedup_status_listed.
  - set (out := process_deliverect_remove_duplicates df) in *.
    assert (Hmap : map as_categorical out = out).
    { rewrite <- (map_id out) at 2. apply map_ext_in. intros r Hr.
      apply dedup_In in Hr. destruct Hr as [_ [r0 [_ ->]]].
      apply as_categorical_idempotent. }
    unfold process_deliverect_remove_duplicates at 1.
    change (map (fun r => set_OrderStatus (to_categorical (OrderStatus r)) r) out)
      with (map as_categorical out).
    rewrite Hmap, (sort_sorted_id dedup_key dedup_cmp out Hs).
    rewrite (drop_duplicates_nodup PrimaryKey ostr_eqb ostr_eqb_eq);
      [|apply dedup_NoDup | intros x _ []].
    apply forallb_filter_id, forallb_forall. intros r Hr.
    apply dedup_In in Hr. destruct Hr as [Hn _].
    unfold has_nan_id in Hn. rewrite Hn. reflexivity.
Qed.

(** ** Statuses outside the precedence table *)

(** X5. Every row of the item loader's output has a status of the
    precedence table, or none: the de-duplicated orders carry their status
    as a categorical cell, so an item row whose status is outside the
    table finds no counterpart and neither it nor a balancing record of
    its status reaches the output. *)
Theorem output_status_listed (cleaned_names : NameTable)
  (repair_encoding : string -> string) (orders items : DataFrame) :
  let item_df :=
    clean_deliverect_product_name repair_encoding
      (process_deliverect_shared_data cleaned_names items) in
  let output :=
    load_deliverect_item_level_detail_data cleaned_names repair_encoding
      orders items in
  (forall r s, In r output -> OrderStatus r = Some s -> In s categories) /\
  (forall r0 s, In r0 item_df -> OrderStatus r0 = Some s ->
     ~ In s categories ->
     forall r, In r output -> OrderStatus r <> OrderStatus r0).
Proof.
  cbv zeta.
  assert (H1 : forall r s,
    In r (load_deliverect_item_level_detail_data cleaned_names
            repair_encoding orders items) ->
    OrderStatus r = Some s -> In s categories).
  { intros r s Hr Es. apply output_has_counterpart in Hr.
    unfold has_counterpart in Hr. apply existsb_exists in Hr.
    destruct Hr as [o [Ho Hm]]. apply andb_true_iff in Hm.
    destruct Hm as [_ H2]. apply ostr_eqb_eq in H2.
    apply (dedup_status_listed _ o s Ho). congruence. }
  split; [exact H1|].
  intros r0 s _ Es Hn r Hr E. apply Hn, (H1 r s Hr). congruence.
Qed.

Lemma output_status_listed_witness :
  In "Delivered" categories.
Proof.
  apply (proj1 (output_status_listed sample_names no_repair
                  [order_1] [burger; fries])
           (hd burger
              (load_deliverect_item_level_detail_data sample_names no_repair
                 [order_1] [burger; fries]))).
  - vm_compute. left. reflexivity.
  - reflexivity.
Defined.

(** ** The balancing records as a frame *)

Lemma group_keys_ascending (df : DataFrame) :
  StronglySorted (fun a b => String.compare a b = Lt) (group_keys df).
Proof.
  pose proof (group_keys_NoDup df) as HN.
  assert (Hs : sorted_by (fun s : string => s) String.compare (group_keys df))
    by apply (sort_sorted (fun s : string => s) String.compare).
  revert HN. induction Hs as [|k ks _ IH Hk]; intros HN; constructor.
  - apply IH. inversion HN; assumption.
  - inversion HN as [|? ? Hnin _]; subst.
    rewrite Forall_forall in *. intros k' Hk'. specialize (Hk k' Hk').
    unfold row_leb in Hk.
    destruct (String.compare k k') eqn:E; [|reflexivity|discriminate].
    apply (cmp_eq String.compare) in E. subst. contradiction.
Qed.

Lemma group_keys_length (df : DataFrame) :
  (length (group_keys df) <= length df)%nat.
Proof.
  rewrite <- (length_map Some (group_keys df)),
          <- (length_map PrimaryKey df).
  apply NoDup_incl_length.
  - apply Finite.Injective_map_NoDup; [|apply group_keys_NoDup].
    intros a b E. congruence.
  - intros k Hk. apply in_map_iff in Hk. destruct Hk as [k' [<- Hk']].
    apply group_keys_In, Hk'.
Qed.

Lemma balancing_for_length (k : string) (df : DataFrame) :
  (length (balancing_for k df) <= 1)%nat.
Proof.
  unfold balancing_for. destruct (group_of k df); [simpl; lia|].
  cbv zeta. destruct (Check _); simpl; lia.
Qed.

Lemma balancing_keys (df : DataFrame) (keys : list string) :
  exists ks,
    map PrimaryKey (flat_map (fun k => balancing_for k df) keys) = map Some ks /\
    ks = filter (fun k => match balancing_for k df with
                          | [] => false | _ => true end) keys.
Proof.
  eexists. split; [|reflexivity].
  induction keys as [|k keys IH]; [reflexivity|].
  cbn [flat_map filter]. rewrite map_app, IH.
  pose proof (balancing_for_length k df) as Hl.
  pose proof (balancing_for_key k df) as Hk.
  destruct (balancing_for k df) as [|b [|b' l]]; simpl in *;
    [reflexivity | | lia].
  rewrite (Hk b (or_introl eq_refl)). reflexivity.
Qed.

Lemma strictly_sorted_filter (keep : string -> bool) (l : list string) :
  StronglySorted (fun a b => String.compare a b = Lt) l ->
  StronglySorted (fun a b => String.compare a b = Lt) (filter keep l).
Proof.
  induction 1 as [|y l Hs IH Hy]; simpl; [constructor|].
  destruct (keep y); [|exact IH].
  constructor; [exact IH|].
  rewrite Forall_forall in *. intros z Hz.
  apply filter_In in Hz. apply Hy, Hz.
Qed.

(** X6. The balancing stage makes at most one record per PrimaryKey of its
    input, in ascending order of the keys, each named "Balancing Item"
    with quantity 1 and equal price and total; so it adds at most as many
    rows as the frame has, and never a record for a key the frame lacks. *)
Theorem new_records_shape (df : DataFrame) :
  (exists ks,
     map PrimaryKey (new_records df) = map Some ks /\
     StronglySorted (fun a b => String.compare a b = Lt) ks /\
     (forall k, In k ks -> In (Some k) (map PrimaryKey df))) /\
  (forall b, In b (new_records df) ->
     ProductName b = Some "Balancing Item" /\ ItemQuantities b = 1%Z /\
     ItemPrice b = TotalPrice b) /\
  (length (new_records df) <= length df)%nat /\
  (length (reconcile df) <= 2 * length df)%nat.
Proof.
  assert (Hlen : (length (new_records df) <= length df)%nat).
  { etransitivity; [|apply group_keys_length].
    rewrite new_records_by_group.
    induction (group_keys df) as [|k ks IH]; [reflexivity|].
    cbn [flat_map]. rewrite length_app.
    pose proof (balancing_for_length k df). simpl. lia. }
  split; [|split; [|split]].
  - rewrite new_records_by_group.
    destruct (balancing_keys df (group_keys df)) as [ks [E Eks]].
    exists ks. split; [exact E|]. split.
    + rewrite Eks. apply strictly_sorted_filter, group_keys_ascending.
    + intros k Hk. rewrite Eks in Hk. apply filter_In in Hk.
      apply group_keys_In, Hk.
  - intros b Hb. apply new_records_In in Hb. destruct Hb as [k [_ Hb]].
    unfold balancing_for in Hb.
    destruct (group_of k df) as [|r0 rest]; [destruct Hb|].
    cbv zeta in Hb. destruct (Check _); [destruct Hb|].
    destruct Hb as [<-|[]]. cbn. repeat split; reflexivity.
  - exact Hlen.
  - unfold reconcile, final_sort, balance.
    rewrite (Permutation_length (sort_perm final_key final_cmp _)), length_app.
    lia.
Qed.

(** ** Where a balancing record lands *)

Lemma filter_through {A : Type} (f g : A -> bool) (l : list A) :
  (forall x, f x = true -> g x = true) ->
  filter f l = filter f (filter g l).
Proof.
  intros H. induction l as [|x l IH]; simpl; [reflexivity|].
  destruct (f x) eqn:Ef.
  - rewrite (H x Ef). simpl. rewrite Ef, IH. reflexivity.
  - destruct (g x); simpl; rewrite ?Ef; exact IH.
Qed.

(** X7. A balancing record takes the date, time, status and the other
    descriptive cells of the first row of its group, so it falls on that
    row's place in the final order; in the reconciled frame it comes
    directly after the input rows of that date, time and key, which keep
    their input order. *)
Theorem balancing_record_place (df : DataFrame) (b : Row) :
  In b (new_records df) ->
  exists k m rest,
    PrimaryKey b = Some k /\
    group_of k df = m :: rest /\
    final_key b = final_key m /\
    OrderStatus b = OrderStatus m /\
    OrderID b = OrderID m /\
    Location b = Location m /\
    GrossAOV b = GrossAOV m /\
    filter (same_slot b) (reconcile df) = filter (same_slot b) df ++ [b].
Proof.
  intros Hb. pose proof Hb as Hb'.
  apply new_records_In in Hb'. destruct Hb' as [k [Ek Hk]].
  pose proof (balancing_for_length k df) as Hlen.
  pose proof (group_of_new_records k df) as Hg.
  unfold balancing_for in Hk, Hlen, Hg.
  destruct (group_of k df) as [|m rest] eqn:E; [destruct Hk|].
  assert (Em : PrimaryKey m = Some k).
  { assert (Hm : In m (group_of k df)) by (rewrite E; left; reflexivity).
    apply group_of_In in Hm. tauto. }
  cbv zeta in Hk, Hlen, Hg. destruct (Check _); [destruct Hk|].
  destruct Hk as [Eb|[]].
  exists k, m, rest. split; [exact Ek|]. split; [exact E|].
  assert (Hkey : final_key b = final_key m).
  { rewrite <- Eb. unfold final_key. cbn. rewrite Em. reflexivity. }
  split; [exact Hkey|].
  split; [rewrite <- Eb; reflexivity|].
  split; [rewrite <- Eb; reflexivity|].
  split; [rewrite <- Eb; reflexivity|].
  split; [rewrite <- Eb; reflexivity|].
  unfold reconcile, final_sort, balance.
  rewrite (sort_stable final_key final_cmp (same_slot b))
    by (intros x y; apply same_slot_key).
  rewrite filter_app. f_equal.
  rewrite (filter_through (same_slot b)
             (fun r => ostr_eqb (PrimaryKey r) (Some k))).
  - fold (group_of k (new_records df)). rewrite Hg, Eb. simpl.
    assert (Hrefl : same_slot b b = true) by (apply same_slot_iff; reflexivity).
    rewrite Hrefl. reflexivity.
  - intros x Hx. apply same_slot_iff in Hx. apply ostr_eqb_eq.
    rewrite <- Ek. unfold final_key in Hx. congruence.
Qed.

Lemma balancing_record_place_witness :
  exists k m rest,
    PrimaryKey (hd (hd wrap scenario_frame) (new_records scenario_frame))
    = Some k /\
    group_of k scenario_frame = m :: rest.
Proof.
  destruct (balancing_record_place scenario_frame
              (hd (hd wrap scenario_frame) (new_records scenario_frame)))
    as [k [m [rest [Ek [Eg _]]]]].
  - vm_compute. left. reflexivity.
  - exists k, m, rest. split; assumption.
Defined.

(** ** Rows without PrimaryKey *)

(** X8. An item row without PrimaryKey passes the filter stage exactly when
    the de-duplicated order frame holds a row without key that has the
    same status, whichever orders the two rows belong to; and the
    balancing stage neither balances nor drops rows without key: it
    returns them as they are, sorted by date and time. *)
Theorem missing_key_rows (cleaned_names : NameTable)
  (repair_encoding : string -> string) (orders items : DataFrame) :
  let order_df :=
    load_deliverect_order_data cleaned_names repair_encoding orders in
  let item_df :=
    clean_deliverect_product_name repair_encoding
      (process_deliverect_shared_data cleaned_names items) in
  (forall r, In r item_df -> PrimaryKey r = None ->
     (In r (filter_stage order_df item_df) <->
      exists o, In o order_df /\ PrimaryKey o = None /\
                OrderStatus o = OrderStatus r)) /\
  (forall df, with_key None (reconcile df) = final_sort (with_key None df)).
Proof.
  cbv zeta. split.
  - intros r Hr Ek.
    rewrite (filter_stage_semijoin _ _
               (order_df_NoDup cleaned_names repair_encoding orders)).
    rewrite filter_In. unfold has_counterpart. rewrite existsb_exists.
    split.
    + intros [_ [o [Ho Hm]]]. apply andb_true_iff in Hm.
      destruct Hm as [H1 H2]. apply ostr_eqb_eq in H1, H2.
      exists o. repeat split; congruence.
    + intros [o [Ho [E1 E2]]]. split; [exact Hr|]. exists o.
      split; [exact Ho|]. rewrite Ek, E1, E2, !ostr_eqb_refl. reflexivity.
  - intros df. unfold reconcile, final_sort, balance, with_key.
    rewrite (filter_sort final_key final_cmp), filter_app.
    rewrite (filter_none _ (new_records df)); [rewrite app_nil_r; reflexivity|].
    intros b Hb. apply new_records_have_key in Hb.
    destruct (PrimaryKey b); [reflexivity | congruence].
Qed.

(** ** The loaders and the directories *)

Lemma read_and_stack_none (wanted : string -> bool) (dir : Directory) :
  (forall f, In f dir -> wanted (fst f) = false) ->
  read_and_stack wanted dir = None.
Proof.
  intros H. unfold read_and_stack. rewrite filter_none; [reflexivity|].
  exact H.
Qed.

Lemma read_and_stack_some (wanted : string -> bool) (dir : Directory)
  (f : string * DataFrame) :
  In f dir -> wanted (fst f) = true ->
  read_and_stack wanted dir =
  Some (concat (map snd (filter (fun f => wanted (fst f)) dir))).
Proof.
  intros Hf Hw. unfold read_and_stack.
  assert (Hin : In f (filter (fun f => wanted (fst f)) dir))
    by (apply filter_In; tauto).
  destruct (filter (fun f => wanted (fst f)) dir); [destruct Hin|reflexivity].
Qed.

(** X9. A loader whose directory holds no file with a name ending in
    ".csv" and containing the wanted text raises KeyError at the column
    selection, where the comment of its [else] branch promises an empty
    frame: the order loader for the order directory, the item loader for
    the item directory.  Without such a file in the order directory the
    item loader returns no frame either: it raises KeyError at line 240,
    unless the item rows have made pandas raise before.  A frame that the
    item loader returns is the reconciled frame of the rows of the wanted
    files of the two directories, stacked in listing order, and it is
    returned when both directories hold such a file and no pandas
    operation raises; files with other names are not read. *)
Theorem loaders_need_files (cleaned_names : NameTable)
  (repair_encoding : string -> string)
  (order_lines_raise item_lines_raise : DataFrame -> option Raised)
  (merge_lines_raise : DataFrame -> DataFrame -> option Raised)
  (order_dir item_dir : Directory) :
  let load_orders :=
    load_deliverect_order_files cleaned_names repair_encoding
      order_lines_raise order_dir in
  let load_items :=
    load_deliverect_item_files cleaned_names repair_encoding
      order_lines_raise item_lines_raise merge_lines_raise
      order_dir item_dir in
  let orders :=
    concat (map snd (filter (fun f => is_order_file (fst f)) order_dir)) in
  let items :=
    concat (map snd (filter (fun f => is_item_file (fst f)) item_dir)) in
  ((forall f, In f order_dir -> is_order_file (fst f) = false) ->
   load_orders = inl KeyError /\
   (forall out, load_items <> inr out) /\
   (forall fi, In fi item_dir -> is_item_file (fst fi) = true ->
      item_lines_raise items = None -> load_items = inl KeyError)) /\
  ((forall f, In f item_dir -> is_item_file (fst f) = false) ->
   load_items = inl KeyError) /\
  (forall out, load_items = inr out ->
     (exists fo, In fo order_dir /\ is_order_file (fst fo) = true) /\
     (exists fi, In fi item_dir /\ is_item_file (fst fi) = true) /\
     out = load_deliverect_item_level_detail_data cleaned_names
             repair_encoding orders items) /\
  (forall fo fi,
     In fo order_dir -> is_order_file (fst fo) = true ->
     In fi item_dir -> is_item_file (fst fi) = true ->
     order_lines_raise orders = None ->
     item_lines_raise items = None ->
     merge_lines_raise
       (load_deliverect_order_data cleaned_names repair_encoding orders)
       (clean_deliverect_product_name repair_encoding
          (process_deliverect_shared_data cleaned_names items)) = None ->
     load_items = inr (load_deliverect_item_level_detail_data cleaned_names
                         repair_encoding orders items)).
Proof.
  cbv zeta.
  assert (Hsome : forall (wanted : string -> bool) (dir : Directory) df,
            read_and_stack wanted dir = Some df ->
            (exists f, In f dir /\ wanted (fst f) = true) /\
            df = concat (map snd (filter (fun f => wanted (fst f)) dir))).
  { intros wanted dir df. unfold read_and_stack.
    destruct (filter (fun f => wanted (fst f)) dir) as [|f l] eqn:E;
      [discriminate|].
    intros H. injection H as <-. split; [|reflexivity].
    exists f. apply (proj1 (filter_In (fun f => wanted (fst f)) f dir)).
    rewrite E. left. reflexivity. }
  split; [|split; [|split]].
  - intros H.
    assert (E : load_deliverect_order_files cleaned_names repair_encoding
                  order_lines_raise order_dir = inl KeyError).
    { unfold load_deliverect_order_files.
      rewrite (read_and_stack_none _ _ H). reflexivity. }
    split; [exact E|]. split.
    + intros out. unfold load_deliverect_item_files. rewrite E.
      unfold select_columns.
      destruct (read_and_stack is_item_file item_dir) as [df|];
        [|discriminate].
      destruct (item_lines_raise df); discriminate.
    + intros fi Hi Ei Hr. unfold load_deliverect_item_files.
      rewrite (read_and_stack_some _ _ fi Hi Ei). cbn [select_columns].
      rewrite Hr, E. reflexivity.
  - intros H. unfold load_deliverect_item_files.
    rewrite (read_and_stack_none _ _ H). reflexivity.
  - intros out. unfold load_deliverect_item_files,
      load_deliverect_order_files, select_columns.
    destruct (read_and_stack is_item_file item_dir) as [items|] eqn:Ei;
      [|discriminate].
    destruct (item_lines_raise items); [discriminate|].
    destruct (read_and_stack is_order_file order_dir) as [orders|] eqn:Eo;
      [|discriminate].
    destruct (order_lines_raise orders); [discriminate|].
    destruct (merge_lines_raise _ _); [discriminate|].
    intros H. injection H as <-.
    destruct (Hsome _ _ _ Ei) as [Hfi ->], (Hsome _ _ _ Eo) as [Hfo ->].
    split; [exact Hfo|]. split; [exact Hfi | reflexivity].
  - intros fo fi Ho Eo Hi Ei R1 R2 R3.
    unfold load_deliverect_item_files, load_deliverect_order_files.
    rewrite (read_and_stack_some _ _ fi Hi Ei),
            (read_and_stack_some _ _ fo Ho Eo).
    cbn [select_columns]. rewrite R2, R1, R3. reflexivity.
Qed.

Lemma loaders_need_files_witness :
  load_deliverect_order_files sample_names no_repair (fun _ => None)
    [("orders 2023.csv", [order_1]); ("Orders 2023.xlsx", [order_1])]
  = inl KeyError /\
  load_deliverect_item_files sample_names no_repair (fun _ => None)
    (fun _ => None) (fun _ _ => None)
    [("Orders 2023.csv", [order_1])]
    [("Order Level Pricing 2023.csv", [burger]);
     ("Order Level Pricing 2023 (1).csv", [fries])]
  = inr (load_deliverect_item_level_detail_data sample_names no_repair
           [order_1] [burger; fries]).
Proof.
  split.
  - apply (proj1 (loaders_need_files sample_names no_repair
                    (fun _ => None) (fun _ => None) (fun _ _ => None)
                    [("orders 2023.csv", [order_1]);
                     ("Orders 2023.xlsx", [order_1])] [])).
    intros f [<-|[<-|[]]]; reflexivity.
  - apply (proj2 (proj2 (proj2
             (loaders_need_files sample_names no_repair
                (fun _ => None) (fun _ => None) (fun _ _ => None)
                [("Orders 2023.csv", [order_1])]
                [("Order Level Pricing 2023.csv", [burger]);
                 ("Order Level Pricing 2023 (1).csv", [fries])])))
             ("Orders 2023.csv", [order_1])
             ("Order Level Pricing 2023.csv", [burger]));
      first [reflexivity | left; reflexivity].
Defined.

(** ** [convert_to_custom_format] *)

Lemma contains_cons (pat : string) (x : ascii) (s : string) :
  PyStr.contains pat (String x s) = false ->
  String.prefix pat (String x s) = false /\ PyStr.contains pat s = false.
Proof.
  cbn [PyStr.contains]. intros H. apply orb_false_iff in H. exact H.
Qed.

Lemma prefix_E_plus_app (a rest : string) :
  a <> EmptyString ->
  String.prefix "E+" a = false ->
  String.prefix "E+" (a ++ "E+" ++ rest) = false.
Proof.
  destruct a as [|x a]; [congruence|]. intros _ Hp.
  cbn [String.prefix append] in *.
  destruct (ascii_dec "E" x) as [_|Hne]; [|reflexivity].
  destruct a as [|y a]; [reflexivity|].
  cbn [String.prefix append] in *.
  destruct (ascii_dec "+" y); [destruct a; discriminate | reflexivity].
Qed.

Lemma split_no_sep (s : string) :
  PyStr.contains "E+" s = false -> split_from "E+" 0 s = (s, []).
Proof.
  induction s as [|x s IH]; [reflexivity|]. intros H.
  apply contains_cons in H. destruct H as [Hp Hc].
  cbn [split_from]. rewrite Hp, (IH Hc). reflexivity.
Qed.

Lemma split_at_sep (a rest : string) :
  PyStr.contains "E+" a = false ->
  split_from "E+" 0 (a ++ "E+" ++ rest) = (a, split "E+" rest).
Proof.
  induction a as [|x a IH]; intros H.
  - assert (Hp : String.prefix "E+" ("E+" ++ rest) = true)
      by (destruct rest; reflexivity).
    change (("" ++ "E+" ++ rest)%string) with (("E+" ++ rest)%string).
    change (("E+" ++ rest)%string) with (String "E" (String "+" rest)) in *.
    cbn [split_from]. rewrite Hp. cbn [String.length Nat.sub split_from].
    unfold split. destruct (split_from "E+" 0 rest). reflexivity.
  - apply contains_cons in H. destruct H as [Hp Hc].
    change ((String x a ++ "E+" ++ rest)%string)
      with (String x (a ++ "E+" ++ rest)%string).
    cbn [split_from].
    change (String x (a ++ "E+" ++ rest)%string)
      with ((String x a ++ "E+" ++ rest)%string).
    rewrite (prefix_E_plus_app (String x a) rest) by (congruence || exact Hp).
    rewrite (IH Hc). reflexivity.
Qed.

Lemma digit_spec (n : nat) :
  is_digit (PyStr.digit n) = true /\
  (nat_of_ascii (PyStr.digit n) - 48 = n mod 10)%nat.
Proof.
  unfold PyStr.digit.
  assert (H : (n mod 10 < 10)%nat) by (apply Nat.mod_upper_bound; lia).
  destruct (n mod 10)%nat as [|[|[|[|[|[|[|[|[|[|m]]]]]]]]]];
    try (split; reflexivity); lia.
Qed.

Lemma digit_char (c : ascii) :
  is_digit c = true ->
  is_c_space c = false /\ Ascii.eqb c "+" = false /\
  Ascii.eqb c "-" = false.
Proof.
  destruct c as [[] [] [] [] [] [] [] []]; intros E;
    first [discriminate E | repeat split; reflexivity].
Qed.

Lemma all_digits_fuel (fuel n : nat) (acc : string) :
  all_digits acc = true -> all_digits (PyStr.digits_fuel fuel n acc) = true.
Proof.
  revert n acc. induction fuel as [|f IH]; intros n acc H; [exact H|].
  cbn [PyStr.digits_fuel].
  assert (H' : all_digits (String (PyStr.digit n) acc) = true).
  { cbn [all_digits]. rewrite (proj1 (digit_spec n)), H. reflexivity. }
  destruct (n <? 10)%nat; [exact H' | apply IH, H'].
Qed.

Lemma all_digits_decimal (n : nat) : all_digits (PyStr.decimal n) = true.
Proof. apply all_digits_fuel. reflexivity. Qed.

Lemma int_digits_fuel (fuel n : nat) (acc : string) :
  (n < fuel)%nat ->
  int_digits 0 false (PyStr.digits_fuel fuel n acc) =
  int_digits (Z.of_nat n) true acc.
Proof.
  revert n acc. induction fuel as [|f IH]; intros n acc Hn; [lia|].
  cbn [PyStr.digits_fuel].
  assert (Hstep : forall a b,
            int_digits a b (String (PyStr.digit n) acc) =
            int_digits (10 * a + Z.of_nat (n mod 10)) true acc).
  { intros a b. cbn [int_digits].
    destruct (digit_spec n) as [Hd Hv]. rewrite Hd, Hv. reflexivity. }
  destruct (n <? 10)%nat eqn:E.
  - apply Nat.ltb_lt in E. rewrite Hstep.
    rewrite Nat.mod_small by exact E. reflexivity.
  - apply Nat.ltb_ge in E.
    assert (Hq : (n / 10 < f)%nat).
    { apply Nat.lt_le_trans with n; [apply Nat.div_lt; lia | lia]. }
    rewrite (IH _ _ Hq), Hstep. f_equal.
    rewrite (Nat.div_mod_eq n 10) at 3. lia.
Qed.

(** The number of digits of a decimal rendering. *)
Lemma digits_fuel_bounds (fuel n : nat) (acc : string) :
  (n < fuel)%nat ->
  exists d,
    String.length (PyStr.digits_fuel fuel n acc) = (d + String.length acc)%nat /\
    (1 <= d)%nat /\ (n < 10 ^ d)%nat /\ (d = 1%nat \/ (10 ^ (d - 1) <= n)%nat).
Proof.
  revert n acc. induction fuel as [|f IH]; intros n acc Hn; [lia|].
  cbn [PyStr.digits_fuel].
  destruct (n <? 10)%nat eqn:E.
  - apply Nat.ltb_lt in E. exists 1%nat. cbn [String.length Nat.pow].
    repeat split; lia.
  - apply Nat.ltb_ge in E.
    assert (Hq : (n / 10 < f)%nat).
    { apply Nat.lt_le_trans with n; [apply Nat.div_lt; lia | lia]. }
    destruct (IH (n / 10)%nat (String (PyStr.digit n) acc) Hq)
      as (d & HL & Hd & Hu & Hl).
    exists (S d). cbn [String.length] in HL.
    pose proof (Nat.div_mod_eq n 10) as Hdm.
    pose proof (Nat.mod_upper_bound n 10 ltac:(lia)) as Hm.
    split; [lia|]. split; [lia|]. split.
    + cbn [Nat.pow]. lia.
    + right. replace (S d - 1)%nat with d by lia.
      destruct Hl as [->|Hl]; [cbn; lia|].
      destruct d as [|d']; [lia|].
      replace (S d' - 1)%nat with d' in Hl by lia.
      cbn [Nat.pow]. lia.
Qed.

Lemma decimal_length_mono (m n : nat) :
  (m <= n)%nat ->
  (String.length (PyStr.decimal m) <= String.length (PyStr.decimal n))%nat.
Proof.
  intros H. unfold PyStr.decimal.
  destruct (digits_fuel_bounds (S m) m EmptyString ltac:(lia))
    as (dm & Lm & Hm1 & _ & Hml).
  destruct (digits_fuel_bounds (S n) n EmptyString ltac:(lia))
    as (dn & Ln & Hn1 & Hnu & _).
  rewrite Lm, Ln. cbn [String.length]. rewrite !Nat.add_0_r.
  destruct Hml as [->|Hml]; [exact Hn1|].
  assert (Hp : (10 ^ (dm - 1) < 10 ^ dn)%nat) by lia.
  apply Nat.pow_lt_mono_r_iff in Hp; lia.
Qed.

Lemma exceeds_limit_mono (max_str_digits a b : nat) :
  (b <= a)%nat ->
  exceeds_limit max_str_digits a a = false ->
  exceeds_limit max_str_digits b b = false.
Proof.
  unfold exceeds_limit. intros H E.
  destruct (640 <? b)%nat eqn:E1; [|reflexivity].
  destruct (0 <? max_str_digits)%nat eqn:E2; [|reflexivity].
  destruct (max_str_digits <? b)%nat eqn:E3; [|reflexivity].
  apply Nat.ltb_lt in E1, E3.
  assert (Ha : (640 <? a)%nat = true) by (apply Nat.ltb_lt; lia).
  assert (Hb : (max_str_digits <? a)%nat = true) by (apply Nat.ltb_lt; lia).
  rewrite Ha, Hb in E. discriminate E.
Qed.

Lemma rstrip_c_digits (s : string) : all_digits s = true -> rstrip_c s = s.
Proof.
  induction s as [|c s IH]; [reflexivity|]. cbn [all_digits]. intros H.
  apply andb_true_iff in H. destruct H as [Hc Hs].
  cbn [rstrip_c]. rewrite (IH Hs).
  destruct s; [|reflexivity].
  rewrite (proj1 (digit_char c Hc)). reflexivity.
Qed.

Lemma count_digits_all (s : string) :
  all_digits s = true -> count_digits s = String.length s.
Proof.
  induction s as [|c s IH]; [reflexivity|]. cbn [all_digits]. intros H.
  apply andb_true_iff in H. destruct H as [Hc Hs].
  cbn [count_digits String.length]. rewrite Hc, (IH Hs). reflexivity.
Qed.

Lemma py_int_digits (max_str_digits : nat) (s : string) :
  all_digits s = true ->
  py_int max_str_digits s =
  if exceeds_limit max_str_digits (String.length s) (String.length s)
  then None else int_digits 0 false s.
Proof.
  intros H. unfold py_int. destruct s as [|c s]; [reflexivity|].
  assert (Hc : is_digit c = true).
  { cbn [all_digits] in H. apply andb_true_iff in H. apply H. }
  destruct (digit_char c Hc) as (Hsp & Hplus & Hminus).
  cbn [lstrip_c]. rewrite Hsp, (rstrip_c_digits _ H), Hplus, Hminus.
  rewrite (count_digits_all _ H). reflexivity.
Qed.

Lemma py_int_decimal (max_str_digits n : nat) :
  exceeds_limit max_str_digits (String.length (PyStr.decimal n))
                (String.length (PyStr.decimal n)) = false ->
  py_int max_str_digits (PyStr.decimal n) = Some (Z.of_nat n).
Proof.
  intros E. rewrite (py_int_digits _ _ (all_digits_decimal n)), E.
  unfold PyStr.decimal. rewrite int_digits_fuel by lia. reflexivity.
Qed.

(** An exponent that [int] has read never trips the limit when it is
    written again two lower. *)
Lemma format_int_lowered (max_str_digits n : nat) :
  exceeds_limit max_str_digits (String.length (PyStr.decimal n))
                (String.length (PyStr.decimal n)) = false ->
  format_int max_str_digits (Z.of_nat n - 2)
  = Some (str_of_Z (Z.of_nat n - 2)).
Proof.
  intros E. unfold format_int.
  destruct (Nat.lt_ge_cases n 2) as [Hlt|Hge].
  - assert (Hn : n = 0%nat \/ n = 1%nat) by lia.
    destruct Hn as [->| ->]; reflexivity.
  - replace (Z.of_nat n - 2)%Z with (Z.of_nat (n - 2)) by lia.
    rewrite Zabs2Nat.id. unfold str_of_Z.
    assert (Hpos : (Z.of_nat (n - 2) <? 0)%Z = false)
      by (apply Z.ltb_ge; lia).
    rewrite Hpos, Nat2Z.id.
    rewrite (exceeds_limit_mono max_str_digits
               (String.length (PyStr.decimal n)) _
               (decimal_length_mono (n - 2) n ltac:(lia)) E).
    reflexivity.
Qed.

Lemma digits_no_sep (s : string) :
  all_digits s = true -> PyStr.contains "E+" s = false.
Proof.
  induction s as [|c s IH]; [reflexivity|]. cbn [all_digits]. intros H.
  apply andb_true_iff in H. destruct H as [Hc Hs].
  cbn [PyStr.contains]. rewrite (IH Hs), orb_false_r.
  cbn [String.prefix].
  destruct (ascii_dec "E" c) as [<-|]; [discriminate Hc | reflexivity].
Qed.

Lemma split_once (c e : string) :
  PyStr.contains "E+" c = false -> PyStr.contains "E+" e = false ->
  split "E+" (c ++ "E+" ++ e) = [c; e].
Proof.
  intros Hc He. unfold split at 1. rewrite (split_at_sep _ _ Hc).
  unfold split. rewrite (split_no_sep _ He). reflexivity.
Qed.

(** X10.  [convert_to_custom_format] rewrites a text only when it holds
    the separator "E+" exactly once and [int] accepts what follows it:
    the dots leave the coefficient and the exponent is written two
    lower.  A text without the separator, with two of them, or with an
    exponent that [int] refuses, or that is too long to be written again,
    comes back as it was.  For an exponent written in decimal digits,
    within the limit on the length of integer texts, the new exponent is
    the old one less two, with a minus sign below two.  The exponent is
    ASCII text where [int] is concerned; [max_str_digits] is the limit of
    the interpreter, 0 for none. *)
Theorem convert_to_custom_format_spec (max_str_digits : nat)
  (c e rest : string) :
  PyStr.contains "E+" c = false ->
  PyStr.contains "E+" e = false ->
  convert_to_custom_format max_str_digits c = c /\
  (is_ascii e = true ->
   convert_to_custom_format max_str_digits (c ++ "E+" ++ e) =
     match py_int max_str_digits e with
     | Some n =>
         match format_int max_str_digits (n - 2) with
         | Some t => (PyStr.replace "." "" c ++ "E" ++ t)%string
         | None => (c ++ "E+" ++ e)%string
         end
     | None => (c ++ "E+" ++ e)%string
     end) /\
  (forall n : nat,
     exceeds_limit max_str_digits (String.length (PyStr.decimal n))
                   (String.length (PyStr.decimal n)) = false ->
     convert_to_custom_format max_str_digits (c ++ "E+" ++ PyStr.decimal n) =
     (PyStr.replace "." "" c ++ "E" ++ str_of_Z (Z.of_nat n - 2))%string) /\
  (forall n : nat,
     exceeds_limit max_str_digits (String.length (PyStr.decimal n))
                   (String.length (PyStr.decimal n)) = true ->
     convert_to_custom_format max_str_digits (c ++ "E+" ++ PyStr.decimal n) =
     (c ++ "E+" ++ PyStr.decimal n)%string) /\
  convert_to_custom_format max_str_digits (c ++ "E+" ++ e ++ "E+" ++ rest) =
    (c ++ "E+" ++ e ++ "E+" ++ rest)%string.
Proof.
  intros Hc He. split; [|split; [|split; [|split]]].
  - unfold convert_to_custom_format, split.
    rewrite (split_no_sep _ Hc). reflexivity.
  - intros _. unfold convert_to_custom_format.
    rewrite (split_once _ _ Hc He).
    destruct (py_int max_str_digits e) as [n|]; [|reflexivity].
    destruct (format_int max_str_digits (n - 2)); reflexivity.
  - intros n E. unfold convert_to_custom_format.
    rewrite (split_once _ _ Hc (digits_no_sep _ (all_digits_decimal n))).
    rewrite (py_int_decimal _ _ E), (format_int_lowered _ _ E). reflexivity.
  - intros n E. unfold convert_to_custom_format.
    rewrite (split_once _ _ Hc (digits_no_sep _ (all_digits_decimal n))).
    rewrite (py_int_digits _ _ (all_digits_decimal n)), E. reflexivity.
  - unfold convert_to_custom_format. unfold split at 1.
    rewrite (split_at_sep _ _ Hc). unfold split at 1.
    rewrite (split_at_sep _ _ He). unfold split.
    destruct (split_from "E+" 0 rest). reflexivity.
Qed.

Lemma convert_to_custom_format_spec_witness :
  convert_to_custom_format 4300 "1.5E+ 07 " = "15E5"%string /\
  convert_to_custom_format 4300 "1.2E+1" = "12E-1"%string /\
  convert_to_custom_format 4300 "1E+2E+3" = "1E+2E+3"%string.
Proof.
  destruct (convert_to_custom_format_spec 4300 "1.5" " 07 " ""
              eq_refl eq_refl) as (_ & H2 & _ & _).
  destruct (convert_to_custom_format_spec 4300 "1.2" "2" "3"
              eq_refl eq_refl) as (_ & _ & H3 & _).
  destruct (convert_to_custom_format_spec 4300 "1" "2" "3"
              eq_refl eq_refl) as (_ & _ & _ & _ & H5).
  split; [exact (H2 eq_refl) | split; [exact (H3 1%nat eq_refl) | exact H5]].
Defined.

(** ** [convert_time_format] *)

Lemma time_fields_ok_iff (n : Z) :
  time_fields_ok (n / 3600) ((n mod 3600) / 60) (n mod 60) = true <->
  (0 <= n < 86400)%Z.
Proof.
  unfold time_fields_ok. rewrite !andb_true_iff, !Z.leb_le.
  pose proof (Z.div_mod n 3600 ltac:(lia)).
  pose proof (Z.mod_pos_bound n 3600 ltac:(lia)).
  pose proof (Z.div_mod (n mod 3600) 60 ltac:(lia)).
  pose proof (Z.mod_pos_bound (n mod 3600) 60 ltac:(lia)).
  pose proof (Z.mod_pos_bound n 60 ltac:(lia)).
  lia.
Qed.

Lemma fits_c_int_hours (n : Z) :
  fits_c_int (n / 3600) = true <->
  (- 2 ^ 31 * 3600 <= n < 2 ^ 31 * 3600)%Z.
Proof.
  unfold fits_c_int. rewrite andb_true_iff, !Z.leb_le.
  pose proof (Z.div_mod n 3600 ltac:(lia)).
  pose proof (Z.mod_pos_bound n 3600 ltac:(lia)).
  lia.
Qed.

Lemma zero_pad_two (n : nat) :
  (n < 60)%nat -> String.length (PyStr.zero_pad 2 n) = 2%nat.
Proof.
  intros H.
  assert (A : forallb (fun k => (String.length (PyStr.zero_pad 2 k) =? 2)%nat)
                (seq 0 60) = true) by (vm_compute; reflexivity).
  rewrite forallb_forall in A. apply Nat.eqb_eq, A, in_seq. lia.
Qed.

Lemma format_02d_small (n : Z) :
  (0 <= n < 60)%Z ->
  format_02d n = PyStr.zero_pad 2 (Z.to_nat n) /\
  String.length (format_02d n) = 2%nat.
Proof.
  intros H. unfold format_02d.
  destruct (n <? 0)%Z eqn:E; [apply Z.ltb_lt in E; lia|].
  split; [reflexivity | apply zero_pad_two; lia].
Qed.

Lemma length_app (a b : string) :
  String.length (a ++ b) = (String.length a + String.length b)%nat.
Proof. induction a as [|c a IH]; cbn; [reflexivity | rewrite IH; reflexivity]. Qed.

(** X11.  [convert_time_format] on a binary64 number of minutes: a NaN
    gives the empty text.  Otherwise the number is multiplied by 60 in
    binary64 and truncated to the whole seconds [n]; what [int] raises
    on the product is raised, OverflowError for an infinite number of
    minutes.  For 0 <= n < 86400 the result is the text
    HH:MM:SS of eight characters whose fields are below 24, 60 and 60 and
    add up to [n]; for other [n] the call of [dt.time] raises ValueError
    when the hours fit a C int and OverflowError when they do not.  The
    rounding of the product decides on which side of a bound a number
    falls. *)
Theorem convert_time_format_cases (t : spec_float) :
  (Binary64.is_nan t = true -> convert_time_format t = inr EmptyString) /\
  (forall sign, convert_time_format (S754_infinity sign) = inl OverflowError) /\
  (Binary64.is_nan t = false ->
   forall e,
     Binary64.to_int (Binary64.mul t (Binary64.of_Z 60)) = inl e ->
     convert_time_format t = inl e) /\
  (Binary64.is_nan t = false ->
   forall n,
     Binary64.to_int (Binary64.mul t (Binary64.of_Z 60)) = inr n ->
     ((0 <= n < 86400)%Z ->
      exists h m s : Z,
        (0 <= h < 24 /\ 0 <= m < 60 /\ 0 <= s < 60)%Z /\
        (3600 * h + 60 * m + s)%Z = n /\
        convert_time_format t =
          inr (PyStr.zero_pad 2 (Z.to_nat h) ++ ":" ++
               PyStr.zero_pad 2 (Z.to_nat m) ++ ":" ++
               PyStr.zero_pad 2 (Z.to_nat s))%string /\
        String.length (PyStr.zero_pad 2 (Z.to_nat h) ++ ":" ++
                       PyStr.zero_pad 2 (Z.to_nat m) ++ ":" ++
                       PyStr.zero_pad 2 (Z.to_nat s)) = 8%nat) /\
     ((n < 0 \/ 86400 <= n)%Z ->
      (- 2 ^ 31 * 3600 <= n < 2 ^ 31 * 3600)%Z ->
      convert_time_format t = inl ValueError) /\
     ((n < - 2 ^ 31 * 3600 \/ 2 ^ 31 * 3600 <= n)%Z ->
      convert_time_format t = inl OverflowError)).
Proof.
  split; [|split; [|split]].
  - unfold convert_time_format. intros ->. reflexivity.
  - intros []; reflexivity.
  - unfold convert_time_format. intros Hnan e E. rewrite Hnan, E.
    reflexivity.
  - unfold convert_time_format.
    intros Hnan n E. rewrite Hnan, E. cbv zeta.
    pose proof (time_fields_ok_iff n) as T.
    pose proof (fits_c_int_hours n) as F.
    split; [|split].
    + intros Hn.
      assert (Hf : fits_c_int (n / 3600) = true) by (apply F; lia).
      assert (Ht : time_fields_ok (n / 3600) (n mod 3600 / 60) (n mod 60)
                   = true) by (apply T, Hn).
      rewrite Hf, Ht. cbn [negb].
      pose proof (Z.div_mod n 3600 ltac:(lia)) as D1.
      pose proof (Z.mod_pos_bound n 3600 ltac:(lia)) as B1.
      pose proof (Z.div_mod (n mod 3600) 60 ltac:(lia)) as D2.
      pose proof (Z.mod_pos_bound (n mod 3600) 60 ltac:(lia)) as B2.
      pose proof (Z.mod_pos_bound n 60 ltac:(lia)) as B3.
      assert (M : (n mod 60 = (n mod 3600) mod 60)%Z).
      { clear. Z.div_mod_to_equations. lia. }
      assert (Hh : (0 <= n / 3600 < 60)%Z) by lia.
      assert (Hm : (0 <= (n mod 3600) / 60 < 60)%Z) by lia.
      destruct (format_02d_small _ Hh) as [Eh Lh].
      destruct (format_02d_small _ Hm) as [Em Lm].
      destruct (format_02d_small _ B3) as [Es Ls].
      exists (n / 3600)%Z, ((n mod 3600) / 60)%Z, (n mod 60)%Z.
      split; [lia|]. split; [lia|]. rewrite <- Eh, <- Em, <- Es.
      split; [reflexivity|].
      rewrite length_app, Lh. cbn [append String.length].
      rewrite length_app, Lm. cbn [append String.length].
      rewrite Ls. reflexivity.
    + intros Hn Hr.
      assert (Hf : fits_c_int (n / 3600) = true) by (apply F, Hr).
      rewrite Hf. cbn [negb].
      destruct (time_fields_ok _ _ _); [|reflexivity].
      assert (0 <= n < 86400)%Z by (apply T; reflexivity). lia.
    + intros Hn.
      destruct (fits_c_int (n / 3600)) eqn:Hf; [|reflexivity].
      assert (- 2 ^ 31 * 3600 <= n < 2 ^ 31 * 3600)%Z
        by (apply F; reflexivity). lia.
Qed.

(** The minutes 2.05 become 00:02:02, the product 122.99999999999999
    being truncated; the binary64 number nearest to -1/60 gives -1
    second and is refused; 130000000000 minutes are too many hours for a
    C int. *)
Lemma convert_time_format_cases_witness :
  convert_time_format (Binary64.div (Binary64.of_Z 205) (Binary64.of_Z 100))
  = inr "00:02:02"%string /\
  convert_time_format (Binary64.div (Binary64.of_Z (-1)) (Binary64.of_Z 60))
  = inl ValueError /\
  convert_time_format (Binary64.of_Z 130000000000) = inl OverflowError.
Proof.
  split; [|split].
  - destruct (convert_time_format_cases
                (Binary64.div (Binary64.of_Z 205) (Binary64.of_Z 100)))
      as (_ & _ & _ & H).
    destruct (H eq_refl 122%Z eq_refl) as (Hin & _).
    destruct (Hin ltac:(lia)) as (h & m & s & Hr & Hs & E & _).
    assert (h = 0%Z) by lia. assert (m = 2%Z) by lia.
    assert (s = 2%Z) by lia. subst h m s. exact E.
  - destruct (convert_time_format_cases
                (Binary64.div (Binary64.of_Z (-1)) (Binary64.of_Z 60)))
      as (_ & _ & _ & H).
    destruct (H eq_refl (-1)%Z eq_refl) as (_ & Hv & _).
    apply Hv; lia.
  - destruct (convert_time_format_cases (Binary64.of_Z 130000000000))
      as (_ & _ & _ & H).
    destruct (H eq_refl 7800000000000%Z eq_refl) as (_ & _ & Ho).
    apply Ho. lia.
Defined.

(** ** [format_timedelta] *)

Lemma int_of_Q_inject (z : Z) : int_of_Q (inject_Z z) = z.
Proof. unfold int_of_Q, inject_Z. cbn [Qnum Qden]. apply Z.quot_1_r. Qed.

Lemma int_of_Q_nonneg (x : Q) : 0 <= x -> int_of_Q x = Qfloor x.
Proof.
  destruct x as [a b]. unfold Qle, int_of_Q, Qfloor. cbn [Qnum Qden].
  intros H. apply Z.quot_div_nonneg; lia.
Qed.

Lemma Qfloor_bounds (x : Q) :
  inject_Z (Qfloor x) <= x /\ x < inject_Z (Qfloor x) + 1.
Proof.
  split; [apply Qfloor_le|].
  pose proof (Qlt_floor x) as H. rewrite inject_Z_plus in H. exact H.
Qed.

Lemma Qfloor_unique (x : Q) (z : Z) :
  inject_Z z <= x -> x < inject_Z z + 1 -> Qfloor x = z.
Proof.
  intros H1 H2. destruct (Qfloor_bounds x) as [F1 F2].
  assert (A : (z < Qfloor x + 1)%Z).
  { rewrite Zlt_Qlt, inject_Z_plus. change (inject_Z 1) with 1. lra. }
  assert (B : (Qfloor x < z + 1)%Z).
  { rewrite Zlt_Qlt, inject_Z_plus. change (inject_Z 1) with 1. lra. }
  lia.
Qed.

Lemma divmod_spec (x : Q) (y : Z) :
  (0 < y)%Z ->
  let (q, r) := divmod x (inject_Z y) in
  q = inject_Z (Qfloor (x / inject_Z y)) /\
  x == q * inject_Z y + r /\ 0 <= r /\ r < inject_Z y.
Proof.
  intros Hy. unfold divmod.
  assert (Hy' : 0 < inject_Z y).
  { change 0 with (inject_Z 0). rewrite <- Zlt_Qlt. exact Hy. }
  destruct (Qfloor_bounds (x / inject_Z y)) as [F1 F2].
  set (f := inject_Z (Qfloor (x / inject_Z y))) in *.
  assert (E : x == (x / inject_Z y) * inject_Z y).
  { field. intros E. rewrite E in Hy'. apply (Qlt_irrefl 0), Hy'. }
  set (d := x / inject_Z y) in *.
  split; [reflexivity|]. split; [ring|].
  split.
  - assert (f * inject_Z y <= d * inject_Z y)
      by (apply Qmult_le_compat_r; [exact F1 | apply Qlt_le_weak, Hy']).
    lra.
  - assert (d * inject_Z y < (f + 1) * inject_Z y)
      by (apply Qmult_lt_compat_r; [exact Hy' | exact F2]).
    lra.
Qed.

Lemma Z_of_Q_bounds (z lo hi : Z) (x : Q) :
  inject_Z z <= x -> x < inject_Z z + 1 ->
  inject_Z lo <= x -> x < inject_Z hi -> (lo <= z < hi)%Z.
Proof.
  intros H1 H2 H3 H4.
  assert (A : (lo < z + 1)%Z).
  { rewrite Zlt_Qlt, inject_Z_plus. change (inject_Z 1) with 1. lra. }
  assert (B : (z < hi)%Z) by (rewrite Zlt_Qlt; lra).
  lia.
Qed.

(** X12.  [format_timedelta] splits the whole seconds of a duration:
    the minute and second fields are two digits between 00 and 59, the
    hour field is the number of whole hours rounded down, never reduced
    modulo 24 and negative exactly for a negative duration, and
    3600 h + 60 m + s is the duration rounded down to a second. *)
Theorem format_timedelta_fields (total_seconds : Q) :
  exists h m s : Z,
    (0 <= m < 60 /\ 0 <= s < 60)%Z /\
    (3600 * h + 60 * m + s)%Z = Qfloor total_seconds /\
    h = Qfloor (total_seconds / 3600) /\
    ((h < 0)%Z <-> total_seconds < 0) /\
    format_timedelta (Some total_seconds) =
      (format_02d h ++ ":" ++ PyStr.zero_pad 2 (Z.to_nat m) ++ ":" ++
       PyStr.zero_pad 2 (Z.to_nat s))%string.
Proof.
  unfold format_timedelta.
  pose proof (divmod_spec total_seconds 3600 ltac:(lia)) as D1.
  change (inject_Z 3600) with 3600 in D1.
  destruct (divmod total_seconds 3600) as [hours remainder].
  destruct D1 as (Eh & E1 & R0 & R1).
  pose proof (divmod_spec remainder 60 ltac:(lia)) as D2.
  change (inject_Z 60) with 60 in D2.
  destruct (divmod remainder 60) as [minutes seconds].
  destruct D2 as (Em & E2 & S0 & S1).
  destruct (Qfloor_bounds seconds) as [F1 F2].
  destruct (Qfloor_bounds (remainder / 60)) as [G1 G2].
  set (h := Qfloor (total_seconds / 3600)) in *.
  set (m := Qfloor (remainder / 60)) in *.
  set (s := Qfloor seconds) in *.
  subst hours minutes.
  assert (Hs : (0 <= s < 60)%Z).
  { apply (Z_of_Q_bounds s 0 60 seconds); assumption. }
  assert (Hm : (0 <= m < 60)%Z).
  { assert (E : remainder == (remainder / 60) * 60) by field.
    apply (Z_of_Q_bounds m 0 60 (remainder / 60)); try assumption.
    - change (inject_Z 0) with 0. lra.
    - change (inject_Z 60) with 60. lra. }
  exists h, m, s. split; [split; assumption|].
  split; [|split; [reflexivity|split]].
  - symmetry. apply Qfloor_unique.
    + rewrite !inject_Z_plus, !inject_Z_mult.
      change (inject_Z 3600) with 3600. change (inject_Z 60) with 60. lra.
    + rewrite !inject_Z_plus, !inject_Z_mult.
      change (inject_Z 3600) with 3600. change (inject_Z 60) with 60. lra.
  - split; intros H.
    + assert (A : inject_Z h <= inject_Z (-1)) by (rewrite <- Zle_Qle; lia).
      change (inject_Z (-1)) with (-1 # 1) in A. lra.
    + rewrite Zlt_Qlt. change (inject_Z 0) with 0.
      destruct (Qlt_le_dec (inject_Z h) 0) as [L|L]; [exact L|]. lra.
  - rewrite !int_of_Q_inject, (int_of_Q_nonneg seconds S0).
    fold s.
    rewrite (proj1 (format_02d_small m Hm)), (proj1 (format_02d_small s Hs)).
    reflexivity.
Qed.

(** ** [week_start] *)

(** X13.  [week_start] moves a timestamp back to the Monday of its
    week and keeps its time of day: the result is a Monday at most six
    days earlier, it is the only Monday in that range, a Monday stays
    where it is, and later days never get an earlier week start. *)
Theorem week_start_monday (date : Timestamp) :
  weekday (week_start date) = 0%Z /\
  (0 <= day_ordinal date - day_ordinal (week_start date) <= 6)%Z /\
  time_of_day (week_start date) = time_of_day date /\
  (forall monday : Timestamp,
     weekday monday = 0%Z ->
     (0 <= day_ordinal date - day_ordinal monday <= 6)%Z ->
     day_ordinal monday = day_ordinal (week_start date)) /\
  (weekday date = 0%Z -> week_start date = date) /\
  week_start (week_start date) = week_start date /\
  (forall later : Timestamp,
     (day_ordinal date <= day_ordinal later)%Z ->
     (day_ordinal (week_start date) <= day_ordinal (week_start later))%Z).
Proof.
  destruct date as [d t]. unfold week_start, weekday. cbn [day_ordinal time_of_day].
  assert (W : ((d - (d + 6) mod 7 + 6) mod 7 = 0)%Z)
    by (Z.div_mod_to_equations; lia).
  split; [exact W|]. split; [Z.div_mod_to_equations; lia|].
  split; [reflexivity|]. split; [|split; [|split]].
  - intros [m tm]. cbn [day_ordinal]. intros Hm Hr.
    Z.div_mod_to_equations. lia.
  - intros H. rewrite H, Z.sub_0_r. reflexivity.
  - rewrite W, Z.sub_0_r. reflexivity.
  - intros [l tl]. cbn [day_ordinal]. intros H.
    Z.div_mod_to_equations. lia.
Qed.

(** ** [clean_deliverect_product_name] *)

Lemma replace_absent (old new s : string) :
  PyStr.contains old s = false -> PyStr.replace old new s = s.
Proof.
  unfold PyStr.replace. induction s as [|c s IH]; [reflexivity|]. intros H.
  apply contains_cons in H. destruct H as [Hp Hc].
  cbn [PyStr.replace_from]. rewrite Hp, (IH Hc). reflexivity.
Qed.

Lemma fixes_absent (fixes : list (string * string)) (s : string) :
  Forall (fun p => PyStr.contains (fst p) s = false) fixes ->
  fold_left (fun s p => PyStr.replace (fst p) (snd p) s) fixes s = s.
Proof.
  induction fixes as [|p fixes IH]; [reflexivity|]. intros H.
  inversion H as [|? ? Hp Hrest]; subst. cbn [fold_left].
  rewrite (replace_absent _ _ _ Hp). apply IH, Hrest.
Qed.

(** X14.  [clean_deliverect_product_name] keeps the rows, their order
    and every column but [ProductName]; the product name is never
    missing afterwards (a missing name is cleaned as the empty text);
    and a name that, once re-encoded, holds none of the ten patterns of
    the replacement list is left as re-encoded. *)
Theorem product_name_cleaning (repair_encoding : string -> string)
  (df : DataFrame) (i : nat) (r : Row) :
  nth_error df i = Some r ->
  let raw := match ProductName r with Some s => s | None => EmptyString end in
  length (clean_deliverect_product_name repair_encoding df) = length df /\
  exists name,
    nth_error (clean_deliverect_product_name repair_encoding df) i =
      Some (set_ProductName (Some name) r) /\
    (Forall (fun p => PyStr.contains (fst p) (repair_encoding raw) = false)
            product_name_fixes ->
     name = repair_encoding raw).
Proof.
  intros H raw. unfold clean_deliverect_product_name.
  split; [apply length_map|].
  rewrite nth_error_map, H. cbn [option_map]. eexists. split; [reflexivity|].
  intros A. apply fixes_absent, A.
Qed.

Lemma product_name_cleaning_witness :
  nth_error (clean_deliverect_product_name no_repair [burger]) 0 =
  Some (set_ProductName (ProductName burger) burger).
Proof.
  destruct (product_name_cleaning no_repair [burger] 0 burger eq_refl)
    as (_ & name & E & A).
  rewrite E. rewrite A; [reflexivity|].
  repeat constructor.
Defined.
